(** * FinLife client scripts: quick-operation modal, push registration,
      notification service worker

    Shallow embedding of
    - [dashboard-actions.js] (two revisions: the one that toggles
      [style.display] on the category options, and the one that rebuilds the
      option list from the retained catalog),
    - [static/js/push-register.js],
    - [static/js/service-worker.js],
    - the operations scripts [backup_prod_db.sh], [deploy_prod.sh],
      [promote_prod.sh] and [restore_prod_db.sh].

    Strings are byte strings; every identifier the scripts compare
    (["TRANSFER"], ["none"], ["denied"], ...) is ASCII. *)

From Stdlib Require Import Ascii String NArith ZArith.
From stdpp Require Import base option list strings.

Local Open Scope string_scope.

(** ** The DOM surface used by the modal *)

(** An [<option>] node of the category [<select>]. *)
Record OptionEl := OptionNode {
  opt_value : string;                 (* opt.value *)
  opt_textContent : string;           (* opt.textContent *)
  opt_dataset_type : option string;   (* opt.dataset.type, absent on the placeholder *)
  opt_display : string;               (* opt.style.display *)
  opt_selected : bool                 (* opt.selected *)
}.

Definition set_opt_selected (b : bool) (o : OptionEl) : OptionEl :=
  OptionNode (opt_value o) (opt_textContent o) (opt_dataset_type o) (opt_display o) b.

Definition set_opt_display (d : string) (o : OptionEl) : OptionEl :=
  OptionNode (opt_value o) (opt_textContent o) (opt_dataset_type o) d (opt_selected o).

(** What the user is offered for an option: its value and its label. *)
Definition opt_entry (o : OptionEl) : string * string :=
  (opt_value o, opt_textContent o).

(** The "no category" entry is the one that submits the empty value. *)
Definition is_placeholder (o : OptionEl) : bool := (opt_value o =? "")%string.

(** *** The [<select>] element, as the HTML standard defines the operations
    the scripts use on it. *)
Module Select.

(** Selectedness of every option set to false. *)
Definition deselect_all (opts : list OptionEl) : list OptionEl :=
  set_opt_selected false <$> opts.

(** The first option, in tree order, whose value is [v] becomes selected. *)
Fixpoint select_first (v : string) (opts : list OptionEl) : list OptionEl :=
  match opts with
  | [] => []
  | o :: rest =>
      if (opt_value o =? v)%string then set_opt_selected true o :: rest
      else o :: select_first v rest
  end.

(** [select.value = v]. *)
Definition set_value (v : string) (opts : list OptionEl) : list OptionEl :=
  select_first v (deselect_all opts).

(** [select.value]: the value of the first selected option, [""] if none. *)
Fixpoint value (opts : list OptionEl) : string :=
  match opts with
  | [] => ""
  | o :: rest => if opt_selected o then opt_value o else value rest
  end.

(** All but the last selected option lose their selectedness. *)
Fixpoint keep_last_selected (opts : list OptionEl) : list OptionEl :=
  match opts with
  | [] => []
  | o :: rest =>
      (if existsb opt_selected rest then set_opt_selected false o else o)
        :: keep_last_selected rest
  end.

(** The selectedness setting algorithm of a drop-down (no [multiple],
    display size 1), run when option nodes are inserted or removed. *)
Definition reset (opts : list OptionEl) : list OptionEl :=
  if existsb opt_selected opts then keep_last_selected opts
  else match opts with
       | [] => []
       | o :: rest => set_opt_selected true o :: rest
       end.

(** [select.removeChild(select.options[i])]. *)
Definition removeChild (i : nat) (opts : list OptionEl) : list OptionEl :=
  reset (delete i opts).

(** [select.appendChild(o)]. *)
Definition appendChild (o : OptionEl) (opts : list OptionEl) : list OptionEl :=
  reset (opts ++ [o]).

(** [document.createElement('option')] followed by the two assignments
    [opt.value = v; opt.textContent = l]. *)
Definition createOption (v l : string) : OptionEl :=
  OptionNode v l None "" false.

End Select.

(** Which element has the input focus, as far as the modal moves it. *)
Inductive Focus := FocusElsewhere | FocusAmount | FocusBtn.

(** The optional global hint-refresh functions. They belong to the host
    page; a call is recorded, what the callee does to its own hint nodes is
    outside the script. *)
Inductive HintCall := UpdateQopFromHint | UpdateQopToHint | UpdateQopWalletHint.

Record Hooks := {
  has_updateQopFromHint : bool;     (* typeof updateQopFromHint === 'function' *)
  has_updateQopToHint : bool;
  has_updateQopWalletHint : bool
}.

(** The DOM references cached by [init], with the attributes the scripts read
    or write. [qopCategoryRow], [qopCategory] and [qopOccurredAt] are the
    three references the scripts test for null before use; the others are
    dereferenced unconditionally and are taken to be present. *)
Record Page := {
  menu_hidden : bool;
  btn_aria_expanded : string;
  qopType_value : string;
  qopTitle_textContent : string;
  walletRow_display : string;
  fromRow_display : string;
  toRow_display : string;
  qopWallet_disabled : bool;
  qopFrom_disabled : bool;
  qopTo_disabled : bool;
  qopCategoryRow : option string;             (* style.display of the row *)
  qopCategory : option (list OptionEl);       (* the options of the select *)
  qopAmount_value : string;
  qopDesc_value : string;
  qopOccurredAt : option string;              (* value of the input *)
  backdrop_qop_open : bool;                   (* classList has 'qop-open' *)
  activeElement : Focus;
  hooks : Hooks;
  hint_calls : list HintCall                  (* most recent call first *)
}.

Definition set_menu_hidden (b : bool) (p : Page) : Page :=
  {| menu_hidden := b; btn_aria_expanded := btn_aria_expanded p;
     qopType_value := qopType_value p; qopTitle_textContent := qopTitle_textContent p;
     walletRow_display := walletRow_display p; fromRow_display := fromRow_display p;
     toRow_display := toRow_display p; qopWallet_disabled := qopWallet_disabled p;
     qopFrom_disabled := qopFrom_disabled p; qopTo_disabled := qopTo_disabled p;
     qopCategoryRow := qopCategoryRow p; qopCategory := qopCategory p;
     qopAmount_value := qopAmount_value p; qopDesc_value := qopDesc_value p;
     qopOccurredAt := qopOccurredAt p; backdrop_qop_open := backdrop_qop_open p;
     activeElement := activeElement p; hooks := hooks p; hint_calls := hint_calls p |}.

Definition set_btn_aria_expanded (v : string) (p : Page) : Page :=
  {| menu_hidden := menu_hidden p; btn_aria_expanded := v;
     qopType_value := qopType_value p; qopTitle_textContent := qopTitle_textContent p;
     walletRow_display := walletRow_display p; fromRow_display := fromRow_display p;
     toRow_display := toRow_display p; qopWallet_disabled := qopWallet_disabled p;
     qopFrom_disabled := qopFrom_disabled p; qopTo_disabled := qopTo_disabled p;
     qopCategoryRow := qopCategoryRow p; qopCategory := qopCategory p;
     qopAmount_value := qopAmount_value p; qopDesc_value := qopDesc_value p;
     qopOccurredAt := qopOccurredAt p; backdrop_qop_open := backdrop_qop_open p;
     activeElement := activeElement p; hooks := hooks p; hint_calls := hint_calls p |}.

Definition set_type_and_title (ty title : string) (p : Page) : Page :=
  {| menu_hidden := menu_hidden p; btn_aria_expanded := btn_aria_expanded p;
     qopType_value := ty; qopTitle_textContent := title;
     walletRow_display := walletRow_display p; fromRow_display := fromRow_display p;
     toRow_display := toRow_display p; qopWallet_disabled := qopWallet_disabled p;
     qopFrom_disabled := qopFrom_disabled p; qopTo_disabled := qopTo_disabled p;
     qopCategoryRow := qopCategoryRow p; qopCategory := qopCategory p;
     qopAmount_value := qopAmount_value p; qopDesc_value := qopDesc_value p;
     qopOccurredAt := qopOccurredAt p; backdrop_qop_open := backdrop_qop_open p;
     activeElement := activeElement p; hooks := hooks p; hint_calls := hint_calls p |}.

Definition set_wallet_rows (w f t : string) (p : Page) : Page :=
  {| menu_hidden := menu_hidden p; btn_aria_expanded := btn_aria_expanded p;
     qopType_value := qopType_value p; qopTitle_textContent := qopTitle_textContent p;
     walletRow_display := w; fromRow_display := f;
     toRow_display := t; qopWallet_disabled := qopWallet_disabled p;
     qopFrom_disabled := qopFrom_disabled p; qopTo_disabled := qopTo_disabled p;
     qopCategoryRow := qopCategoryRow p; qopCategory := qopCategory p;
     qopAmount_value := qopAmount_value p; qopDesc_value := qopDesc_value p;
     qopOccurredAt := qopOccurredAt p; backdrop_qop_open := backdrop_qop_open p;
     activeElement := activeElement p; hooks := hooks p; hint_calls := hint_calls p |}.

Definition set_wallet_disabled (w f t : bool) (p : Page) : Page :=
  {| menu_hidden := menu_hidden p; btn_aria_expanded := btn_aria_expanded p;
     qopType_value := qopType_value p; qopTitle_textContent := qopTitle_textContent p;
     walletRow_display := walletRow_display p; fromRow_display := fromRow_display p;
     toRow_display := toRow_display p; qopWallet_disabled := w;
     qopFrom_disabled := f; qopTo_disabled := t;
     qopCategoryRow := qopCategoryRow p; qopCategory := qopCategory p;
     qopAmount_value := qopAmount_value p; qopDesc_value := qopDesc_value p;
     qopOccurredAt := qopOccurredAt p; backdrop_qop_open := backdrop_qop_open p;
     activeElement := activeElement p; hooks := hooks p; hint_calls := hint_calls p |}.

Definition set_qopCategoryRow (r : option string) (p : Page) : Page :=
  {| menu_hidden := menu_hidden p; btn_aria_expanded := btn_aria_expanded p;
     qopType_value := qopType_value p; qopTitle_textContent := qopTitle_textContent p;
     walletRow_display := walletRow_display p; fromRow_display := fromRow_display p;
     toRow_display := toRow_display p; qopWallet_disabled := qopWallet_disabled p;
     qopFrom_disabled := qopFrom_disabled p; qopTo_disabled := qopTo_disabled p;
     qopCategoryRow := r; qopCategory := qopCategory p;
     qopAmount_value := qopAmount_value p; qopDesc_value := qopDesc_value p;
     qopOccurredAt := qopOccurredAt p; backdrop_qop_open := backdrop_qop_open p;
     activeElement := activeElement p; hooks := hooks p; hint_calls := hint_calls p |}.

Definition set_qopCategory (c : option (list OptionEl)) (p : Page) : Page :=
  {| menu_hidden := menu_hidden p; btn_aria_expanded := btn_aria_expanded p;
     qopType_value := qopType_value p; qopTitle_textContent := qopTitle_textContent p;
     walletRow_display := walletRow_display p; fromRow_display := fromRow_display p;
     toRow_display := toRow_display p; qopWallet_disabled := qopWallet_disabled p;
     qopFrom_disabled := qopFrom_disabled p; qopTo_disabled := qopTo_disabled p;
     qopCategoryRow := qopCategoryRow p; qopCategory := c;
     qopAmount_value := qopAmount_value p; qopDesc_value := qopDesc_value p;
     qopOccurredAt := qopOccurredAt p; backdrop_qop_open := backdrop_qop_open p;
     activeElement := activeElement p; hooks := hooks p; hint_calls := hint_calls p |}.

Definition set_amount_desc (a d : string) (p : Page) : Page :=
  {| menu_hidden := menu_hidden p; btn_aria_expanded := btn_aria_expanded p;
     qopType_value := qopType_value p; qopTitle_textContent := qopTitle_textContent p;
     walletRow_display := walletRow_display p; fromRow_display := fromRow_display p;
     toRow_display := toRow_display p; qopWallet_disabled := qopWallet_disabled p;
     qopFrom_disabled := qopFrom_disabled p; qopTo_disabled := qopTo_disabled p;
     qopCategoryRow := qopCategoryRow p; qopCategory := qopCategory p;
     qopAmount_value := a; qopDesc_value := d;
     qopOccurredAt := qopOccurredAt p; backdrop_qop_open := backdrop_qop_open p;
     activeElement := activeElement p; hooks := hooks p; hint_calls := hint_calls p |}.

Definition set_qopOccurredAt (v : option string) (p : Page) : Page :=
  {| menu_hidden := menu_hidden p; btn_aria_expanded := btn_aria_expanded p;
     qopType_value := qopType_value p; qopTitle_textContent := qopTitle_textContent p;
     walletRow_display := walletRow_display p; fromRow_display := fromRow_display p;
     toRow_display := toRow_display p; qopWallet_disabled := qopWallet_disabled p;
     qopFrom_disabled := qopFrom_disabled p; qopTo_disabled := qopTo_disabled p;
     qopCategoryRow := qopCategoryRow p; qopCategory := qopCategory p;
     qopAmount_value := qopAmount_value p; qopDesc_value := qopDesc_value p;
     qopOccurredAt := v; backdrop_qop_open := backdrop_qop_open p;
     activeElement := activeElement p; hooks := hooks p; hint_calls := hint_calls p |}.

Definition set_backdrop_focus (b : bool) (f : Focus) (p : Page) : Page :=
  {| menu_hidden := menu_hidden p; btn_aria_expanded := btn_aria_expanded p;
     qopType_value := qopType_value p; qopTitle_textContent := qopTitle_textContent p;
     walletRow_display := walletRow_display p; fromRow_display := fromRow_display p;
     toRow_display := toRow_display p; qopWallet_disabled := qopWallet_disabled p;
     qopFrom_disabled := qopFrom_disabled p; qopTo_disabled := qopTo_disabled p;
     qopCategoryRow := qopCategoryRow p; qopCategory := qopCategory p;
     qopAmount_value := qopAmount_value p; qopDesc_value := qopDesc_value p;
     qopOccurredAt := qopOccurredAt p; backdrop_qop_open := b;
     activeElement := f; hooks := hooks p; hint_calls := hint_calls p |}.

Definition call_hint (h : HintCall) (p : Page) : Page :=
  {| menu_hidden := menu_hidden p; btn_aria_expanded := btn_aria_expanded p;
     qopType_value := qopType_value p; qopTitle_textContent := qopTitle_textContent p;
     walletRow_display := walletRow_display p; fromRow_display := fromRow_display p;
     toRow_display := toRow_display p; qopWallet_disabled := qopWallet_disabled p;
     qopFrom_disabled := qopFrom_disabled p; qopTo_disabled := qopTo_disabled p;
     qopCategoryRow := qopCategoryRow p; qopCategory := qopCategory p;
     qopAmount_value := qopAmount_value p; qopDesc_value := qopDesc_value p;
     qopOccurredAt := qopOccurredAt p; backdrop_qop_open := backdrop_qop_open p;
     activeElement := activeElement p; hooks := hooks p;
     hint_calls := h :: hint_calls p |}.

(** [if (el) el.attr = v] on an optional element. *)
Definition assign_if_present {A} (v : A) (el : option A) : option A :=
  match el with Some _ => Some v | None => None end.

(** An update of the category select's option list, when the select exists. *)
Definition on_category (f : list OptionEl → list OptionEl) (p : Page) : Page :=
  set_qopCategory (f <$> qopCategory p) p.

(** [style.display] values: an element is laid out unless it is ["none"]. *)
Definition shown (display : string) : bool := negb (display =? "none")%string.

(** [OperationType] and the strings the menu items carry in [data-type]. *)
Inductive OperationType := INCOME | EXPENSE | TRANSFER.

Definition type_name (t : OperationType) : string :=
  match t with INCOME => "INCOME" | EXPENSE => "EXPENSE" | TRANSFER => "TRANSFER" end.

(** [var TITLES = { INCOME: ..., EXPENSE: ..., TRANSFER: ... }] *)
Definition TITLES : list (string * string) :=
  [("INCOME", "Доход"); ("EXPENSE", "Расход"); ("TRANSFER", "Перемещение")].

Fixpoint lookup_key (k : string) (tbl : list (string * string)) : option string :=
  match tbl with
  | [] => None
  | (k', v) :: rest => if (k' =? k)%string then Some v else lookup_key k rest
  end.

(** [TITLES[type] || 'Быстрая операция'], for the object's own keys (the
    names an object literal inherits, such as [constructor], are left out). *)
Definition title_of (type : string) : string :=
  match lookup_key type TITLES with
  | Some t => if (t =? "")%string then "Быстрая операция" else t
  | None => "Быстрая операция"
  end.

(** [openModal] is the same text in both revisions of the script, around
    the call of that revision's [filterCategories]. [before_filter] is what
    it does up to that call: close the dropdown, set the type and the title,
    show or hide the wallet rows. *)
Definition before_filter (type : string) (p : Page) : Page :=
  let p := set_menu_hidden true p in
  let p := set_btn_aria_expanded "false" p in
  let p := set_type_and_title type (title_of type) p in
  let isTransfer := (type =? "TRANSFER")%string in
  let p := set_wallet_rows (if isTransfer then "none" else "")
                           (if isTransfer then "" else "none")
                           (if isTransfer then "" else "none") p in
  set_wallet_disabled isTransfer (negb isTransfer) (negb isTransfer) p.

(** [after_filter] is what [openModal] does after that call: reset the
    fields, call the hint hooks that exist, show the modal, focus the
    amount. *)
Definition after_filter (type : string) (p : Page) : Page :=
  let isTransfer := (type =? "TRANSFER")%string in
  let p := set_amount_desc "" "" p in
  let p := on_category (Select.set_value "") p in
  let p := set_qopOccurredAt (assign_if_present "" (qopOccurredAt p)) p in
  let p :=
    if isTransfer then
      let p := if has_updateQopFromHint (hooks p) then call_hint UpdateQopFromHint p else p in
      if has_updateQopToHint (hooks p) then call_hint UpdateQopToHint p else p
    else
      if has_updateQopWalletHint (hooks p) then call_hint UpdateQopWalletHint p else p in
  set_backdrop_focus true FocusAmount p.

(** ** [dashboard-actions.js], first revision: the category filter toggles
    [style.display] on the existing option nodes *)
Module Toggle.

(** The [forEach] callback, on the node at index [i] of the select. Nodes
    without a [data-type] attribute are not matched by
    ['option[data-type]'] and are skipped. *)
Definition toggle_at (type : string) (i : nat) (opts : list OptionEl)
  : list OptionEl :=
  match opts !! i with
  | Some opt =>
      match opt_dataset_type opt with
      | Some t =>
          let d := if (t =? type)%string then "" else "none" in
          let opts := <[i := set_opt_display d opt]> opts in
          if opt_selected opt && (d =? "none")%string
          then Select.set_value "" opts
          else opts
      | None => opts
      end
  | None => opts
  end.

(** [options.forEach(...)]: the callback on the nodes at [i], [i+1], ...,
    [i+n-1], in tree order. *)
Fixpoint forEach_options (type : string) (i n : nat) (opts : list OptionEl)
  : list OptionEl :=
  match n with
  | 0 => opts
  | S n' => forEach_options type (S i) n' (toggle_at type i opts)
  end.

Definition filterCategories (type : string) (p : Page) : Page :=
  match qopCategory p with
  | None => p
  | Some _ =>
      let isTransfer := (type =? "TRANSFER")%string in
      let p :=
        set_qopCategoryRow
          (assign_if_present (if isTransfer then "none" else "") (qopCategoryRow p)) p in
      if isTransfer then on_category (Select.set_value "") p
      else on_category (λ opts, forEach_options type 0 (length opts) opts) p
  end.

Definition openModal (type : string) (p : Page) : Page :=
  let p := before_filter type p in
  let p := filterCategories type p in
  after_filter type p.

Definition closeModal (p : Page) : Page :=
  set_backdrop_focus false FocusBtn p.

(** The options the select offers on a browser that hides an [<option>]
    styled [display:none]: the nodes that are not so styled. The second
    revision is there because not every browser does. *)
Definition presented (p : Page) : option (list (string * string)) :=
  (λ opts, opt_entry <$> List.filter (λ o, shown (opt_display o)) opts)
    <$> qopCategory p.

(** The options the select holds, which is what it offers on a browser
    that ignores [style.display] on an [<option>]: every node. *)
Definition held (p : Page) : option (list (string * string)) :=
  fmap (M := list) opt_entry <$> qopCategory p.

(** What one callback round does to a node, selectedness apart. *)
Definition retype (type : string) (o : OptionEl) : OptionEl :=
  match opt_dataset_type o with
  | Some t => set_opt_display (if (t =? type)%string then "" else "none") o
  | None => o
  end.

(** The markup this revision works on: a shown placeholder without
    [data-type], then the category options, each with a [data-type]. *)
Definition host_select (opts : list OptionEl) : bool :=
  match opts with
  | ph :: cats =>
      is_placeholder ph && shown (opt_display ph)
      && bool_decide (opt_dataset_type ph = None)
      && forallb (λ o, bool_decide (is_Some (opt_dataset_type o))) cats
  | [] => false
  end.

End Toggle.

(** ** [dashboard-actions.js], second revision: the category filter rebuilds
    the option list from the catalog retained at [init] *)
Module Rebuild.

(** An entry of [allCategoryOptions]. *)
Record CategoryOption := {
  cat_value : string;
  cat_label : string;
  cat_type : string
}.

(** The module-level variable [allCategoryOptions] next to the DOM. *)
Record State := {
  page : Page;
  allCategoryOptions : list CategoryOption
}.

Definition with_page (f : Page → Page) (s : State) : State :=
  {| page := f (page s); allCategoryOptions := allCategoryOptions s |}.

(** [querySelectorAll('option[data-type]').forEach(push ...)] *)
Fixpoint collect (opts : list OptionEl) (acc : list CategoryOption)
  : list CategoryOption :=
  match opts with
  | [] => acc
  | opt :: rest =>
      match opt_dataset_type opt with
      | Some t =>
          collect rest
            (acc ++ [{| cat_value := opt_value opt;
                        cat_label := opt_textContent opt;
                        cat_type := t |}])
      | None => collect rest acc
      end
  end.

(** The part of [init] that fills the catalog (the listeners it installs
    are the transitions below). *)
Definition init (s : State) : State :=
  match qopCategory (page s) with
  | Some opts =>
      {| page := page s;
         allCategoryOptions := collect opts (allCategoryOptions s) |}
  | None => s
  end.

(** [while (options.length > 1) removeChild(options[1])]; one node leaves
    per round, so [fuel = options.length] rounds are enough. *)
Fixpoint remove_extra (fuel : nat) (opts : list OptionEl) : list OptionEl :=
  match fuel with
  | 0 => opts
  | S fuel' =>
      if decide (1 < length opts)
      then remove_extra fuel' (Select.removeChild 1 opts)
      else opts
  end.

(** [allCategoryOptions.forEach(function (cat) { if (cat.type === type) ... })] *)
Fixpoint append_matching (type : string) (cats : list CategoryOption)
    (opts : list OptionEl) : list OptionEl :=
  match cats with
  | [] => opts
  | cat :: rest =>
      if (cat_type cat =? type)%string
      then append_matching type rest
             (Select.appendChild
                (Select.createOption (cat_value cat) (cat_label cat)) opts)
      else append_matching type rest opts
  end.

Definition filterCategories (type : string) (s : State) : State :=
  match qopCategory (page s) with
  | None => s
  | Some _ =>
      let isTransfer := (type =? "TRANSFER")%string in
      let s :=
        with_page (λ p,
          set_qopCategoryRow
            (assign_if_present (if isTransfer then "none" else "") (qopCategoryRow p)) p) s in
      if isTransfer then with_page (on_category (Select.set_value "")) s
      else
        let s := with_page (on_category (λ opts, remove_extra (length opts) opts)) s in
        let s := with_page (on_category (append_matching type (allCategoryOptions s))) s in
        with_page (on_category (Select.set_value "")) s
  end.

Definition openModal (type : string) (s : State) : State :=
  let s := with_page (before_filter type) s in
  let s := filterCategories type s in
  with_page (after_filter type) s.

Definition closeModal (s : State) : State :=
  with_page (set_backdrop_focus false FocusBtn) s.

(** The options the select offers: all the nodes it holds. *)
Definition presented (s : State) : option (list (string * string)) :=
  fmap (M := list) opt_entry <$> qopCategory (page s).

(** The option node a catalog entry is turned into. *)
Definition option_of (c : CategoryOption) : OptionEl :=
  Select.createOption (cat_value c) (cat_label c).

(** The catalog entries of one type. *)
Definition matching (type : string) (cats : list CategoryOption)
  : list CategoryOption :=
  List.filter (λ c, (cat_type c =? type)%string) cats.

(** What the user is offered for a catalog entry. *)
Definition cat_entry (c : CategoryOption) : string * string :=
  (cat_value c, cat_label c).

(** The option list [filterCategories] followed by the field reset of
    [openModal] leaves in the select, in closed form. *)
Definition rebuilt (type : string) (cats : list CategoryOption)
    (opts : list OptionEl) : list OptionEl :=
  if (type =? "TRANSFER")%string then Select.set_value "" opts
  else Select.set_value "" (take 1 opts ++ (option_of <$> matching type cats))%list.

(** The select starts with the placeholder. *)
Definition placeholder_first (s : State) : bool :=
  match qopCategory (page s) with
  | Some (ph :: _) => is_placeholder ph
  | _ => false
  end.

(** The select holds the placeholder, first, and no second empty-valued
    entry; no catalog entry has the empty value either. *)
Definition well_formed (s : State) : bool :=
  match qopCategory (page s) with
  | Some (ph :: rest) =>
      is_placeholder ph
      && forallb (λ o, negb (is_placeholder o)) rest
      && forallb (λ c, negb (cat_value c =? "")%string) (allCategoryOptions s)
  | _ => false
  end.

(** The host page supplies the category select and its row. *)
Definition category_fields_present (s : State) : bool :=
  match qopCategory (page s), qopCategoryRow (page s) with
  | Some _, Some _ => true
  | _, _ => false
  end.

(** How many entries of the select are placeholders. *)
Definition count_placeholders (s : State) : option nat :=
  (λ opts, length (List.filter is_placeholder opts)) <$> qopCategory (page s).

End Rebuild.

(** [ModalFieldVisibility], read off the page. *)
Record ModalFieldVisibility := {
  vis_fromWallet : bool;
  vis_toWallet : bool;
  vis_singleWallet : bool;
  vis_category : bool
}.

Definition field_visibility (p : Page) : ModalFieldVisibility :=
  {| vis_fromWallet := shown (fromRow_display p);
     vis_toWallet := shown (toRow_display p);
     vis_singleWallet := shown (walletRow_display p);
     vis_category := match qopCategoryRow p with
                     | Some d => shown d
                     | None => false
                     end |}.

(** The documented table: TRANSFER shows the from/to wallets and hides the
    single wallet and the category; INCOME and EXPENSE do the opposite. *)
Definition documented_visibility (t : OperationType) : ModalFieldVisibility :=
  match t with
  | TRANSFER =>
      {| vis_fromWallet := true; vis_toWallet := true;
         vis_singleWallet := false; vis_category := false |}
  | INCOME | EXPENSE =>
      {| vis_fromWallet := false; vis_toWallet := false;
         vis_singleWallet := true; vis_category := true |}
  end.

(** The category value the form would submit. *)
Definition category_value (p : Page) : option string :=
  Select.value <$> qopCategory p.

(** ** [static/js/push-register.js] *)
Module Push.

(** *** The page nodes [updateUI] renders into *)
Record Button := {
  btn_textContent : string;
  btn_className : string;
  btn_cssText : string;        (* btn.style.cssText *)
  btn_disabled : bool
}.

Record Document := {
  pushToggleBtn : option Button;     (* getElementById('pushToggleBtn') *)
  pushStatus : option string         (* textContent of #pushStatus *)
}.

Definition css : string := "font-size:13px;padding:7px 16px;min-height:unset;".

Definition updateUI (state : string) (d : Document) : Document :=
  match pushToggleBtn d with
  | None => d
  | Some btn =>
      if (state =? "subscribed")%string then
        {| pushToggleBtn :=
             Some {| btn_textContent := "Отключить уведомления";
                     btn_className := "danger";
                     btn_cssText := css;
                     btn_disabled := btn_disabled btn |};
           pushStatus := assign_if_present "Push-уведомления включены" (pushStatus d) |}
      else if (state =? "prompt")%string then
        {| pushToggleBtn :=
             Some {| btn_textContent := "Включить push-уведомления";
                     btn_className := "";
                     btn_cssText := css;
                     btn_disabled := btn_disabled btn |};
           pushStatus := assign_if_present "" (pushStatus d) |}
      else if (state =? "denied")%string then
        {| pushToggleBtn :=
             Some {| btn_textContent := "Уведомления заблокированы";
                     btn_className := "secondary";
                     btn_cssText := css;
                     btn_disabled := true |};
           pushStatus := assign_if_present "Разрешите в настройках браузера" (pushStatus d) |}
      else
        {| pushToggleBtn :=
             Some {| btn_textContent := "Включить push-уведомления";
                     btn_className := "";
                     btn_cssText := css;
                     btn_disabled := true |};
           pushStatus := assign_if_present "Push не поддерживается" (pushStatus d) |}
  end.

(** The button's [disabled] flag, when the button exists. *)
Definition disabled_flag (d : Document) : option bool :=
  btn_disabled <$> pushToggleBtn d.

(** *** The platform *)

(** How a promise handed out by the platform settles; [Pending] is the
    promise that never does. *)
Inductive Settled (A : Type) :=
| Fulfilled (a : A)
| Rejected (err : string)
| Pending.
Arguments Fulfilled {A} a.
Arguments Rejected {A} err.
Arguments Pending {A}.

(** [sub.toJSON()]: the record the scripts send to the backend. *)
Record PushSubscription := {
  endpoint : string;
  p256dh : string;
  auth : string
}.

Inductive ServiceWorkerRegistration := Registration.

(** The requests the script issues with [fetch]. *)
Record Request := {
  req_url : string;
  req_method : string;
  req_content_type : string;
  req_credentials : string;
  req_body : PushSubscription        (* JSON.stringify({endpoint, keys}) *)
}.

Record Response := { resp_ok : bool }.

(** What the browser answers to each call the script makes. *)
Record Platform := {
  has_serviceWorker : bool;                       (* 'serviceWorker' in navigator *)
  has_PushManager : bool;                         (* 'PushManager' in window *)
  getRegistrations : Settled nat;                 (* regs.length *)
  register : Settled unit;
  ready : Settled ServiceWorkerRegistration;
  getSubscription : Settled (option PushSubscription);
  VAPID_PUBLIC_KEY : option string;               (* window.__VAPID_PUBLIC_KEY__ *)
  pushManager_subscribe : list N → Settled PushSubscription;
  Notification_permission : string;               (* Notification.permission, where the global exists *)
  sub_unsubscribe : Settled bool;
  fetch : Request → Settled Response
}.

(** What the script does to the outside, in order of occurrence. *)
Inductive Event :=
| Alert (msg : string)
| ConsoleError (msg err : string)
| RegisterWorker (url : string)
| PushSubscribe (userVisibleOnly : bool) (applicationServerKey : list N)
| PushUnsubscribe
| Fetch (req : Request).

Record World := {
  document : Document;
  events : list Event
}.

(** *** Asynchronous functions: they return, throw, or never come back *)
Inductive Completion (A : Type) :=
| Return (a : A)
| Throw (err : string)
| Hang.
Arguments Return {A} a.
Arguments Throw {A} err.
Arguments Hang {A}.

Definition Async (A : Type) : Type := World → Completion A * World.

#[export] Instance async_ret : MRet Async := λ A a w, (Return a, w).

#[export] Instance async_bind : MBind Async := λ A B k m w,
  match m w with
  | (Return a, w') => k a w'
  | (Throw e, w') => (Throw e, w')
  | (Hang, w') => (Hang, w')
  end.

(** [await p] *)
Definition await {A} (p : Settled A) : Async A := λ w,
  match p with
  | Fulfilled a => (Return a, w)
  | Rejected e => (Throw e, w)
  | Pending => (Hang, w)
  end.

(** [try { m } catch (err) { handler err }] *)
Definition try_catch {A} (m : Async A) (handler : string → Async A) : Async A :=
  λ w,
    match m w with
    | (Throw e, w') => handler e w'
    | r => r
    end.

Definition emit (e : Event) : Async unit := λ w,
  (Return tt, {| document := document w; events := events w ++ [e] |}).

Definition render (state : string) : Async unit := λ w,
  (Return tt, {| document := updateUI state (document w); events := events w |}).

(** One call of an asynchronous function on a page. *)
Definition run {A} (m : Async A) (d : Document) : Completion A * World :=
  m {| document := d; events := [] |}.

(** *** The script *)

(** The key is base64 text, so its length in bytes is the [key.length] the
    script computes the padding from. *)
Fixpoint repeat_string (s : string) (n : nat) : string :=
  match n with
  | 0 => ""
  | S n' => s +:+ repeat_string s n'
  end.

(** [s.replace(/a/g, b)] for single characters. *)
Fixpoint replace_all (a b : ascii) (s : string) : string :=
  match s with
  | EmptyString => EmptyString
  | String c rest =>
      String (if Ascii.eqb c a then b else c) (replace_all a b rest)
  end.

(** [raw.charCodeAt(i)] for [i] from 0 to [raw.length - 1]. *)
Fixpoint char_codes (raw : string) : list N :=
  match raw with
  | EmptyString => []
  | String c rest => N_of_ascii c :: char_codes rest
  end.

(** [atob]: the forgiving base64 decoder of the HTML standard. *)
Definition sextet (c : ascii) : option N :=
  let n := N_of_ascii c in
  if ((65 <=? n) && (n <=? 90))%N then Some (n - 65)%N
  else if ((97 <=? n) && (n <=? 122))%N then Some (n - 71)%N
  else if ((48 <=? n) && (n <=? 57))%N then Some (n + 4)%N
  else if (n =? 43)%N then Some 62%N
  else if (n =? 47)%N then Some 63%N
  else None.

Definition is_ascii_whitespace (c : ascii) : bool :=
  let n := N_of_ascii c in
  ((n =? 9) || (n =? 10) || (n =? 12) || (n =? 13) || (n =? 32))%N.

Fixpoint strip_whitespace (s : string) : list ascii :=
  match s with
  | EmptyString => []
  | String c rest =>
      if is_ascii_whitespace c then strip_whitespace rest
      else c :: strip_whitespace rest
  end.

(** When the length is a multiple of four, one or two trailing ["="] go. *)
Definition strip_padding (l : list ascii) : list ascii :=
  if (length l mod 4 =? 0)%nat then
    match reverse l with
    | "="%char :: "="%char :: r => reverse r
    | "="%char :: r => reverse r
    | _ => l
    end
  else l.

Fixpoint sextets (l : list ascii) : option (list N) :=
  match l with
  | [] => Some []
  | c :: rest =>
      match sextet c, sextets rest with
      | Some n, Some ns => Some (n :: ns)
      | _, _ => None
      end
  end.

(** Four sextets give three bytes; a tail of three gives two, a tail of two
    gives one, the spare bits are dropped. [fuel] bounds the groups. *)
Fixpoint decode_groups (fuel : nat) (ns : list N) : list ascii :=
  match fuel with
  | 0 => []
  | S fuel' =>
      match ns with
      | a :: b :: c :: d :: rest =>
          let n := (a * 262144 + b * 4096 + c * 64 + d)%N in
          ascii_of_N (n / 65536) :: ascii_of_N (n / 256 mod 256)
            :: ascii_of_N (n mod 256) :: decode_groups fuel' rest
      | [a; b; c] =>
          let n := (a * 4096 + b * 64 + c)%N in
          [ascii_of_N (n / 1024); ascii_of_N (n / 4 mod 256)]
      | [a; b] => [ascii_of_N ((a * 64 + b) / 16)]
      | _ => []
      end
  end.

(** [None] is the [InvalidCharacterError] the call throws. *)
Definition atob (data : string) : option string :=
  let l := strip_padding (strip_whitespace data) in
  if (length l mod 4 =? 1)%nat then None
  else
    match sextets l with
    | Some ns => Some (string_of_list_ascii (decode_groups (S (length ns)) ns))
    | None => None
    end.

Definition getApplicationServerKey (env : Platform) : Async (option (list N)) :=
  match VAPID_PUBLIC_KEY env with
  | None => mret None
  | Some key =>
      if (key =? "")%string then mret None
      else
        let padding := repeat_string "=" ((4 - String.length key mod 4) mod 4) in
        let base64 := replace_all "_" "/" (replace_all "-" "+" (key +:+ padding)) in
        match atob base64 with
        | None => λ w, (Throw "InvalidCharacterError", w)
        | Some raw => mret (Some (char_codes raw))
        end
  end.

Definition getRegistration (env : Platform)
  : Async (option ServiceWorkerRegistration) :=
  if negb (has_serviceWorker env) || negb (has_PushManager env) then mret None
  else
    regs ← await (getRegistrations env);
    (if Nat.eqb regs 0
     then emit (RegisterWorker "/service-worker.js");; await (register env)
     else mret tt);;
    reg ← await (ready env);
    mret (Some reg).

Definition getCurrentSubscription (env : Platform)
  : Async (option PushSubscription) :=
  reg ← getRegistration env;
  match reg with
  | None => mret None
  | Some _ => await (getSubscription env)
  end.

Definition subscribe_request (json : PushSubscription) : Request :=
  {| req_url := "/api/push/subscribe"; req_method := "POST";
     req_content_type := "application/json"; req_credentials := "same-origin";
     req_body := json |}.

Definition unsubscribe_request (json : PushSubscription) : Request :=
  {| req_url := "/api/push/unsubscribe"; req_method := "DELETE";
     req_content_type := "application/json"; req_credentials := "same-origin";
     req_body := json |}.

Definition subscribe (env : Platform) : Async unit :=
  reg ← getRegistration env;
  match reg with
  | None => emit (Alert "Push не поддерживается")
  | Some _ =>
      appKey ← getApplicationServerKey env;
      match appKey with
      | None => emit (Alert "VAPID ключ не настроен")
      | Some appKey =>
          try_catch
            (emit (PushSubscribe true appKey);;
             sub ← await (pushManager_subscribe env appKey);
             emit (Fetch (subscribe_request sub));;
             resp ← await (fetch env (subscribe_request sub));
             if resp_ok resp then render "subscribed" else mret tt)
            (λ err,
               if (Notification_permission env =? "denied")%string
               then render "denied"
               else
                 emit (ConsoleError "Push subscribe error:" err);;
                 emit (Alert "Не удалось подключить уведомления"))
      end
  end.

Definition unsubscribe (env : Platform) : Async unit :=
  sub ← getCurrentSubscription env;
  match sub with
  | None => render "prompt"
  | Some json =>
      emit PushUnsubscribe;;
      await (sub_unsubscribe env);;
      (* fetch(...).catch(function() {}) *)
      try_catch
        (emit (Fetch (unsubscribe_request json));;
         await (fetch env (unsubscribe_request json));;
         mret tt)
        (λ _, mret tt);;
      render "prompt"
  end.

Definition toggle (env : Platform) : Async unit :=
  sub ← getCurrentSubscription env;
  match sub with
  | Some _ => unsubscribe env
  | None => subscribe env
  end.

(** The key global is unset: absent, or the empty string. *)
Definition key_unset (env : Platform) : bool :=
  match VAPID_PUBLIC_KEY env with
  | None => true
  | Some key => (key =? "")%string
  end.

Definition is_PushSubscribe (e : Event) : bool :=
  match e with PushSubscribe _ _ => true | _ => false end.

Definition is_Alert (e : Event) : bool :=
  match e with Alert _ => true | _ => false end.

Definition is_ConsoleError (e : Event) : bool :=
  match e with ConsoleError _ _ => true | _ => false end.

Definition is_PushUnsubscribe (e : Event) : bool :=
  match e with PushUnsubscribe => true | _ => false end.

Definition is_Fetch (e : Event) : bool :=
  match e with Fetch _ => true | _ => false end.

(** A sequence of renders, in order. *)
Definition renders (states : list string) (d : Document) : Document :=
  foldl (λ d state, updateUI state d) d states.

(** The two states whose branch of [updateUI] does not assign
    [btn.disabled]. *)
Definition keeps_flag (state : string) : bool :=
  (state =? "subscribed")%string || (state =? "prompt")%string.

Definition fulfils {A} (p : Settled A) : bool :=
  match p with Fulfilled _ => true | _ => false end.

Definition settles {A} (p : Settled A) : bool :=
  match p with Pending => false | _ => true end.

(** The error the [try] block of [subscribe] raises, if it raises: the
    rejection of [pushManager.subscribe], or else that of the POST. *)
Definition attempt_error (env : Platform) (key : list N) : option string :=
  match pushManager_subscribe env key with
  | Fulfilled sub =>
      match fetch env (subscribe_request sub) with
      | Rejected e => Some e
      | _ => None
      end
  | Rejected e => Some e
  | Pending => None
  end.

(** The backend's answer to the POST, when the [try] block gets one. *)
Definition attempt_response (env : Platform) (key : list N) : option Response :=
  match pushManager_subscribe env key with
  | Fulfilled sub =>
      match fetch env (subscribe_request sub) with
      | Fulfilled resp => Some resp
      | _ => None
      end
  | _ => None
  end.

(** A page with the toggle button enabled and an empty status line. *)
Definition sample_document : Document :=
  {| pushToggleBtn :=
       Some {| btn_textContent := "Включить push-уведомления"; btn_className := "";
               btn_cssText := css; btn_disabled := false |};
     pushStatus := Some "" |}.

Definition sample_subscription : PushSubscription :=
  {| endpoint := "https://push.example/send/abc123";
     p256dh := "BNcRdreALRFXTkOOUHK1EtK2wtaz5Ry4YfYCA_0QTpQtUbVlUls0VJXg7A8u-Ts1XbjhazAkj7I99e8QcYP7DkM";
     auth := "tBHItJI5svbpez7KI4CCXg" |}.

(** A browser with push support and a registered worker; the arguments
    are what varies between the scenarios below: the worker registrations
    found and how registering settles, the live subscription, the injected
    key, how [pushManager.subscribe] and [sub.unsubscribe] settle, the
    permission, and how the backend request settles. *)
Definition sample_platform (regs : nat) (registered : Settled unit)
    (current : option PushSubscription) (key : option string)
    (granted : Settled PushSubscription) (permission : string)
    (revoked : Settled bool) (answer : Settled Response) : Platform :=
  {| has_serviceWorker := true; has_PushManager := true;
     getRegistrations := Fulfilled regs; register := registered;
     ready := Fulfilled Registration;
     getSubscription := Fulfilled current;
     VAPID_PUBLIC_KEY := key;
     pushManager_subscribe := λ _, granted;
     Notification_permission := permission;
     sub_unsubscribe := revoked;
     fetch := λ _, answer |}.

Definition sample_key : string := "BPq-_w8A".

End Push.

(** ** [static/js/service-worker.js] *)
Module ServiceWorker.

(** *** JSON values and [JSON.parse]

    Strings are byte strings (UTF-8, a lone surrogate written as an escape
    taking the three bytes of its code unit). A number is kept as the
    literal that was read; of its conversion to a double only whether the
    result is zero is modelled. *)
Record NumberLiteral := {
  num_minus : bool;
  num_int : list ascii;
  num_frac : list ascii;
  num_exp : option (bool * list ascii)     (* exponent: minus sign, digits *)
}.

#[warnings="-register-all"]
Inductive JsValue :=
| JUndefined
| JNull
| JBool (b : bool)
| JNumber (n : NumberLiteral)
| JString (s : string)
| JArray (items : list JsValue)
| JObject (fields : list (string * JsValue)).

Definition code (c : ascii) : N := N_of_ascii c.

Definition is_ws (c : ascii) : bool :=
  ((code c =? 32) || (code c =? 9) || (code c =? 10) || (code c =? 13))%N.

Fixpoint skip_ws (s : list ascii) : list ascii :=
  match s with
  | c :: rest => if is_ws c then skip_ws rest else s
  | [] => []
  end.

Definition is_digit (c : ascii) : bool := ((48 <=? code c) && (code c <=? 57))%N.

Fixpoint take_digits (s : list ascii) : list ascii * list ascii :=
  match s with
  | c :: rest =>
      if is_digit c then let '(ds, r) := take_digits rest in (c :: ds, r)
      else ([], s)
  | [] => ([], [])
  end.

(** [int = zero / ( digit1-9 *DIGIT )] *)
Definition parse_int (s : list ascii) : option (list ascii * list ascii) :=
  match s with
  | c :: rest =>
      if (code c =? 48)%N then Some ([c], rest)
      else if is_digit c then Some (take_digits s)
      else None
  | [] => None
  end.

(** [frac = decimal-point 1*DIGIT] *)
Definition parse_frac (s : list ascii) : option (list ascii * list ascii) :=
  match s with
  | c :: rest =>
      if (code c =? 46)%N then
        match take_digits rest with
        | ([], _) => None
        | (ds, r) => Some (ds, r)
        end
      else Some ([], s)
  | [] => Some ([], [])
  end.

(** [exp = e [ minus / plus ] 1*DIGIT] *)
Definition parse_exp (s : list ascii)
  : option (option (bool * list ascii) * list ascii) :=
  match s with
  | c :: rest =>
      if ((code c =? 101) || (code c =? 69))%N then
        let '(minus, rest) :=
          match rest with
          | sign :: r =>
              if (code sign =? 45)%N then (true, r)
              else if (code sign =? 43)%N then (false, r)
              else (false, rest)
          | [] => (false, rest)
          end in
        match take_digits rest with
        | ([], _) => None
        | (ds, r) => Some (Some (minus, ds), r)
        end
      else Some (None, s)
  | [] => Some (None, [])
  end.

(** [number = [ minus ] int [ frac ] [ exp ]] *)
Definition parse_number (s : list ascii) : option (JsValue * list ascii) :=
  let '(minus, s) :=
    match s with
    | c :: rest => if (code c =? 45)%N then (true, rest) else (false, s)
    | [] => (false, s)
    end in
  match parse_int s with
  | Some (int, s) =>
      match parse_frac s with
      | Some (frac, s) =>
          match parse_exp s with
          | Some (exp, s) =>
              Some (JNumber {| num_minus := minus; num_int := int;
                               num_frac := frac; num_exp := exp |}, s)
          | None => None
          end
      | None => None
      end
  | None => None
  end.

Definition hex_digit (c : ascii) : option N :=
  let n := code c in
  if ((48 <=? n) && (n <=? 57))%N then Some (n - 48)%N
  else if ((65 <=? n) && (n <=? 70))%N then Some (n - 55)%N
  else if ((97 <=? n) && (n <=? 102))%N then Some (n - 87)%N
  else None.

(** The UTF-8 bytes of a code point. *)
Definition utf8 (cp : N) : list ascii :=
  if (cp <? 128)%N then [ascii_of_N cp]
  else if (cp <? 2048)%N then
    [ascii_of_N (192 + cp / 64); ascii_of_N (128 + cp mod 64)]
  else if (cp <? 65536)%N then
    [ascii_of_N (224 + cp / 4096); ascii_of_N (128 + cp / 64 mod 64);
     ascii_of_N (128 + cp mod 64)]
  else
    [ascii_of_N (240 + cp / 262144); ascii_of_N (128 + cp / 4096 mod 64);
     ascii_of_N (128 + cp / 64 mod 64); ascii_of_N (128 + cp mod 64)].

Definition is_high_surrogate (cu : N) : bool := ((55296 <=? cu) && (cu <=? 56319))%N.
Definition is_low_surrogate (cu : N) : bool := ((56320 <=? cu) && (cu <=? 57343))%N.

(** The code unit written by four hex digits. *)
Definition hex4 (h1 h2 h3 h4 : ascii) : option N :=
  match hex_digit h1, hex_digit h2, hex_digit h3, hex_digit h4 with
  | Some a, Some b, Some c, Some d => Some (a * 4096 + b * 256 + c * 16 + d)%N
  | _, _, _, _ => None
  end.

(** The low surrogate written as an escape at the head of [s], if any. *)
Definition low_surrogate_escape (s : list ascii) : option N :=
  match s with
  | bs :: u :: g1 :: g2 :: g3 :: g4 :: _ =>
      if ((code bs =? 92) && (code u =? 117))%N then
        match hex4 g1 g2 g3 g4 with
        | Some lo => if is_low_surrogate lo then Some lo else None
        | None => None
        end
      else None
  | _ => None
  end.

(** The characters of a string after its opening quote, up to the closing
    one; [acc] holds the bytes read so far, last first. *)
Fixpoint parse_chars (s : list ascii) (acc : list ascii)
  : option (string * list ascii) :=
  match s with
  | [] => None
  | c :: rest =>
      if (code c =? 34)%N then Some (string_of_list_ascii (rev acc), rest)
      else if (code c =? 92)%N then
        match rest with
        | e :: rest' =>
            if (code e =? 34)%N then parse_chars rest' (e :: acc)
            else if (code e =? 92)%N then parse_chars rest' (e :: acc)
            else if (code e =? 47)%N then parse_chars rest' (e :: acc)
            else if (code e =? 98)%N then parse_chars rest' (ascii_of_N 8 :: acc)
            else if (code e =? 102)%N then parse_chars rest' (ascii_of_N 12 :: acc)
            else if (code e =? 110)%N then parse_chars rest' (ascii_of_N 10 :: acc)
            else if (code e =? 114)%N then parse_chars rest' (ascii_of_N 13 :: acc)
            else if (code e =? 116)%N then parse_chars rest' (ascii_of_N 9 :: acc)
            else if (code e =? 117)%N then
              match rest' with
              | h1 :: h2 :: h3 :: h4 :: rest'' =>
                  match hex4 h1 h2 h3 h4 with
                  | Some cu =>
                      match
                        (if is_high_surrogate cu then low_surrogate_escape rest''
                         else None), rest''
                      with
                      | Some lo, _ :: _ :: _ :: _ :: _ :: _ :: rest3 =>
                          (* a surrogate pair is one character *)
                          parse_chars rest3
                            (rev (utf8 (65536 + (cu - 55296) * 1024 + (lo - 56320))%N)
                               ++ acc)%list
                      | _, _ => parse_chars rest'' (rev (utf8 cu) ++ acc)%list
                      end
                  | None => None
                  end
              | _ => None
              end
            else None
        | [] => None
        end
      else if (code c <? 32)%N then None
      else parse_chars rest (c :: acc)
  end.

(** [s] without the prefix [p], when it starts with it. *)
Fixpoint strip_prefix (p s : list ascii) : option (list ascii) :=
  match p, s with
  | [], _ => Some s
  | a :: p', b :: s' => if Ascii.eqb a b then strip_prefix p' s' else None
  | _ :: _, [] => None
  end.

(** [value], after leading whitespace. [fuel] bounds the nesting, the inner
    counters bound the members of one object and the elements of one array. *)
Fixpoint parse_value (fuel : nat) (s : list ascii) : option (JsValue * list ascii) :=
  match fuel with
  | 0 => None
  | S fuel' =>
      match skip_ws s with
      | [] => None
      | c :: rest =>
          if (code c =? 123)%N then
            match skip_ws rest with
            | c' :: rest' =>
                if (code c' =? 125)%N then Some (JObject [], rest')
                else
                  (fix members (n : nat) (s : list ascii)
                       (acc : list (string * JsValue)) {struct n}
                     : option (JsValue * list ascii) :=
                     match n with
                     | 0 => None
                     | S n' =>
                         match skip_ws s with
                         | q :: s1 =>
                             if (code q =? 34)%N then
                               match parse_chars s1 [] with
                               | Some (k, s2) =>
                                   match skip_ws s2 with
                                   | colon :: s3 =>
                                       if (code colon =? 58)%N then
                                         match parse_value fuel' s3 with
                                         | Some (v, s4) =>
                                             match skip_ws s4 with
                                             | sep :: s5 =>
                                                 if (code sep =? 44)%N
                                                 then members n' s5 (acc ++ [(k, v)])%list
                                                 else if (code sep =? 125)%N
                                                 then Some (JObject (acc ++ [(k, v)])%list, s5)
                                                 else None
                                             | [] => None
                                             end
                                         | None => None
                                         end
                                       else None
                                   | [] => None
                                   end
                               | None => None
                               end
                             else None
                         | [] => None
                         end
                     end) (S (length rest)) rest []
            | [] => None
            end
          else if (code c =? 91)%N then
            match skip_ws rest with
            | c' :: rest' =>
                if (code c' =? 93)%N then Some (JArray [], rest')
                else
                  (fix elements (n : nat) (s : list ascii) (acc : list JsValue)
                       {struct n} : option (JsValue * list ascii) :=
                     match n with
                     | 0 => None
                     | S n' =>
                         match parse_value fuel' s with
                         | Some (v, s1) =>
                             match skip_ws s1 with
                             | sep :: s2 =>
                                 if (code sep =? 44)%N then elements n' s2 (acc ++ [v])%list
                                 else if (code sep =? 93)%N
                                 then Some (JArray (acc ++ [v])%list, s2)
                                 else None
                             | [] => None
                             end
                         | None => None
                         end
                     end) (S (length rest)) rest []
            | [] => None
            end
          else if (code c =? 34)%N then
            match parse_chars rest [] with
            | Some (str, rest') => Some (JString str, rest')
            | None => None
            end
          else if (code c =? 116)%N then
            (λ r, (JBool true, r)) <$> strip_prefix (list_ascii_of_string "rue") rest
          else if (code c =? 102)%N then
            (λ r, (JBool false, r)) <$> strip_prefix (list_ascii_of_string "alse") rest
          else if (code c =? 110)%N then
            (λ r, (JNull, r)) <$> strip_prefix (list_ascii_of_string "ull") rest
          else if (code c =? 45)%N || is_digit c then parse_number (c :: rest)
          else None
      end
  end.

(** [JSON.parse(text)]; [None] is the [SyntaxError] it throws. *)
Definition JSON_parse (text : string) : option JsValue :=
  match parse_value (S (String.length text)) (list_ascii_of_string text) with
  | Some (v, rest) =>
      match skip_ws rest with
      | [] => Some v
      | _ :: _ => None
      end
  | None => None
  end.

(** *** The part of the language the handlers use on such values *)

(** The number written by a sequence of decimal digits. *)
Definition digits_value (ds : list ascii) : Z :=
  fold_left (λ acc c, 10 * acc + (Z.of_N (code c) - 48))%Z ds 0%Z.

(** The literal is [mantissa * 10 ^ exponent10]. *)
Definition mantissa (n : NumberLiteral) : Z :=
  digits_value (num_int n ++ num_frac n)%list.

Definition exponent10 (n : NumberLiteral) : Z :=
  (match num_exp n with
   | Some (minus, ds) => if minus then - digits_value ds else digits_value ds
   | None => 0
   end - Z.of_nat (length (num_frac n)))%Z.

(** Whether the double the literal converts to is [+0] or [-0]: the
    conversion rounds to nearest, ties to even, and the smallest double
    above zero is [2 ^ -1074], so the result is zero exactly when the value
    written is at most [2 ^ -1075]. *)
Definition number_is_zero (n : NumberLiteral) : bool :=
  if (mantissa n =? 0)%Z then true
  else if (0 <=? exponent10 n)%Z then false
  else (mantissa n * 2 ^ 1075 <=? 10 ^ (- exponent10 n))%Z.

(** [ToBoolean]. *)
Definition truthy (v : JsValue) : bool :=
  match v with
  | JUndefined | JNull => false
  | JBool b => b
  | JNumber n => negb (number_is_zero n)
  | JString s => negb (s =? "")%string
  | JArray _ | JObject _ => true
  end.

(** [a || b] *)
Definition js_or (a b : JsValue) : JsValue := if truthy a then a else b.

(** The last field of that name, as [JSON.parse] keeps it. *)
Fixpoint lookup_field (k : string) (fields : list (string * JsValue))
  : option JsValue :=
  match fields with
  | [] => None
  | (k', v) :: rest =>
      match lookup_field k rest with
      | Some v' => Some v'
      | None => if (k' =? k)%string then Some v else None
      end
  end.

(** [v.k] for the names [title], [body], [url]: [None] is the [TypeError]
    on [null] and [undefined]; values that are not objects have no such
    property. *)
Definition get_prop (v : JsValue) (k : string) : option JsValue :=
  match v with
  | JUndefined | JNull => None
  | JObject fields => Some (default JUndefined (lookup_field k fields))
  | _ => Some JUndefined
  end.

(** *** Notifications and window clients *)
Record NotificationOptions := {
  body : JsValue;
  icon : string;
  badge : string;
  data_url : JsValue        (* data: { url: ... } *)
}.

Inductive ClientType := WindowClient | WorkerClient | SharedWorkerClient.

Record Client := {
  client_id : nat;
  client_type : ClientType;
  client_url : string
}.

(** What a handler asks of the platform, in order. *)
Inductive Action :=
| ShowNotification (title : JsValue) (options : NotificationOptions)
| CloseNotification
| Focus (client : Client)
| OpenWindow (url : string).

Inductive Outcome :=
| Done (actions : list Action)
| TypeError.

(** *** The handlers *)

(** The [push] listener; [event_data] is [event.data] read as text, [None]
    when the event carries no data. *)
Definition on_push (event_data : option string) : Outcome :=
  match event_data with
  | None => Done []
  | Some payload =>
      let data :=
        match JSON_parse payload with
        | Some v => v
        | None =>
            JObject [("title", JString "FinLife"); ("body", JString payload);
                     ("url", JString "/")]
        end in
      match get_prop data "title", get_prop data "body", get_prop data "url" with
      | Some title, Some body', Some url =>
          Done [ShowNotification (js_or title (JString "FinLife"))
                  {| body := js_or body' (JString "");
                     icon := "/static/icons/icon-192.svg";
                     badge := "/static/icons/icon-192.svg";
                     data_url := js_or url (JString "/") |}]
      | _, _, _ => TypeError
      end
  end.

(** [s.indexOf(p)] *)
Definition indexOf (s p : string) : Z :=
  match String.index 0 p s with
  | Some n => Z.of_nat n
  | None => (-1)%Z
  end.

(** [clients.matchAll({ type: 'window', includeUncontrolled: true })] *)
Definition matchAll_window (all : list Client) : list Client :=
  List.filter (λ c, match client_type c with WindowClient => true | _ => false end) all.

(** ['focus' in client]: window clients have the method. *)
Definition has_focus (c : Client) : bool :=
  match client_type c with WindowClient => true | _ => false end.

(** [client.url.indexOf(url) !== -1] *)
Definition url_matches (url : string) (c : Client) : bool :=
  negb (indexOf (client_url c) url =? -1)%Z.

(** The [for] loop over [windowClients], up to its [return]. *)
Fixpoint first_to_focus (url : string) (windowClients : list Client)
  : option Client :=
  match windowClients with
  | [] => None
  | client :: rest =>
      if url_matches url client && has_focus client then Some client
      else first_to_focus url rest
  end.

(** [event.notification.data]: absent, or an object whose [url] is absent
    or a string. *)
Record NotificationData := { nd_url : option string }.

(** [data && data.url ? data.url : '/'] *)
Definition target_url (data : option NotificationData) : string :=
  match data with
  | Some d =>
      match nd_url d with
      | Some u => if (u =? "")%string then "/" else u
      | None => "/"
      end
  | None => "/"
  end.

(** The [notificationclick] listener. *)
Definition on_notificationclick (data : option NotificationData)
    (all : list Client) : list Action :=
  let url := target_url data in
  CloseNotification
    :: match first_to_focus url (matchAll_window all) with
       | Some client => [Focus client]
       | None => [OpenWindow url]
       end.

Definition sample_clients : list Client :=
  [ {| client_id := 1; client_type := WorkerClient;
       client_url := "https://finlife.example/service-worker.js" |};
    {| client_id := 2; client_type := WindowClient;
       client_url := "https://finlife.example/budget" |};
    {| client_id := 3; client_type := WindowClient;
       client_url := "https://finlife.example/tasks?today" |};
    {| client_id := 4; client_type := WindowClient;
       client_url := "https://finlife.example/tasks" |} ].

End ServiceWorker.

(** The two revisions looking at the same modal: a page [p1] driven by the
    toggling revision and a state [s2] driven by the rebuilding revision agree
    on every node but the option list; [p1] still has the host page's option
    nodes, from which [s2] took its catalog; [s2] kept the placeholder; and
    both offer the same entries. *)
Definition corresponds (p1 : Page) (s2 : Rebuild.State) : Prop :=
  set_qopCategory None p1 = set_qopCategory None (Rebuild.page s2)
  ∧ (∃ opts1, qopCategory p1 = Some opts1
              ∧ Toggle.host_select opts1 = true
              ∧ Rebuild.allCategoryOptions s2 = Rebuild.collect opts1 [])
  ∧ Rebuild.placeholder_first s2 = true
  ∧ Toggle.presented p1 = Rebuild.presented s2.

(** A host page as the dashboard template renders it: the placeholder and
    three categories, nothing opened yet. *)
Definition sample_options : list OptionEl :=
  [ OptionNode "" "Без категории" None "" true;
    OptionNode "1" "Salary" (Some "INCOME") "" false;
    OptionNode "2" "Food" (Some "EXPENSE") "" false;
    OptionNode "3" "Rent" (Some "EXPENSE") "" false ].

Definition sample_page : Page :=
  {| menu_hidden := false; btn_aria_expanded := "true";
     qopType_value := ""; qopTitle_textContent := "";
     walletRow_display := ""; fromRow_display := "none"; toRow_display := "none";
     qopWallet_disabled := false; qopFrom_disabled := true; qopTo_disabled := true;
     qopCategoryRow := Some ""; qopCategory := Some sample_options;
     qopAmount_value := "12.50"; qopDesc_value := "lunch";
     qopOccurredAt := Some "2026-02-13"; backdrop_qop_open := false;
     activeElement := FocusElsewhere;
     hooks := {| has_updateQopFromHint := true; has_updateQopToHint := false;
                 has_updateQopWalletHint := true |};
     hint_calls := [] |}.

Definition sample_state : Rebuild.State :=
  Rebuild.init {| Rebuild.page := sample_page; Rebuild.allCategoryOptions := [] |}.

(** ** The listeners [init] installs (second revision of
    [dashboard-actions.js]) *)
Module Listeners.

(** One call of a listener, with what it reads from the event. *)
Inductive Listener :=
| BtnClick                                (* click on .quick-op-btn *)
| MenuItemClick (data_type : string)      (* click on a[data-type] of the menu *)
| DocumentClick (inside_wrapper : bool)   (* wrapper.contains(e.target) *)
| CloseClick                              (* click on #qopClose *)
| CancelClick                             (* click on #qopCancelBtn *)
| BackdropClick (inside_dialog : bool)    (* dialog.contains(e.target) *)
| DocumentKeydown (key : string).         (* e.key *)

(** [String(b)] *)
Definition string_of_bool (b : bool) : string := if b then "true" else "false".

(** [menu.hidden = true; btn.setAttribute('aria-expanded', 'false')] *)
Definition hide_menu (p : Page) : Page :=
  set_btn_aria_expanded "false" (set_menu_hidden true p).

Definition handle (l : Listener) (s : Rebuild.State) : Rebuild.State :=
  match l with
  | BtnClick =>
      Rebuild.with_page
        (λ p, let isOpen := negb (menu_hidden p) in
              set_btn_aria_expanded (string_of_bool (negb isOpen))
                (set_menu_hidden isOpen p)) s
  | MenuItemClick data_type => Rebuild.openModal data_type s
  | DocumentClick inside_wrapper =>
      if negb inside_wrapper then Rebuild.with_page hide_menu s else s
  | CloseClick | CancelClick => Rebuild.closeModal s
  | BackdropClick inside_dialog =>
      if negb inside_dialog then Rebuild.closeModal s else s
  | DocumentKeydown key =>
      if (key =? "Escape")%string then
        if negb (backdrop_qop_open (Rebuild.page s))
        then Rebuild.with_page hide_menu s
        else Rebuild.closeModal s
      else s
  end.

(** The listeners called one after the other. *)
Definition handle_all (ls : list Listener) (s : Rebuild.State) : Rebuild.State :=
  foldl (λ s l, handle l s) s ls.

(** [aria-expanded] says what [menu.hidden] says. *)
Definition aria_consistent (p : Page) : bool :=
  (btn_aria_expanded p =? string_of_bool (negb (menu_hidden p)))%string.

(** The hint hooks [openModal] calls for a type, given the ones defined. *)
Definition hints_for (type : string) (h : Hooks) : list HintCall :=
  if (type =? "TRANSFER")%string then
    ((if has_updateQopFromHint h then [UpdateQopFromHint] else [])
      ++ (if has_updateQopToHint h then [UpdateQopToHint] else []))%list
  else if has_updateQopWalletHint h then [UpdateQopWalletHint] else [].

End Listeners.

(** ** [push-register.js]: start-up, and what the functions do to the
    outside *)
Module PushStart.
Import Push.

(** [init]. [Notification] is a global of its own: [has_Notification] says
    whether it exists, and where it does not, reading
    [Notification.permission] before the [try] raises a [ReferenceError].
    The lookup races a five-second timer; [lookup_in_time] says whether the
    lookup settles first. A lookup that never settles loses the race, and a
    late result is dropped: both end in the [catch] block, as a rejected
    lookup does. *)
Definition init (env : Platform) (has_Notification lookup_in_time : bool)
  : Async unit :=
  if negb (has_serviceWorker env) || negb (has_PushManager env)
  then render "unsupported"
  else if negb has_Notification
  then λ w, (Throw "ReferenceError", w)
  else if (Notification_permission env =? "denied")%string
  then render "denied"
  else λ w,
    match getCurrentSubscription env w with
    | (Return sub, w') =>
        if lookup_in_time
        then render (match sub with Some _ => "subscribed" | None => "prompt" end) w'
        else render "prompt" w'
    | (Throw _, w') => render "prompt" w'
    | (Hang, w') => render "prompt" w'
    end.

(** The events a call adds all satisfy [P]. *)
Definition emits_only {A} (P : Event → bool) (m : Async A) : Prop :=
  ∀ w, ∃ evs, events (snd (m w)) = (events w ++ evs)%list ∧ forallb P evs = true.

(** A call leaves the page as it is. *)
Definition keeps_page {A} (m : Async A) : Prop :=
  ∀ w, document (snd (m w)) = document w.

(** The events of a call that come after those of the world it starts in. *)
Definition added (m : Async unit) (w : World) : list Event :=
  drop (length (events w)) (events (snd (m w))).

Definition is_RegisterWorker (e : Event) : bool :=
  match e with RegisterWorker _ => true | _ => false end.

(** What [subscribe] may do to the outside: register the worker, call
    [pushManager.subscribe], POST to the subscribe endpoint, log, alert. *)
Definition subscribe_event (e : Event) : bool :=
  match e with
  | PushUnsubscribe => false
  | Fetch req =>
      (req_url req =? "/api/push/subscribe")%string
      && (req_method req =? "POST")%string
      && (req_credentials req =? "same-origin")%string
  | _ => true
  end.

(** What [unsubscribe] may do to the outside: register the worker, revoke
    the subscription, send the DELETE to the unsubscribe endpoint. *)
Definition unsubscribe_event (e : Event) : bool :=
  match e with
  | RegisterWorker _ | PushUnsubscribe => true
  | Fetch req =>
      (req_url req =? "/api/push/unsubscribe")%string
      && (req_method req =? "DELETE")%string
      && (req_credentials req =? "same-origin")%string
  | Alert _ | ConsoleError _ _ | PushSubscribe _ _ => false
  end.

(** The characters of URL-safe base64. *)
Definition is_base64url (c : ascii) : bool :=
  let n := N_of_ascii c in
  (((65 <=? n) && (n <=? 90)) || ((97 <=? n) && (n <=? 122))
   || ((48 <=? n) && (n <=? 57)) || (n =? 45) || (n =? 95))%N.

(** The four states [updateUI] is called with. *)
Definition ui_states : list string :=
  ["unsupported"; "denied"; "prompt"; "subscribed"].

End PushStart.

(** ** The operations scripts: [backup_prod_db.sh], [deploy_prod.sh],
    [promote_prod.sh] and [restore_prod_db.sh]

    All four run under [set -euo pipefail]: a command that fails outside a
    condition and without [|| true] ends the script with its status. [echo]
    is taken to succeed and is not recorded. *)
Module Shell.

(** The commands the scripts run; a pipeline or a redirection is one
    command. *)
Inductive Cmd :=
| Cd (dir : string)
| Date (format : string)
| MkdirP (dir : string)
| Ls (file : string)
| GitRevParse
| GitStatus
| GitFetch (flags : string)
| GitPull                       (* git pull --ff-only *)
| GitCheckout (ref : string)    (* git checkout -f ref *)
| BackupScript                  (* /opt/centricore/backup_prod_db.sh *)
| ComposeUp                     (* docker compose ... up -d --build *)
| ComposeLogs                   (* docker compose ... logs --tail 200 app *)
| ComposePgDump (out : string)  (* docker compose ... exec -T db pg_dump ... > out *)
| DockerPgDump (out : string)   (* docker exec -t centricore_db pg_dump ... > out *)
| DockerPs                      (* docker ps | grep -E ... *)
| Curl (url : string)           (* curl -sS -o /dev/null -w "%{http_code}" url *)
| Sleep (seconds : nat)
| PsqlResetSchema               (* psql: DROP SCHEMA public CASCADE; CREATE SCHEMA public; *)
| PsqlRestore (file : string).  (* cat file | psql *)

#[export] Instance Cmd_eq_dec : EqDecision Cmd.
Proof. solve_decision. Defined.

(** One command that was run: its exit status and what it printed. *)
Record Entry := {
  cmd : Cmd;
  status : nat;
  output : string
}.

(** The machine: what a command answers when it is run after the commands
    of the trace, and the two file tests. *)
Record System := {
  answer : list Entry → Cmd → nat * string;
  is_executable : string → bool;         (* [[ -x path ]] *)
  is_file : string → bool                (* [[ -f path ]] *)
}.

(** A piece of script goes on to the next command or exits. *)
Inductive Res (A : Type) :=
| Next (a : A)
| Exit (code : nat).
Arguments Next {A} a.
Arguments Exit {A} code.

Definition Sh (A : Type) : Type := list Entry → Res A * list Entry.

#[export] Instance sh_ret : MRet Sh := λ A a t, (Next a, t).

#[export] Instance sh_bind : MBind Sh := λ A B k m t,
  match m t with
  | (Next a, t') => k a t'
  | (Exit n, t') => (Exit n, t')
  end.

Definition entry (sys : System) (t : list Entry) (c : Cmd) : Entry :=
  {| cmd := c; status := fst (answer sys t c); output := snd (answer sys t c) |}.

(** A simple command. *)
Definition run (sys : System) (c : Cmd) : Sh unit := λ t,
  let e := entry sys t c in
  if Nat.eqb (status e) 0 then (Next tt, (t ++ [e])%list)
  else (Exit (status e), (t ++ [e])%list).

(** [c || true] *)
Definition run_or_true (sys : System) (c : Cmd) : Sh unit := λ t,
  (Next tt, (t ++ [entry sys t c])%list).

(** [VAR="$(c)"] *)
Definition capture (sys : System) (c : Cmd) : Sh string := λ t,
  let e := entry sys t c in
  if Nat.eqb (status e) 0 then (Next (output e), (t ++ [e])%list)
  else (Exit (status e), (t ++ [e])%list).

(** [VAR="$(c || true)"] *)
Definition capture_or_true (sys : System) (c : Cmd) : Sh string := λ t,
  (Next (output (entry sys t c)), (t ++ [entry sys t c])%list).

Definition exit {A} (code : nat) : Sh A := λ t, (Exit code, t).

(** A run of a script: its exit status and the commands it ran. A script
    that reaches its end ends with the status of its last command, which
    succeeded. *)
Definition script (body : Sh unit) : nat * list Entry :=
  match body [] with
  | (Next _, t) => (0, t)
  | (Exit n, t) => (n, t)
  end.

Definition PROJECT_DIR : string := "/opt/centricore".
Definition BACKUP_DIR : string := "/opt/centricore/backups".
Definition HEALTH_URL : string := "http://127.0.0.1:8000/ready".

(** [backup_prod_db.sh] *)
Definition backup (sys : System) : Sh unit :=
  run sys (Cd PROJECT_DIR);;
  TS ← capture sys (Date "+%Y%m%d-%H%M%S");
  let OUT := BACKUP_DIR +:+ "/prod_" +:+ TS +:+ ".sql" in
  run sys (MkdirP BACKUP_DIR);;
  run sys (ComposePgDump OUT);;
  run sys (Ls OUT).

(** The [for i in {1..30}] loop of [deploy_prod.sh], over the values of
    [i]. *)
Fixpoint wait_health (sys : System) (rounds : list nat) : Sh unit :=
  match rounds with
  | [] => mret tt
  | _ :: rest =>
      code ← capture_or_true sys (Curl HEALTH_URL);
      if (code =? "200")%string then exit 0
      else run sys (Sleep 2);; wait_health sys rest
  end.

(** [deploy_prod.sh] *)
Definition deploy (sys : System) : Sh unit :=
  run sys (Cd PROJECT_DIR);;
  run_or_true sys GitRevParse;;
  run_or_true sys GitStatus;;
  (if is_executable sys "/opt/centricore/backup_prod_db.sh"
   then run sys BackupScript
   else exit 1);;
  run sys (GitFetch "--all --prune");;
  run sys GitPull;;
  run sys ComposeUp;;
  wait_health sys (seq 1 30);;
  run_or_true sys ComposeLogs;;
  exit 1.



(** *** Properties of traces *)

(** A command of the kind [p] was run in [t] and succeeded. *)
Definition succeeded (p : Cmd → bool) (t : list Entry) : Prop :=
  ∃ e, e ∈ t ∧ p (cmd e) = true ∧ status e = 0.

(** Every run of a command of the kind [after] comes after a successful
    run of one of the kind [before]. *)
Definition only_after (before after : Cmd → bool) (t : list Entry) : Prop :=
  ∀ t1 e t2, t = (t1 ++ e :: t2)%list → after (cmd e) = true → succeeded before t1.

(** A piece of script keeps [only_after]: it starts with [before] known to
    have succeeded when [b] holds, goes on with it known when [b'] holds,
    and exits with status 0 with it known when [z] holds. *)
Definition keeps (before after : Cmd → bool) {A} (b : bool) (m : Sh A)
    (b' z : bool) : Prop :=
  ∀ t, only_after before after t → (b = true → succeeded before t) →
    only_after before after (snd (m t))
    ∧ match fst (m t) with
      | Next _ => b' = true → succeeded before (snd (m t))
      | Exit 0 => z = true → succeeded before (snd (m t))
      | Exit (S _) => True
      end.

(** A piece of script settles whether a command of the kind [p] succeeds:
    started with [p] having succeeded exactly when [b] holds, it goes on
    with [p] having succeeded exactly when [b'] holds, exits with status 0
    only with [p] having succeeded, and with another status only without. *)
Definition decides (p : Cmd → bool) {A} (b : bool) (m : Sh A) (b' : bool) : Prop :=
  ∀ t, (succeeded p t ↔ b = true) →
    match fst (m t) with
    | Next _ => succeeded p (snd (m t)) ↔ b' = true
    | Exit 0 => succeeded p (snd (m t))
    | Exit (S _) => ¬ succeeded p (snd (m t))
    end.

(** A piece of script runs commands satisfying [Q] only. *)
Definition runs_only (Q : Cmd → Prop) {A} (m : Sh A) : Prop :=
  ∀ t, Forall (λ e, Q (cmd e)) t → Forall (λ e, Q (cmd e)) (snd (m t)).

Definition is_cmd (c : Cmd) : Cmd → bool := λ x, bool_decide (x = c).


Definition is_dump (c : Cmd) : bool :=
  match c with ComposePgDump _ | DockerPgDump _ => true | _ => false end.



Definition is_date (c : Cmd) : bool :=
  match c with Date _ => true | _ => false end.

Definition is_ls (c : Cmd) : bool :=
  match c with Ls _ => true | _ => false end.



(** The steps of [deploy_prod.sh] that must succeed, each with the one
    that has to succeed before it is run. *)
Definition deploy_order : list (Cmd * Cmd) :=
  [ (Cd PROJECT_DIR, BackupScript);
    (BackupScript, GitFetch "--all --prune");
    (GitFetch "--all --prune", GitPull);
    (GitPull, ComposeUp);
    (ComposeUp, Curl HEALTH_URL) ].

End Shell.

(** ** First revision of [dashboard-actions.js]: what the filter leaves of
    the option nodes *)

(** What the filter never writes: value, label and [data-type]. *)
Definition opt_static (o : OptionEl) : string * string * option string :=
  (opt_value o, opt_textContent o, opt_dataset_type o).

(** [style.display] of a node after the [forEach] for [type]. *)
Definition display_for (type : string) (o : OptionEl) : string :=
  match opt_dataset_type o with
  | Some t => if (t =? type)%string then "" else "none"
  | None => opt_display o
  end.

(** ** [service-worker.js]: notification data of any type

    [event.notification.data] is what [showNotification] was given. The
    push listener gives [{ url: v }], where [v] is any truthy value of the
    payload, not only a string; the click listener below takes any value. *)
Module Notifications.
Import ServiceWorker.

(** The fallback object of the push listener. *)
Definition fallback (payload : string) : JsValue :=
  JObject [("title", JString "FinLife"); ("body", JString payload);
           ("url", JString "/")].

(** [String(v)], as [indexOf] and [openWindow] convert their argument. The
    text of a number is that of its double and is left to [number_text]; an
    array is its elements joined by commas, [null] and [undefined] among
    them giving the empty text. *)
Fixpoint to_string (number_text : NumberLiteral → string) (v : JsValue) : string :=
  match v with
  | JUndefined => "undefined"
  | JNull => "null"
  | JBool b => if b then "true" else "false"
  | JNumber n => number_text n
  | JString s => s
  | JArray items =>
      (fix join (l : list JsValue) : string :=
         match l with
         | [] => ""
         | x :: rest =>
             let text :=
               match x with
               | JUndefined | JNull => ""
               | _ => to_string number_text x
               end in
             match rest with
             | [] => text
             | _ :: _ => text +:+ "," +:+ join rest
             end
         end) items
  | JObject _ => "[object Object]"
  end.

(** [data && data.url ? data.url : '/'] *)
Definition target (data : JsValue) : JsValue :=
  if truthy data then
    match get_prop data "url" with
    | Some url => if truthy url then url else JString "/"
    | None => JString "/"
    end
  else JString "/".

(** The [notificationclick] listener. *)
Definition on_notificationclick (number_text : NumberLiteral → string)
    (data : JsValue) (all : list Client) : list Action :=
  let url := to_string number_text (target data) in
  CloseNotification
    :: match first_to_focus url (matchAll_window all) with
       | Some client => [Focus client]
       | None => [OpenWindow url]
       end.


End Notifications.

(** * Facts *)

Local Open Scope list_scope.
Local Open Scope nat_scope.

(** ** The select element *)
Section SelectFacts.
Import Select.

Lemma set_opt_selected_idem b b' o :
  set_opt_selected b (set_opt_selected b' o) = set_opt_selected b o.
Proof. by destruct o. Qed.

Lemma deselect_all_idem opts : deselect_all (deselect_all opts) = deselect_all opts.
Proof.
  unfold deselect_all. rewrite <- list_fmap_compose.
  apply list_fmap_ext. intros ? o _. apply set_opt_selected_idem.
Qed.

Lemma deselect_all_app l1 l2 :
  deselect_all (l1 ++ l2) = deselect_all l1 ++ deselect_all l2.
Proof. apply fmap_app. Qed.

Lemma deselect_select_first v opts :
  deselect_all (select_first v opts) = deselect_all opts.
Proof.
  induction opts as [|o rest IH]; [done|]. simpl.
  destruct (opt_value o =? v)%string; simpl.
  - by rewrite set_opt_selected_idem.
  - by rewrite IH.
Qed.

Lemma deselect_set_value v opts :
  deselect_all (set_value v opts) = deselect_all opts.
Proof. unfold set_value. by rewrite deselect_select_first, deselect_all_idem. Qed.

Lemma deselect_keep_last opts :
  deselect_all (keep_last_selected opts) = deselect_all opts.
Proof.
  induction opts as [|o rest IH]; [done|]. simpl. rewrite IH.
  destruct (existsb opt_selected rest); [|done].
  by rewrite set_opt_selected_idem.
Qed.

Lemma deselect_reset opts : deselect_all (reset opts) = deselect_all opts.
Proof.
  unfold reset. destruct (existsb opt_selected opts).
  - apply deselect_keep_last.
  - destruct opts as [|o rest]; [done|]. simpl.
    by rewrite set_opt_selected_idem.
Qed.

Lemma length_deselect_all opts : length (deselect_all opts) = length opts.
Proof. apply length_fmap. Qed.

Lemma length_reset opts : length (reset opts) = length opts.
Proof.
  rewrite <- (length_deselect_all (reset opts)), deselect_reset.
  apply length_deselect_all.
Qed.

(** Setting the value twice is setting it once. *)
Lemma set_value_set_value v opts :
  set_value v (set_value v opts) = set_value v opts.
Proof. unfold set_value at 1. by rewrite deselect_set_value. Qed.

(** Two option lists that differ in selectedness only are the same after
    [select.value = v]. *)
Lemma set_value_proper v l1 l2 :
  deselect_all l1 = deselect_all l2 → set_value v l1 = set_value v l2.
Proof. unfold set_value. by intros ->. Qed.

(** After [select.value = v] the select reports [v] when some option
    carries it, and the empty string otherwise. *)
Lemma value_select_first v opts :
  Forall (λ o, opt_selected o = false) opts →
  value (select_first v opts) =
    if existsb (λ o, (opt_value o =? v)%string) opts then v else "".
Proof.
  induction 1 as [|o rest Ho _ IH]; [done|]. cbn [select_first existsb].
  destruct (String.eqb_spec (opt_value o) v) as [<-|Hne]; cbn [value orb].
  - by destruct o.
  - by rewrite Ho.
Qed.

Lemma deselect_all_unselected opts :
  Forall (λ o, opt_selected o = false) (deselect_all opts).
Proof. apply Forall_fmap, Forall_true. by intros []. Qed.

Lemma value_set_value_empty opts : value (set_value "" opts) = "".
Proof.
  unfold set_value. rewrite value_select_first by apply deselect_all_unselected.
  by destruct (existsb _ _).
Qed.

Lemma category_value_head p ph rest :
  qopCategory p = Some (set_opt_selected true ph :: rest) →
  is_placeholder ph = true →
  category_value p = Some "".
Proof.
  intros H Hph. unfold category_value. rewrite H.
  cbn [fmap option_fmap option_map value set_opt_selected opt_selected opt_value].
  unfold is_placeholder in Hph. apply String.eqb_eq in Hph. by rewrite Hph.
Qed.

End SelectFacts.

(** ** What [openModal] does around the category filter *)
Section PageFacts.

Lemma before_filter_fields type p :
  qopCategory (before_filter type p) = qopCategory p
  ∧ qopCategoryRow (before_filter type p) = qopCategoryRow p
  ∧ walletRow_display (before_filter type p)
    = (if (type =? "TRANSFER")%string then "none" else "")
  ∧ fromRow_display (before_filter type p)
    = (if (type =? "TRANSFER")%string then "" else "none")
  ∧ toRow_display (before_filter type p)
    = (if (type =? "TRANSFER")%string then "" else "none").
Proof. done. Qed.

Lemma after_filter_fields type p :
  qopCategory (after_filter type p) = Select.set_value "" <$> qopCategory p
  ∧ qopCategoryRow (after_filter type p) = qopCategoryRow p
  ∧ walletRow_display (after_filter type p) = walletRow_display p
  ∧ fromRow_display (after_filter type p) = fromRow_display p
  ∧ toRow_display (after_filter type p) = toRow_display p.
Proof.
  unfold after_filter.
  destruct p as [? ? ? ? ? ? ? ? ? ? ? ? ? ? ? ? ? [[] [] []] ?];
    by destruct (type =? "TRANSFER")%string.
Qed.

(** Neither phase looks at the option list to decide the other nodes. *)
Lemma before_filter_erase type p :
  set_qopCategory None (before_filter type p)
  = before_filter type (set_qopCategory None p).
Proof. done. Qed.

Lemma after_filter_erase type p :
  set_qopCategory None (after_filter type p)
  = after_filter type (set_qopCategory None p).
Proof.
  unfold after_filter.
  destruct p as [? ? ? ? ? ? ? ? ? ? ? ? ? ? ? ? ? [[] [] []] ?];
    by destruct (type =? "TRANSFER")%string.
Qed.

End PageFacts.

(** ** The rebuilding revision *)
Section RebuildFacts.
Import Select Rebuild.

(** The removal loop leaves the first node alone and drops the others;
    [fuel = length opts] rounds let it stop by its own test. *)
Lemma remove_extra_spec fuel opts :
  length opts ≤ S fuel →
  deselect_all (remove_extra fuel opts) = deselect_all (take 1 opts).
Proof.
  revert opts. induction fuel as [|fuel IH]; intros opts Hlen; simpl.
  - destruct opts as [|a [|b r]]; simpl in *; [done|done|lia].
  - case_decide as Hgt.
    + destruct opts as [|a [|b r]]; simpl in *; [lia|lia|].
      unfold removeChild. simpl.
      rewrite IH by (rewrite length_reset; simpl; lia).
      unfold deselect_all at 1. rewrite fmap_take.
      fold (deselect_all (reset (a :: r))).
      by rewrite deselect_reset.
    + destruct opts as [|a [|b r]]; simpl in *; [done|done|lia].
Qed.

Lemma remove_extra_stops opts :
  ¬ 1 < length (remove_extra (length opts) opts).
Proof.
  rewrite <- (length_deselect_all (remove_extra _ _)).
  rewrite remove_extra_spec by lia.
  rewrite length_deselect_all, length_take. lia.
Qed.

Lemma option_of_unselected cats :
  deselect_all (option_of <$> cats) = option_of <$> cats.
Proof.
  unfold deselect_all. rewrite <- list_fmap_compose.
  by apply list_fmap_ext.
Qed.

Lemma append_matching_spec type cats opts :
  deselect_all (append_matching type cats opts)
  = deselect_all opts ++ (option_of <$> matching type cats).
Proof.
  revert opts. induction cats as [|c cats IH]; intros opts; simpl.
  - by rewrite app_nil_r.
  - destruct (cat_type c =? type)%string; simpl; [|apply IH].
    rewrite IH. unfold appendChild.
    rewrite deselect_reset, deselect_all_app. simpl.
    by rewrite <- app_assoc.
Qed.

Lemma filterCategories_options type s opts :
  qopCategory (page s) = Some opts →
  qopCategory (page (filterCategories type s))
  = Some (rebuilt type (allCategoryOptions s) opts).
Proof.
  intros H. unfold filterCategories, rebuilt. rewrite H.
  destruct (type =? "TRANSFER")%string; simpl; rewrite H; simpl; [done|].
  f_equal. apply set_value_proper.
  rewrite append_matching_spec, remove_extra_spec by lia.
  by rewrite deselect_all_app, option_of_unselected.
Qed.

Lemma with_page_catalog f s :
  allCategoryOptions (with_page f s) = allCategoryOptions s.
Proof. done. Qed.

Lemma filterCategories_catalog type s :
  allCategoryOptions (filterCategories type s) = allCategoryOptions s.
Proof.
  unfold filterCategories. destruct (qopCategory (page s)); [|done].
  by destruct (type =? "TRANSFER")%string.
Qed.

Lemma openModal_catalog type s :
  allCategoryOptions (openModal type s) = allCategoryOptions s.
Proof.
  unfold openModal. cbv zeta.
  by rewrite with_page_catalog, filterCategories_catalog, with_page_catalog.
Qed.

Lemma openModal_options type s opts :
  qopCategory (page s) = Some opts →
  qopCategory (page (openModal type s))
  = Some (rebuilt type (allCategoryOptions s) opts).
Proof.
  intros H. unfold openModal. cbn [page with_page].
  rewrite (proj1 (after_filter_fields type _)).
  rewrite (filterCategories_options type (with_page (before_filter type) s) opts H).
  cbn [fmap option_fmap option_map allCategoryOptions with_page]. f_equal.
  unfold rebuilt. destruct (type =? "TRANSFER")%string; apply set_value_set_value.
Qed.

End RebuildFacts.

Section RebuildProperties.
Import Select Rebuild.

Lemma filterCategories_wallet_rows type s :
  walletRow_display (page (filterCategories type s)) = walletRow_display (page s)
  ∧ fromRow_display (page (filterCategories type s)) = fromRow_display (page s)
  ∧ toRow_display (page (filterCategories type s)) = toRow_display (page s).
Proof.
  unfold filterCategories. destruct (qopCategory (page s)); [|done].
  by destruct (type =? "TRANSFER")%string.
Qed.

Lemma filterCategories_row type s :
  is_Some (qopCategory (page s)) →
  qopCategoryRow (page (filterCategories type s))
  = assign_if_present (if (type =? "TRANSFER")%string then "none" else "")
                      (qopCategoryRow (page s)).
Proof.
  intros [opts H]. unfold filterCategories. rewrite H.
  by destruct (type =? "TRANSFER")%string.
Qed.

Lemma openModal_row type s :
  is_Some (qopCategory (page s)) →
  qopCategoryRow (page (openModal type s))
  = assign_if_present (if (type =? "TRANSFER")%string then "none" else "")
                      (qopCategoryRow (page s)).
Proof.
  intros H. unfold openModal. cbn [page with_page].
  rewrite (proj1 (proj2 (after_filter_fields type _))).
  by rewrite (filterCategories_row type (with_page (before_filter type) s) H).
Qed.

Lemma openModal_wallet_rows type s :
  walletRow_display (page (openModal type s))
  = (if (type =? "TRANSFER")%string then "none" else "")
  ∧ fromRow_display (page (openModal type s))
    = (if (type =? "TRANSFER")%string then "" else "none")
  ∧ toRow_display (page (openModal type s))
    = (if (type =? "TRANSFER")%string then "" else "none").
Proof.
  unfold openModal. cbn [page with_page].
  destruct (after_filter_fields type
              (page (filterCategories type (with_page (before_filter type) s))))
    as (_ & _ & -> & -> & ->).
  destruct (filterCategories_wallet_rows type (with_page (before_filter type) s))
    as (-> & -> & ->).
  done.
Qed.

Lemma set_value_placeholder_head ph l :
  is_placeholder ph = true →
  set_value "" (ph :: l) = set_opt_selected true ph :: deselect_all l.
Proof.
  intros H. unfold set_value. simpl.
  unfold is_placeholder in H. simpl. rewrite H.
  by rewrite set_opt_selected_idem.
Qed.

Lemma rebuilt_placeholder_head type cats ph rest :
  is_placeholder ph = true →
  rebuilt type cats (ph :: rest)
  = set_opt_selected true ph
      :: (if (type =? "TRANSFER")%string then deselect_all rest
          else option_of <$> matching type cats).
Proof.
  intros H. unfold rebuilt. destruct (type =? "TRANSFER")%string.
  - by apply set_value_placeholder_head.
  - simpl. rewrite set_value_placeholder_head by done.
    by rewrite option_of_unselected.
Qed.

(** Rebuilding what was just rebuilt for the same type changes nothing, as
    soon as the select has a first node to keep. *)
Lemma rebuilt_idem type cats opts :
  opts ≠ [] →
  rebuilt type cats (rebuilt type cats opts) = rebuilt type cats opts.
Proof.
  intros Hne. unfold rebuilt. destruct (type =? "TRANSFER")%string.
  - apply set_value_set_value.
  - destruct opts as [|o rest]; [done|]. simpl.
    apply set_value_proper.
    set (tail := option_of <$> matching type cats).
    rewrite deselect_all_app.
    assert (Hd : deselect_all (take 1 (set_value "" (o :: tail)))
                 = deselect_all [o]).
    { unfold deselect_all at 1. rewrite fmap_take.
      fold (deselect_all (set_value "" (o :: tail))).
      by rewrite deselect_set_value. }
    by rewrite Hd.
Qed.

Lemma is_placeholder_set_selected b o :
  is_placeholder (set_opt_selected b o) = is_placeholder o.
Proof. done. Qed.

Lemma well_formed_inv s :
  well_formed s = true →
  ∃ ph rest,
    qopCategory (page s) = Some (ph :: rest)
    ∧ is_placeholder ph = true
    ∧ forallb (λ o, negb (is_placeholder o)) rest = true
    ∧ forallb (λ c, negb (cat_value c =? "")%string) (allCategoryOptions s) = true.
Proof.
  unfold well_formed. destruct (qopCategory (page s)) as [[|ph rest]|]; try done.
  intros H. apply andb_prop in H as [H H3]. apply andb_prop in H as [H1 H2].
  by exists ph, rest.
Qed.

Lemma placeholder_first_inv s :
  placeholder_first s = true →
  ∃ ph rest, qopCategory (page s) = Some (ph :: rest) ∧ is_placeholder ph = true.
Proof.
  unfold placeholder_first.
  destruct (qopCategory (page s)) as [[|ph rest]|]; try done. by exists ph, rest.
Qed.

Lemma no_placeholder_deselect rest :
  forallb (λ o, negb (is_placeholder o)) (deselect_all rest)
  = forallb (λ o, negb (is_placeholder o)) rest.
Proof. induction rest as [|o r IH]; [done|]. simpl. by rewrite IH. Qed.

Lemma no_placeholder_created type cats :
  forallb (λ c, negb (cat_value c =? "")%string) cats = true →
  forallb (λ o, negb (is_placeholder o)) (option_of <$> matching type cats) = true.
Proof.
  induction cats as [|c cats IH]; [done|]. simpl.
  intros H. apply andb_prop in H as [H1 H2].
  destruct (cat_type c =? type)%string; simpl; [|by apply IH].
  unfold is_placeholder at 1. simpl. rewrite H1. by apply IH.
Qed.

Lemma filter_no_placeholder l :
  forallb (λ o, negb (is_placeholder o)) l = true →
  List.filter is_placeholder l = [].
Proof.
  induction l as [|o l IH]; [done|]. simpl.
  intros H. apply andb_prop in H as [H1 H2].
  destruct (is_placeholder o); [done|]. by apply IH.
Qed.

(** The shape [well_formed] asks for is kept by every [openModal]. *)
Lemma openModal_well_formed type s :
  well_formed s = true → well_formed (openModal type s) = true.
Proof.
  intros H. destruct (well_formed_inv s H) as (ph & rest & Hc & Hph & Hrest & Hcat).
  unfold well_formed.
  rewrite (openModal_options type s _ Hc), openModal_catalog.
  rewrite rebuilt_placeholder_head by done.
  rewrite is_placeholder_set_selected, Hph, Hcat. simpl.
  rewrite andb_true_r.
  destruct (type =? "TRANSFER")%string.
  - by rewrite no_placeholder_deselect.
  - by apply no_placeholder_created.
Qed.

Lemma type_name_transfer t :
  (type_name t =? "TRANSFER")%string = match t with TRANSFER => true | _ => false end.
Proof. by destruct t. Qed.

(** C1. For each of INCOME, EXPENSE and TRANSFER, [openModal] leaves the
    documented field visibility: TRANSFER shows the from-wallet and to-wallet
    rows and hides the single-wallet row and the category row; INCOME and
    EXPENSE show the single-wallet row and the category row and hide the
    from-wallet and to-wallet rows. The host page supplies the category
    select and its row. *)
Theorem openModal_field_visibility (t : OperationType) (s : State) :
  category_fields_present s = true →
  field_visibility (page (openModal (type_name t) s)) = documented_visibility t.
Proof.
  unfold category_fields_present.
  destruct (qopCategory (page s)) as [opts|] eqn:Hc; [|done].
  destruct (qopCategoryRow (page s)) as [row|] eqn:Hr; [|done]. intros _.
  destruct (openModal_wallet_rows (type_name t) s) as (Hw & Hf & Ht).
  assert (Hrow := openModal_row (type_name t) s (ex_intro _ opts Hc)).
  unfold field_visibility. rewrite Hw, Hf, Ht, Hrow, Hr, type_name_transfer.
  by destruct t.
Qed.

Lemma openModal_field_visibility_witness :
  field_visibility (page (openModal (type_name EXPENSE) sample_state))
  = documented_visibility EXPENSE.
Proof. apply (openModal_field_visibility EXPENSE sample_state). reflexivity. Defined.



(** C3. Opening the modal twice in a row for the same type leaves the
    category select with the option list one opening leaves, and that list
    holds one placeholder, as its first entry. *)
Theorem openModal_rebuild_idempotent (t : OperationType) (s : State) :
  well_formed s = true →
  qopCategory (page (openModal (type_name t) (openModal (type_name t) s)))
  = qopCategory (page (openModal (type_name t) s))
  ∧ count_placeholders (openModal (type_name t) s) = Some 1
  ∧ placeholder_first (openModal (type_name t) s) = true.
Proof.
  intros H. destruct (well_formed_inv s H) as (ph & rest & Hc & Hph & Hrest & Hcat).
  assert (Hopts := openModal_options (type_name t) s _ Hc).
  split; [|split].
  - rewrite (openModal_options (type_name t) _ _ Hopts), openModal_catalog, Hopts.
    f_equal. by apply rebuilt_idem.
  - unfold count_placeholders. rewrite Hopts.
    rewrite rebuilt_placeholder_head by done. simpl.
    rewrite is_placeholder_set_selected, Hph. simpl. f_equal. f_equal.
    rewrite filter_no_placeholder; [done|].
    destruct (type_name t =? "TRANSFER")%string.
    + by rewrite no_placeholder_deselect.
    + by apply no_placeholder_created.
  - unfold placeholder_first. rewrite Hopts.
    rewrite rebuilt_placeholder_head by done.
    by rewrite is_placeholder_set_selected.
Qed.

Lemma openModal_rebuild_idempotent_witness :
  qopCategory (page (openModal (type_name EXPENSE)
                       (openModal (type_name EXPENSE) sample_state)))
  = qopCategory (page (openModal (type_name EXPENSE) sample_state))
  ∧ count_placeholders (openModal (type_name EXPENSE) sample_state) = Some 1
  ∧ placeholder_first (openModal (type_name EXPENSE) sample_state) = true.
Proof. apply (openModal_rebuild_idempotent EXPENSE sample_state). reflexivity. Defined.

(** Without a category select on the page, [filterCategories] returns at
    once and the category row is left as it was. *)
Lemma openModal_without_select type s :
  qopCategory (page s) = None →
  qopCategoryRow (page (openModal type s)) = qopCategoryRow (page s).
Proof.
  intros H. unfold openModal. cbn [page with_page].
  rewrite (proj1 (proj2 (after_filter_fields type _))).
  unfold filterCategories. cbn [page with_page].
  rewrite (proj1 (before_filter_fields type (page s))), H. done.
Qed.

Lemma collect_values opts acc :
  forallb (λ o, negb (is_placeholder o)) opts = true →
  forallb (λ c, negb (cat_value c =? "")%string) acc = true →
  forallb (λ c, negb (cat_value c =? "")%string) (collect opts acc) = true.
Proof.
  revert acc. induction opts as [|o opts IH]; intros acc; [done|].
  cbn [forallb collect]. intros Ho Hacc. apply andb_prop in Ho as [Ho Hopts].
  destruct (opt_dataset_type o); apply IH; try done.
  rewrite forallb_app, Hacc. cbn [forallb cat_value]. by rewrite andb_true_r.
Qed.

(** [init] on the host markup, with no category of empty value, gives a
    well-formed state. *)
Lemma init_well_formed p ph cats :
  qopCategory p = Some (ph :: cats) →
  is_placeholder ph = true →
  opt_dataset_type ph = None →
  forallb (λ o, negb (is_placeholder o)) cats = true →
  well_formed (init {| page := p; allCategoryOptions := [] |}) = true.
Proof.
  intros Hc Hph Hd Hcats. unfold init, well_formed. cbn [page].
  rewrite Hc. cbn [page allCategoryOptions collect]. rewrite Hc, Hph, Hcats, Hd.
  by rewrite collect_values.
Qed.

End RebuildProperties.



(** ** The toggling revision *)
Section ToggleFacts.
Import Select Toggle.

Lemma retype_set_selected b type o :
  retype type (set_opt_selected b o) = set_opt_selected b (retype type o).
Proof. unfold retype. simpl. by destruct (opt_dataset_type o). Qed.

Lemma retype_deselect_all type opts :
  retype type <$> deselect_all opts = deselect_all (retype type <$> opts).
Proof.
  unfold deselect_all. rewrite <- !list_fmap_compose.
  apply list_fmap_ext. intros ? o _. apply retype_set_selected.
Qed.

(** One callback round, selectedness apart, retypes the node it visits. *)
Lemma toggle_at_spec type i opts :
  deselect_all (toggle_at type i opts) = alter (retype type) i (deselect_all opts).
Proof.
  apply list_eq. intros k. unfold toggle_at.
  destruct (opts !! i) as [opt|] eqn:Hi.
  - destruct (opt_dataset_type opt) as [t|] eqn:Ht.
    + assert (Hins : deselect_all (<[i := set_opt_display
                (if (t =? type)%string then "" else "none") opt]> opts) !! k
              = alter (retype type) i (deselect_all opts) !! k).
      { unfold deselect_all. rewrite list_fmap_insert.
        destruct (decide (i = k)) as [->|Hne].
        - rewrite list_lookup_alter_eq, list_lookup_fmap, Hi. simpl.
          rewrite list_lookup_insert_eq
            by (rewrite length_fmap; by eapply lookup_lt_Some).
          rewrite retype_set_selected. unfold retype. by rewrite Ht.
        - by rewrite list_lookup_alter_ne, list_lookup_insert_ne. }
      destruct (opt_selected opt && _); [|exact Hins].
      by rewrite deselect_set_value.
    + destruct (decide (i = k)) as [->|Hne].
      * rewrite list_lookup_alter_eq. unfold deselect_all.
        rewrite list_lookup_fmap, Hi. simpl.
        rewrite retype_set_selected. unfold retype. by rewrite Ht.
      * by rewrite list_lookup_alter_ne.
  - destruct (decide (i = k)) as [->|Hne].
    + rewrite list_lookup_alter_eq. unfold deselect_all.
      by rewrite list_lookup_fmap, Hi.
    + by rewrite list_lookup_alter_ne.
Qed.

Lemma forEach_options_lookup type n i opts k :
  deselect_all (forEach_options type i n opts) !! k
  = if decide (i ≤ k < i + n) then retype type <$> deselect_all opts !! k
    else deselect_all opts !! k.
Proof.
  revert i opts. induction n as [|n IH]; intros i opts; simpl.
  - case_decide; [lia|done].
  - rewrite IH, toggle_at_spec.
    destruct (decide (i = k)) as [->|Hne].
    + rewrite list_lookup_alter_eq. repeat case_decide; try lia. done.
    + rewrite list_lookup_alter_ne by done. repeat case_decide; try lia; done.
Qed.

(** The whole [forEach], selectedness apart, retypes every node. *)
Lemma forEach_options_spec type opts :
  deselect_all (forEach_options type 0 (length opts) opts)
  = deselect_all (retype type <$> opts).
Proof.
  rewrite <- retype_deselect_all. apply list_eq. intros k.
  rewrite forEach_options_lookup, list_lookup_fmap.
  case_decide as Hk; [done|].
  rewrite (lookup_ge_None_2 (deselect_all opts) k); [done|].
  rewrite length_deselect_all. lia.
Qed.

Lemma toggle_filterCategories_options type p opts :
  qopCategory p = Some opts →
  qopCategory (filterCategories type p)
  = Some (if (type =? "TRANSFER")%string then set_value "" opts
          else forEach_options type 0 (length opts) opts).
Proof.
  intros H. unfold filterCategories. rewrite H.
  destruct (type =? "TRANSFER")%string; simpl; by rewrite H.
Qed.

Lemma toggle_filterCategories_erase type p :
  is_Some (qopCategory p) →
  set_qopCategory None (filterCategories type p)
  = set_qopCategoryRow
      (assign_if_present (if (type =? "TRANSFER")%string then "none" else "")
                         (qopCategoryRow p))
      (set_qopCategory None p).
Proof.
  intros [opts H]. unfold filterCategories. rewrite H.
  by destruct (type =? "TRANSFER")%string.
Qed.

Lemma toggle_openModal_options type p opts :
  qopCategory p = Some opts →
  qopCategory (openModal type p)
  = Some (if (type =? "TRANSFER")%string then set_value "" opts
          else set_value "" (retype type <$> opts)).
Proof.
  intros H. unfold openModal. cbv zeta.
  rewrite (proj1 (after_filter_fields type _)).
  rewrite (toggle_filterCategories_options type (before_filter type p) opts H).
  cbn [fmap option_fmap option_map]. f_equal.
  destruct (type =? "TRANSFER")%string.
  - apply set_value_set_value.
  - apply set_value_proper, forEach_options_spec.
Qed.

End ToggleFacts.

(** ** The two revisions side by side *)
Section Equivalence.
Import Select.

Lemma entries_deselect_all l : opt_entry <$> deselect_all l = opt_entry <$> l.
Proof.
  unfold deselect_all. rewrite <- list_fmap_compose. by apply list_fmap_ext.
Qed.

Lemma shown_entries_deselect_all l :
  opt_entry <$> List.filter (λ o, shown (opt_display o)) (deselect_all l)
  = opt_entry <$> List.filter (λ o, shown (opt_display o)) l.
Proof.
  induction l as [|o l IH]; [done|].
  unfold deselect_all in *. rewrite fmap_cons.
  cbn [List.filter set_opt_selected opt_display].
  destruct (shown (opt_display o)); rewrite ?fmap_cons, IH; done.
Qed.

Lemma collect_acc opts acc :
  Rebuild.collect opts acc = acc ++ Rebuild.collect opts [].
Proof.
  revert acc. induction opts as [|o opts IH]; intros acc; simpl.
  - by rewrite app_nil_r.
  - destruct (opt_dataset_type o); [|apply IH].
    rewrite IH, (IH [_]). by rewrite app_assoc.
Qed.

Lemma collect_deselect_all opts acc :
  Rebuild.collect (deselect_all opts) acc = Rebuild.collect opts acc.
Proof.
  revert acc. induction opts as [|o opts IH]; intros acc; [done|]. simpl.
  destruct (opt_dataset_type o); apply IH.
Qed.

Lemma retype_fields type o :
  opt_value (Toggle.retype type o) = opt_value o
  ∧ opt_textContent (Toggle.retype type o) = opt_textContent o
  ∧ opt_dataset_type (Toggle.retype type o) = opt_dataset_type o.
Proof. by destruct o as [v l [t|] d b]. Qed.

Lemma collect_retype type opts acc :
  Rebuild.collect (Toggle.retype type <$> opts) acc = Rebuild.collect opts acc.
Proof.
  revert acc. induction opts as [|o opts IH]; intros acc; [done|].
  rewrite fmap_cons. cbn [Rebuild.collect].
  destruct (retype_fields type o) as (Hv & Hl & Hd).
  rewrite Hd. destruct (opt_dataset_type o); rewrite ?Hv, ?Hl; apply IH.
Qed.

Lemma typed_deselect_all cats :
  forallb (λ o, bool_decide (is_Some (opt_dataset_type o))) (deselect_all cats)
  = forallb (λ o, bool_decide (is_Some (opt_dataset_type o))) cats.
Proof. induction cats as [|o l IH]; [done|]. simpl. by rewrite IH. Qed.

Lemma typed_retype type cats :
  forallb (λ o, bool_decide (is_Some (opt_dataset_type o))) (Toggle.retype type <$> cats)
  = forallb (λ o, bool_decide (is_Some (opt_dataset_type o))) cats.
Proof.
  induction cats as [|o l IH]; [done|].
  rewrite fmap_cons. cbn [forallb].
  by rewrite IH, (proj2 (proj2 (retype_fields type o))).
Qed.

Lemma retype_shown type o t :
  opt_dataset_type o = Some t →
  shown (opt_display (Toggle.retype type o)) = (t =? type)%string.
Proof.
  intros H. unfold Toggle.retype. rewrite H. simpl.
  by destruct (t =? type)%string.
Qed.

Lemma retype_entry type o : opt_entry (Toggle.retype type o) = opt_entry o.
Proof. by destruct o as [v l [t|] d b]. Qed.

(** On the category nodes, hiding by [display] and filtering the catalog
    offer the same entries. *)
Lemma retyped_entries type cats :
  forallb (λ o, bool_decide (is_Some (opt_dataset_type o))) cats = true →
  opt_entry <$> List.filter (λ o, shown (opt_display o)) (Toggle.retype type <$> cats)
  = Rebuild.cat_entry <$> Rebuild.matching type (Rebuild.collect cats []).
Proof.
  induction cats as [|o cats IH]; [done|].
  cbn [forallb]. intros H. apply andb_prop in H as [Ho Hcats].
  apply bool_decide_eq_true in Ho as [t Ht].
  rewrite fmap_cons. cbn [Rebuild.collect List.filter].
  rewrite Ht, (retype_shown type o t Ht), collect_acc.
  unfold Rebuild.matching. rewrite List.filter_app.
  cbn [app List.filter Rebuild.cat_type].
  fold (Rebuild.matching type (Rebuild.collect cats [])).
  destruct (t =? type)%string; rewrite ?fmap_cons, (IH Hcats); [|done].
  by rewrite retype_entry.
Qed.

Lemma host_select_inv opts :
  Toggle.host_select opts = true →
  ∃ ph cats,
    opts = ph :: cats
    ∧ is_placeholder ph = true
    ∧ shown (opt_display ph) = true
    ∧ opt_dataset_type ph = None
    ∧ forallb (λ o, bool_decide (is_Some (opt_dataset_type o))) cats = true.
Proof.
  destruct opts as [|ph cats]; [done|]. simpl. intros H.
  apply andb_prop in H as [H H4]. apply andb_prop in H as [H H3].
  apply andb_prop in H as [H1 H2]. apply bool_decide_eq_true in H3.
  by exists ph, cats.
Qed.

Lemma rebuild_filterCategories_erase type s :
  is_Some (qopCategory (Rebuild.page s)) →
  set_qopCategory None (Rebuild.page (Rebuild.filterCategories type s))
  = set_qopCategoryRow
      (assign_if_present (if (type =? "TRANSFER")%string then "none" else "")
                         (qopCategoryRow (Rebuild.page s)))
      (set_qopCategory None (Rebuild.page s)).
Proof.
  intros [opts H]. unfold Rebuild.filterCategories. rewrite H.
  by destruct (type =? "TRANSFER")%string.
Qed.

(** The fields other than the option list are driven by the same code. *)
Lemma openModal_other_fields type p1 s2 :
  is_Some (qopCategory p1) →
  is_Some (qopCategory (Rebuild.page s2)) →
  set_qopCategory None p1 = set_qopCategory None (Rebuild.page s2) →
  set_qopCategory None (Toggle.openModal type p1)
  = set_qopCategory None (Rebuild.page (Rebuild.openModal type s2)).
Proof.
  intros H1 H2 Heq. unfold Toggle.openModal, Rebuild.openModal.
  cbn [Rebuild.page Rebuild.with_page]. cbv zeta.
  rewrite !after_filter_erase.
  rewrite (toggle_filterCategories_erase type (before_filter type p1) H1).
  rewrite (rebuild_filterCategories_erase type
             (Rebuild.with_page (before_filter type) s2) H2).
  cbn [Rebuild.page Rebuild.with_page].
  rewrite !before_filter_erase.
  rewrite (proj1 (proj2 (before_filter_fields type p1))).
  rewrite (proj1 (proj2 (before_filter_fields type (Rebuild.page s2)))).
  rewrite Heq.
  by rewrite (f_equal qopCategoryRow Heq : qopCategoryRow p1 = qopCategoryRow (Rebuild.page s2)).
Qed.

Lemma retype_placeholder type ph :
  opt_dataset_type ph = None → Toggle.retype type ph = ph.
Proof. intros H. unfold Toggle.retype. by rewrite H. Qed.

(** The option list the toggling revision leaves, on the host markup. *)
Lemma toggle_openModal_host type p ph cats :
  qopCategory p = Some (ph :: cats) →
  is_placeholder ph = true →
  opt_dataset_type ph = None →
  qopCategory (Toggle.openModal type p)
  = Some (set_opt_selected true ph
            :: deselect_all (if (type =? "TRANSFER")%string then cats
                             else Toggle.retype type <$> cats)).
Proof.
  intros Hc Hph Hd. rewrite (toggle_openModal_options type p _ Hc).
  f_equal. destruct (type =? "TRANSFER")%string.
  - by apply set_value_placeholder_head.
  - rewrite fmap_cons, (retype_placeholder type ph Hd).
    by apply set_value_placeholder_head.
Qed.

Lemma entry_option_of (cats : list Rebuild.CategoryOption) :
  opt_entry <$> (Rebuild.option_of <$> cats) = Rebuild.cat_entry <$> cats.
Proof. rewrite <- list_fmap_compose. by apply list_fmap_ext. Qed.

Lemma filter_forallb {A} (f : A → bool) l :
  forallb f l = true → List.filter f l = l.
Proof.
  induction l as [|a l IH]; [done|]. simpl. intros H.
  apply andb_prop in H as [-> H]. by rewrite IH.
Qed.

(** Right after [init], on a host page whose options are all shown, the two
    revisions correspond. *)
Lemma corresponds_initial p opts :
  qopCategory p = Some opts →
  Toggle.host_select opts = true →
  forallb (λ o, shown (opt_display o)) opts = true →
  corresponds p (Rebuild.init {| Rebuild.page := p; Rebuild.allCategoryOptions := [] |}).
Proof.
  intros Hc Hh Hall. unfold Rebuild.init. simpl. rewrite Hc.
  destruct (host_select_inv opts Hh) as (ph & cats & -> & Hph & Hs & Hd & Hty).
  split; [done|]. split; [by exists (ph :: cats)|].
  split; [unfold Rebuild.placeholder_first; simpl; by rewrite Hc|].
  unfold Toggle.presented, Rebuild.presented. simpl. rewrite Hc.
  cbn [fmap option_fmap option_map]. by rewrite (filter_forallb _ _ Hall).
Qed.

Lemma collect_entries cats :
  forallb (λ o, bool_decide (is_Some (opt_dataset_type o))) cats = true →
  Rebuild.cat_entry <$> Rebuild.collect cats [] = opt_entry <$> cats.
Proof.
  induction cats as [|o cats IH]; [done|].
  cbn [forallb]. intros H. apply andb_prop in H as [Ho Hcats].
  apply bool_decide_eq_true in Ho as [t Ht].
  cbn [Rebuild.collect]. rewrite Ht, collect_acc, fmap_app, (IH Hcats). done.
Qed.

Lemma filter_length_eq {A} (f : A → bool) l :
  length (List.filter f l) = length l → List.filter f l = l.
Proof.
  induction l as [|a l IH]; [done|]. cbn [List.filter].
  destruct (f a); cbn [length]; intros H.
  - f_equal. apply IH. lia.
  - pose proof (List.filter_length_le f l). lia.
Qed.

(** C9, as amended. From corresponding states, [openModal] of either
    revision leads to corresponding states, and the select reports the empty
    value in both. Where the browser hides an option styled [display:none],
    both offer the same entries: for INCOME and EXPENSE the placeholder
    followed by the catalog entries of that type; for TRANSFER each revision
    leaves the entries it offered before. The first revision removes no
    node: the options its select holds are those it held before, so where
    the browser ignores [display] on options, the two revisions offer the
    same entries after [openModal] for INCOME or EXPENSE exactly when every
    catalog entry has that type. *)
Theorem openModal_revisions_agree (t : OperationType) (p1 : Page)
    (s2 : Rebuild.State) :
  corresponds p1 s2 →
  corresponds (Toggle.openModal (type_name t) p1)
              (Rebuild.openModal (type_name t) s2)
  ∧ category_value (Toggle.openModal (type_name t) p1) = Some ""
  ∧ category_value (Rebuild.page (Rebuild.openModal (type_name t) s2)) = Some ""
  ∧ match t with
    | TRANSFER =>
        Toggle.presented (Toggle.openModal (type_name t) p1) = Toggle.presented p1
        ∧ Rebuild.presented (Rebuild.openModal (type_name t) s2)
          = Rebuild.presented s2
    | INCOME | EXPENSE =>
        ∃ label,
          Rebuild.presented (Rebuild.openModal (type_name t) s2)
          = Some (("", label)
                    :: (Rebuild.cat_entry
                          <$> Rebuild.matching (type_name t)
                                (Rebuild.allCategoryOptions s2)))
    end
  ∧ Toggle.held (Toggle.openModal (type_name t) p1) = Toggle.held p1
  ∧ match t with
    | TRANSFER => True
    | INCOME | EXPENSE =>
        Toggle.held (Toggle.openModal (type_name t) p1)
        = Rebuild.presented (Rebuild.openModal (type_name t) s2)
        ↔ Rebuild.matching (type_name t) (Rebuild.allCategoryOptions s2)
          = Rebuild.allCategoryOptions s2
    end.
Proof.
  intros (Hother & (opts1 & Hc1 & Hh & Hcat) & Hp2 & Hpres).
  destruct (host_select_inv opts1 Hh) as (ph & cats & -> & Hph & Hs & Hd & Hty).
  destruct (placeholder_first_inv s2 Hp2) as (ph2 & rest2 & Hc2 & Hph2).
  assert (H1 := toggle_openModal_host (type_name t) p1 ph cats Hc1 Hph Hd).
  assert (H2 := openModal_options (type_name t) s2 _ Hc2).
  rewrite rebuilt_placeholder_head in H2 by done.
  rewrite type_name_transfer in H1, H2.
  assert (Hcat' : Rebuild.allCategoryOptions s2 = Rebuild.collect cats []).
  { rewrite Hcat. simpl. by rewrite Hd. }
  unfold Toggle.presented, Rebuild.presented in Hpres.
  rewrite Hc1, Hc2 in Hpres. cbn [fmap option_fmap option_map] in Hpres.
  cbn [List.filter] in Hpres. rewrite Hs in Hpres.
  rewrite !fmap_cons in Hpres.
  assert (Hentry : opt_entry ph = opt_entry ph2) by congruence.
  assert (Hrest : opt_entry <$> List.filter (λ o, shown (opt_display o)) cats
                  = opt_entry <$> rest2) by congruence.
  assert (Hpost : Toggle.presented (Toggle.openModal (type_name t) p1)
                  = Rebuild.presented (Rebuild.openModal (type_name t) s2)).
  { unfold Toggle.presented, Rebuild.presented. rewrite H1, H2.
    cbn [fmap option_fmap option_map List.filter set_opt_selected opt_display].
    rewrite Hs, !fmap_cons. f_equal.
    change (opt_entry (set_opt_selected true ph)) with (opt_entry ph).
    change (opt_entry (set_opt_selected true ph2)) with (opt_entry ph2).
    rewrite Hentry. f_equal. rewrite shown_entries_deselect_all.
    destruct t.
    - by rewrite retyped_entries, entry_option_of, Hcat'.
    - by rewrite retyped_entries, entry_option_of, Hcat'.
    - by rewrite entries_deselect_all. }
  assert (Hheld : Toggle.held (Toggle.openModal (type_name t) p1)
                  = Some (opt_entry ph :: (opt_entry <$> cats))).
  { unfold Toggle.held. rewrite H1. cbn [fmap option_fmap option_map].
    rewrite fmap_cons, entries_deselect_all. do 2 f_equal.
    destruct t; try done; rewrite <- list_fmap_compose;
      apply list_fmap_ext; intros ? o _; apply retype_entry. }
  assert (Hrebuilt : ∀ type, (type =? "TRANSFER")%string = false →
            qopCategory (Rebuild.page (Rebuild.openModal type s2))
            = Some (set_opt_selected true ph2
                      :: (Rebuild.option_of
                            <$> Rebuild.matching type (Rebuild.allCategoryOptions s2))) →
            Toggle.held (Toggle.openModal (type_name t) p1)
            = Rebuild.presented (Rebuild.openModal type s2)
            ↔ Rebuild.matching type (Rebuild.allCategoryOptions s2)
              = Rebuild.allCategoryOptions s2).
  { intros type _ Hq. unfold Rebuild.presented. rewrite Hheld, Hq.
    cbn [fmap option_fmap option_map].
    rewrite fmap_cons, entry_option_of.
    change (opt_entry (set_opt_selected true ph2)) with (opt_entry ph2).
    rewrite <- Hentry, <- (collect_entries cats Hty), <- Hcat'. split.
    - intros [= Heq]. apply filter_length_eq.
      apply (f_equal length) in Heq. by rewrite !length_fmap in Heq.
    - by intros ->. }
  split; [|split; [|split; [|split; [|split]]]].
  - split; [apply openModal_other_fields; by eauto|].
    split; [|split; [|exact Hpost]].
    + eexists. split; [exact H1|]. split.
      * cbn [Toggle.host_select]. rewrite is_placeholder_set_selected, Hph.
        cbn [set_opt_selected opt_display opt_dataset_type]. rewrite Hs, Hd.
        rewrite typed_deselect_all.
        destruct t; rewrite ?typed_retype, Hty; done.
      * rewrite openModal_catalog, Hcat'. cbn [Rebuild.collect].
        cbn [set_opt_selected opt_dataset_type]. rewrite Hd.
        rewrite collect_deselect_all.
        destruct t; by rewrite ?collect_retype.
    + unfold Rebuild.placeholder_first. rewrite H2.
      by rewrite is_placeholder_set_selected.
  - by eapply category_value_head.
  - by eapply category_value_head.
  - destruct t.
    + exists (opt_textContent ph2). unfold Rebuild.presented. rewrite H2.
      cbn [fmap option_fmap option_map]. rewrite fmap_cons, entry_option_of.
      unfold is_placeholder in Hph2. apply String.eqb_eq in Hph2.
      unfold opt_entry at 1. simpl. by rewrite Hph2.
    + exists (opt_textContent ph2). unfold Rebuild.presented. rewrite H2.
      cbn [fmap option_fmap option_map]. rewrite fmap_cons, entry_option_of.
      unfold is_placeholder in Hph2. apply String.eqb_eq in Hph2.
      unfold opt_entry at 1. simpl. by rewrite Hph2.
    + split.
      * unfold Toggle.presented. rewrite H1, Hc1.
        cbn [fmap option_fmap option_map List.filter set_opt_selected opt_display].
        rewrite Hs, !fmap_cons. by rewrite shown_entries_deselect_all.
      * unfold Rebuild.presented. rewrite H2, Hc2.
        cbn [fmap option_fmap option_map].
        by rewrite !fmap_cons, entries_deselect_all.
  - rewrite Hheld. unfold Toggle.held. by rewrite Hc1.
  - destruct t; [by apply Hrebuilt..|done].
Qed.

Lemma openModal_revisions_agree_witness :
  Toggle.presented (Toggle.openModal (type_name EXPENSE) sample_page)
  = Rebuild.presented (Rebuild.openModal (type_name EXPENSE) sample_state).
Proof.
  pose proof (openModal_revisions_agree EXPENSE sample_page sample_state
                (corresponds_initial sample_page sample_options
                   eq_refl eq_refl eq_refl)) as [(_ & _ & _ & H) _].
  exact H.
Defined.

(** C9 as written fails twice. After [openModal] for EXPENSE the select
    of the first revision still holds the INCOME entry, styled
    [display:none], where that of the second holds the placeholder and the
    two EXPENSE entries: on a browser that ignores [display] on options the
    two do not offer the same options. And for TRANSFER no catalog entry has
    that type, yet after [openModal] both revisions still hold the entries
    they held before, here the whole catalog. *)
Lemma openModal_revisions_transfer_counterexample :
  corresponds sample_page sample_state
  ∧ Toggle.held (Toggle.openModal (type_name EXPENSE) sample_page)
    = Some [("", "Без категории"); ("1", "Salary"); ("2", "Food"); ("3", "Rent")]
  ∧ Rebuild.presented (Rebuild.openModal (type_name EXPENSE) sample_state)
    = Some [("", "Без категории"); ("2", "Food"); ("3", "Rent")]
  ∧ Rebuild.matching (type_name TRANSFER) (Rebuild.allCategoryOptions sample_state) = []
  ∧ Toggle.presented (Toggle.openModal (type_name TRANSFER) sample_page)
    = Some [("", "Без категории"); ("1", "Salary"); ("2", "Food"); ("3", "Rent")]
  ∧ Rebuild.presented (Rebuild.openModal (type_name TRANSFER) sample_state)
    = Some [("", "Без категории"); ("1", "Salary"); ("2", "Food"); ("3", "Rent")]
  ∧ Rebuild.presented (Rebuild.openModal (type_name TRANSFER) sample_state)
    ≠ Some (("", "Без категории")
              :: (Rebuild.cat_entry
                    <$> Rebuild.matching (type_name TRANSFER)
                          (Rebuild.allCategoryOptions sample_state))).
Proof.
  split; [exact (corresponds_initial sample_page sample_options eq_refl eq_refl eq_refl)|].
  split; [reflexivity|]. split; [reflexivity|].
  split; [reflexivity|]. split; [reflexivity|]. split; [reflexivity|].
  vm_compute. discriminate.
Qed.

End Equivalence.



(** ** Push registration *)
Section PushFacts.
Import Push.

Lemma bind_unfold {A B} (m : Async A) (k : A → Async B) w :
  (m ≫= k) w
  = match m w with
    | (Return a, w') => k a w'
    | (Throw e, w') => (Throw e, w')
    | (Hang, w') => (Hang, w')
    end.
Proof. done. Qed.

Lemma getApplicationServerKey_pure env w :
  snd (getApplicationServerKey env w) = w.
Proof.
  unfold getApplicationServerKey.
  destruct (VAPID_PUBLIC_KEY env) as [key|]; [|done].
  destruct (key =? "")%string; [done|].
  by destruct (atob _).
Qed.

Lemma getApplicationServerKey_unset env w :
  key_unset env = true → getApplicationServerKey env w = (Return None, w).
Proof.
  unfold key_unset, getApplicationServerKey.
  destruct (VAPID_PUBLIC_KEY env) as [key|]; [|done]. by intros ->.
Qed.

(** The registration lookup leaves the page alone and does nothing to the
    outside but, at most, register the worker. *)
Lemma getRegistration_effects env w :
  document (snd (getRegistration env w)) = document w
  ∧ (events (snd (getRegistration env w)) = events w
     ∨ events (snd (getRegistration env w))
       = events w ++ [RegisterWorker "/service-worker.js"]).
Proof.
  unfold getRegistration.
  destruct (negb (has_serviceWorker env) || negb (has_PushManager env));
    [by split; [|left]|].
  unfold mbind, async_bind, await, emit, mret, async_ret.
  destruct (getRegistrations env) as [n| |]; simpl; try by (split; [|left]).
  destruct (Nat.eqb n 0); simpl.
  - destruct (register env) as [[]| |]; simpl; try by (split; [|right]).
    destruct (ready env); simpl; by (split; [|right]).
  - destruct (ready env); simpl; by (split; [|left]).
Qed.

Lemma getCurrentSubscription_effects env w :
  document (snd (getCurrentSubscription env w)) = document w
  ∧ (events (snd (getCurrentSubscription env w)) = events w
     ∨ events (snd (getCurrentSubscription env w))
       = events w ++ [RegisterWorker "/service-worker.js"]).
Proof.
  unfold getCurrentSubscription. rewrite bind_unfold.
  pose proof (getRegistration_effects env w) as H.
  destruct (getRegistration env w) as [[[reg|]| |] w1]; simpl in *; try done.
  unfold await. destruct (getSubscription env); exact H.
Qed.

(** What [subscribe] does once the registration and the key are there. *)
Lemma subscribe_run env w w1 reg key :
  getRegistration env w = (Return (Some reg), w1) →
  fst (getApplicationServerKey env w1) = Return (Some key) →
  let attempt sub := [PushSubscribe true key; Fetch (subscribe_request sub)] in
  let failed e evs :=
    if (Notification_permission env =? "denied")%string
    then (Return tt, {| document := updateUI "denied" (document w1);
                        events := events w1 ++ evs |})
    else (Return tt, {| document := document w1;
                        events := (events w1 ++ evs)
                                    ++ [ConsoleError "Push subscribe error:" e;
                                        Alert "Не удалось подключить уведомления"] |}) in
  subscribe env w
  = match pushManager_subscribe env key with
    | Fulfilled sub =>
        match fetch env (subscribe_request sub) with
        | Fulfilled resp =>
            (Return tt,
             {| document := if resp_ok resp then updateUI "subscribed" (document w1)
                            else document w1;
                events := events w1 ++ attempt sub |})
        | Rejected e => failed e (attempt sub)
        | Pending => (Hang, {| document := document w1;
                               events := events w1 ++ attempt sub |})
        end
    | Rejected e => failed e [PushSubscribe true key]
    | Pending => (Hang, {| document := document w1;
                           events := events w1 ++ [PushSubscribe true key] |})
    end.
Proof.
  intros Hreg Hkey. unfold subscribe. rewrite bind_unfold, Hreg, bind_unfold.
  pose proof (getApplicationServerKey_pure env w1) as Hpure.
  destruct (getApplicationServerKey env w1) as [c w2]. simpl in Hkey, Hpure.
  subst c w2. unfold try_catch. rewrite !bind_unfold. unfold emit at 1.
  rewrite bind_unfold. unfold await at 1.
  destruct (pushManager_subscribe env key) as [sub|e|]; cbn [document events].
  - rewrite bind_unfold. unfold emit at 1. rewrite bind_unfold.
    unfold await at 1. cbn [document events]. rewrite <- app_assoc.
    destruct (fetch env (subscribe_request sub)) as [resp|e|]; cbn [document events].
    + by destruct (resp_ok resp).
    + destruct (Notification_permission env =? "denied")%string; [done|].
      rewrite bind_unfold. unfold emit. cbn [document events].
      by rewrite <- !app_assoc.
    + done.
  - destruct (Notification_permission env =? "denied")%string; [done|].
    rewrite bind_unfold. unfold emit. cbn [document events].
    by rewrite <- !app_assoc.
  - done.
Qed.

Lemma getRegistration_document env w c w1 :
  getRegistration env w = (c, w1) → document w1 = document w.
Proof.
  intros H. pose proof (getRegistration_effects env w) as [Hd _].
  by rewrite H in Hd.
Qed.

(** C4, as amended. With platform support and the key present:
    when the platform subscription and the POST succeed with a 2xx answer
    the page is rendered "subscribed"; when either of them raises and the
    permission is "denied" the page is rendered "denied", without an alert;
    when either raises and the permission is not "denied" the error is
    logged, an alert is raised and the page is left as it was; on an answer
    that is not 2xx the call returns with the page left as it was. *)
Theorem subscribe_outcomes (env : Platform) (w w1 : World)
    (reg : ServiceWorkerRegistration) (key : list N) :
  getRegistration env w = (Return (Some reg), w1) →
  fst (getApplicationServerKey env w1) = Return (Some key) →
  (∀ resp, attempt_response env key = Some resp →
     fst (subscribe env w) = Return tt
     ∧ document (snd (subscribe env w))
       = (if resp_ok resp then updateUI "subscribed" (document w) else document w))
  ∧ (∀ e, attempt_error env key = Some e →
       fst (subscribe env w) = Return tt
       ∧ if (Notification_permission env =? "denied")%string
         then document (snd (subscribe env w)) = updateUI "denied" (document w)
              ∧ existsb is_Alert
                  (drop (length (events w1)) (events (snd (subscribe env w)))) = false
         else document (snd (subscribe env w)) = document w
              ∧ ∃ evs, events (snd (subscribe env w))
                       = evs ++ [ConsoleError "Push subscribe error:" e;
                                 Alert "Не удалось подключить уведомления"]).
Proof.
  intros Hreg Hkey. rewrite (subscribe_run env w w1 reg key Hreg Hkey).
  rewrite (getRegistration_document env w _ w1 Hreg).
  unfold attempt_response, attempt_error. split.
  - intros resp Hresp.
    destruct (pushManager_subscribe env key) as [sub| |]; try done.
    destruct (fetch env (subscribe_request sub)) as [r| |]; try done.
    by injection Hresp as ->.
  - intros e He.
    destruct (pushManager_subscribe env key) as [sub|e'|]; try done.
    + destruct (fetch env (subscribe_request sub)) as [r|e'|]; try done.
      injection He as ->.
      destruct (Notification_permission env =? "denied")%string;
        cbn [fst snd document events].
      * by rewrite drop_app_length.
      * split; [done|]. split; [done|]. by eexists.
    + injection He as ->.
      destruct (Notification_permission env =? "denied")%string;
        cbn [fst snd document events].
      * by rewrite drop_app_length.
      * split; [done|]. split; [done|]. by eexists.
Qed.

Lemma subscribe_outcomes_witness :
  document (snd (run (subscribe
      (sample_platform 1 (Fulfilled tt) None (Some sample_key)
         (Fulfilled sample_subscription) "granted" (Fulfilled true)
         (Fulfilled {| resp_ok := true |}))) sample_document))
  = updateUI "subscribed" sample_document.
Proof.
  pose proof (subscribe_outcomes
    (sample_platform 1 (Fulfilled tt) None (Some sample_key)
       (Fulfilled sample_subscription) "granted" (Fulfilled true)
       (Fulfilled {| resp_ok := true |}))
    {| document := sample_document; events := [] |}
    {| document := sample_document; events := [] |}
    Registration [4; 250; 190; 255; 15; 0]%N eq_refl eq_refl) as [H _].
  exact (proj2 (H {| resp_ok := true |} eq_refl)).
Defined.

(** C4 as written fails on an answer that is not 2xx: the call
    returns, the page is as before, and there is neither an alert nor a log
    entry. *)
Lemma subscribe_non_2xx_counterexample :
  let env := sample_platform 1 (Fulfilled tt) None (Some sample_key)
               (Fulfilled sample_subscription) "granted" (Fulfilled true)
               (Fulfilled {| resp_ok := false |}) in
  let r := run (subscribe env) sample_document in
  fst r = Return tt
  ∧ document (snd r) = sample_document
  ∧ events (snd r)
    = [PushSubscribe true [4; 250; 190; 255; 15; 0]%N;
       Fetch (subscribe_request sample_subscription)]
  ∧ ¬ (∃ msg, Alert msg ∈ events (snd r))
  ∧ ¬ (∃ msg err, ConsoleError msg err ∈ events (snd r)).
Proof.
  cbv zeta. split; [reflexivity|]. split; [reflexivity|]. split; [reflexivity|].
  split.
  - intros [msg H]. vm_compute in H. by repeat (inversion H as [|? ? ? H']; clear H; rename H' into H).
  - intros (msg & err & H). vm_compute in H. by repeat (inversion H as [|? ? ? H']; clear H; rename H' into H).
Qed.

(** C6, as amended. With the key global unset, [subscribe] never calls
    [pushManager.subscribe] and leaves the page as it was; and whenever the
    registration lookup that comes first returns, with a registration or
    without, the call returns after raising one alert. *)
Theorem subscribe_key_unset (env : Platform) (w : World) :
  key_unset env = true →
  document (snd (subscribe env w)) = document w
  ∧ (∃ evs, events (snd (subscribe env w)) = events w ++ evs
            ∧ existsb is_PushSubscribe evs = false)
  ∧ (∀ reg w1, getRegistration env w = (Return reg, w1) →
       ∃ msg, subscribe env w
              = (Return tt, {| document := document w;
                               events := events w1 ++ [Alert msg] |})).
Proof.
  intros Hkey. unfold subscribe. rewrite bind_unfold.
  pose proof (getRegistration_effects env w) as [Hd He].
  destruct (getRegistration env w) as [[[reg|]| |] w1]; cbn [fst snd] in *.
  - rewrite bind_unfold, (getApplicationServerKey_unset env w1 Hkey).
    unfold emit. cbn [fst snd document events]. split; [done|]. split.
    + destruct He as [-> | ->].
      * by exists [Alert "VAPID ключ не настроен"].
      * rewrite <- app_assoc. by eexists.
    + intros reg' w1' [= <- <-]. rewrite Hd. by eexists.
  - unfold emit. cbn [fst snd document events]. split; [done|]. split.
    + destruct He as [-> | ->].
      * by exists [Alert "Push не поддерживается"].
      * rewrite <- app_assoc. by eexists.
    + intros reg' w1' [= <- <-]. rewrite Hd. by eexists.
  - split; [done|]. split; [|done].
    destruct He as [-> | ->]; [exists []; by rewrite app_nil_r|by eexists].
  - split; [done|]. split; [|done].
    destruct He as [-> | ->]; [exists []; by rewrite app_nil_r|by eexists].
Qed.

Lemma subscribe_key_unset_witness :
  document (snd (run (subscribe
      (sample_platform 1 (Fulfilled tt) None (Some "")
         (Fulfilled sample_subscription) "default" (Fulfilled true)
         (Fulfilled {| resp_ok := true |}))) sample_document))
  = sample_document.
Proof.
  exact (proj1 (subscribe_key_unset
    (sample_platform 1 (Fulfilled tt) None (Some "")
       (Fulfilled sample_subscription) "default" (Fulfilled true)
       (Fulfilled {| resp_ok := true |}))
    {| document := sample_document; events := [] |} eq_refl)).
Defined.

(** C6 as written fails when the registration lookup does not
    return: no worker is registered, registering it is rejected, and
    [subscribe] throws before any alert. *)
Lemma subscribe_key_unset_counterexample :
  let env := sample_platform 0 (Rejected "TypeError") None None
               (Fulfilled sample_subscription) "default" (Fulfilled true)
               (Fulfilled {| resp_ok := true |}) in
  let r := run (subscribe env) sample_document in
  key_unset env = true
  ∧ fst r = Throw "TypeError"
  ∧ events (snd r) = [RegisterWorker "/service-worker.js"]
  ∧ ¬ (∃ msg, Alert msg ∈ events (snd r)).
Proof.
  cbv zeta. split; [reflexivity|]. split; [reflexivity|]. split; [reflexivity|].
  intros [msg H]. vm_compute in H.
  by repeat (inversion H as [|? ? ? H']; clear H; rename H' into H).
Qed.

(** What [unsubscribe] does once the subscription lookup has returned. *)
Lemma unsubscribe_run env w w1 osub :
  getCurrentSubscription env w = (Return osub, w1) →
  unsubscribe env w
  = match osub with
    | None => (Return tt, {| document := updateUI "prompt" (document w1);
                             events := events w1 |})
    | Some json =>
        match sub_unsubscribe env with
        | Fulfilled _ =>
            match fetch env (unsubscribe_request json) with
            | Fulfilled _ | Rejected _ =>
                (Return tt,
                 {| document := updateUI "prompt" (document w1);
                    events := events w1
                              ++ [PushUnsubscribe; Fetch (unsubscribe_request json)] |})
            | Pending =>
                (Hang,
                 {| document := document w1;
                    events := events w1
                              ++ [PushUnsubscribe; Fetch (unsubscribe_request json)] |})
            end
        | Rejected e =>
            (Throw e, {| document := document w1;
                         events := events w1 ++ [PushUnsubscribe] |})
        | Pending =>
            (Hang, {| document := document w1;
                      events := events w1 ++ [PushUnsubscribe] |})
        end
    end.
Proof.
  intros H. unfold unsubscribe. rewrite bind_unfold, H.
  destruct osub as [json|]; [|done].
  rewrite !bind_unfold. unfold emit at 1. unfold await at 1.
  destruct (sub_unsubscribe env) as [b|e|]; cbn [document events]; try done.
  unfold try_catch, mbind, async_bind, emit, await, render, mret, async_ret.
  cbn [document events]. rewrite <- app_assoc.
  by destruct (fetch env (unsubscribe_request json)).
Qed.

Lemma getCurrentSubscription_document env w c w1 :
  getCurrentSubscription env w = (c, w1) → document w1 = document w.
Proof.
  intros H. pose proof (getCurrentSubscription_effects env w) as [Hd _].
  by rewrite H in Hd.
Qed.

(** C5, as amended. When the subscription lookup finds no live
    subscription, [unsubscribe] returns without throwing, revokes nothing,
    sends nothing and renders "prompt". When it finds one and the platform
    revocation succeeds, the DELETE is sent, its failure is swallowed, and
    as soon as the request settles the page is rendered "prompt". When the
    revocation is rejected, the error propagates: no DELETE, no render. *)
Theorem unsubscribe_outcomes (env : Platform) (w w1 : World)
    (osub : option PushSubscription) :
  getCurrentSubscription env w = (Return osub, w1) →
  match osub with
  | None =>
      unsubscribe env w
      = (Return tt, {| document := updateUI "prompt" (document w);
                       events := events w1 |})
      ∧ existsb is_PushUnsubscribe (events w1) = existsb is_PushUnsubscribe (events w)
      ∧ existsb is_Fetch (events w1) = existsb is_Fetch (events w)
  | Some json =>
      (fulfils (sub_unsubscribe env) = true →
       settles (fetch env (unsubscribe_request json)) = true →
       unsubscribe env w
       = (Return tt,
          {| document := updateUI "prompt" (document w);
             events := events w1
                       ++ [PushUnsubscribe; Fetch (unsubscribe_request json)] |}))
      ∧ (∀ e, sub_unsubscribe env = Rejected e →
           unsubscribe env w
           = (Throw e, {| document := document w;
                          events := events w1 ++ [PushUnsubscribe] |}))
  end.
Proof.
  intros H. rewrite (unsubscribe_run env w w1 osub H).
  rewrite (getCurrentSubscription_document env w _ w1 H).
  destruct osub as [json|].
  - split.
    + intros Hf Hs. destruct (sub_unsubscribe env); try done.
      by destruct (fetch env (unsubscribe_request json)).
    + by intros e ->.
  - split; [done|].
    pose proof (getCurrentSubscription_effects env w) as [_ He].
    rewrite H in He. cbn [snd] in He.
    destruct He as [-> | ->]; [done|].
    rewrite !existsb_app. cbn. by rewrite !orb_false_r.
Qed.

Lemma unsubscribe_outcomes_witness :
  unsubscribe
    (sample_platform 1 (Fulfilled tt) (Some sample_subscription) (Some sample_key)
       (Fulfilled sample_subscription) "granted" (Fulfilled true)
       (Rejected "TypeError: Failed to fetch"))
    {| document := updateUI "subscribed" sample_document; events := [] |}
  = (Return tt,
     {| document := updateUI "prompt" (updateUI "subscribed" sample_document);
        events := [PushUnsubscribe; Fetch (unsubscribe_request sample_subscription)] |}).
Proof.
  exact (proj1 (unsubscribe_outcomes
    (sample_platform 1 (Fulfilled tt) (Some sample_subscription) (Some sample_key)
       (Fulfilled sample_subscription) "granted" (Fulfilled true)
       (Rejected "TypeError: Failed to fetch"))
    {| document := updateUI "subscribed" sample_document; events := [] |}
    {| document := updateUI "subscribed" sample_document; events := [] |}
    (Some sample_subscription) eq_refl) eq_refl eq_refl).
Defined.

(** C5 as written fails when the platform rejects the revocation:
    [unsubscribe] throws, and the page still shows the "subscribed"
    rendering. *)
Lemma unsubscribe_revocation_counterexample :
  let env := sample_platform 1 (Fulfilled tt) (Some sample_subscription)
               (Some sample_key) (Fulfilled sample_subscription) "granted"
               (Rejected "AbortError") (Fulfilled {| resp_ok := true |}) in
  let d := updateUI "subscribed" sample_document in
  let r := run (unsubscribe env) d in
  fst r = Throw "AbortError"
  ∧ document (snd r) = d
  ∧ document (snd r) ≠ updateUI "prompt" d
  ∧ events (snd r) = [PushUnsubscribe].
Proof.
  cbv zeta. split; [reflexivity|]. split; [reflexivity|]. split; [|reflexivity].
  vm_compute. discriminate.
Qed.

(** Each of the two neutral renders leaves the flag as it finds it. *)
Lemma updateUI_keeps_flag state d :
  keeps_flag state = true → disabled_flag (updateUI state d) = disabled_flag d.
Proof.
  unfold keeps_flag, updateUI, disabled_flag.
  destruct (pushToggleBtn d) as [btn|] eqn:Hb; [|by rewrite Hb].
  destruct (state =? "subscribed")%string; [done|].
  by destruct (state =? "prompt")%string.
Qed.

(** No render clears the flag. *)
Lemma updateUI_stays_disabled state d :
  disabled_flag d = Some true → disabled_flag (updateUI state d) = Some true.
Proof.
  unfold updateUI, disabled_flag.
  destruct (pushToggleBtn d) as [btn|] eqn:Hb; [|done].
  cbn [fmap option_fmap option_map]. intros [= Hd].
  destruct (state =? "subscribed")%string;
    [by cbn [pushToggleBtn fmap option_fmap option_map btn_disabled]; rewrite Hd|].
  destruct (state =? "prompt")%string;
    [by cbn [pushToggleBtn fmap option_fmap option_map btn_disabled]; rewrite Hd|].
  by destruct (state =? "denied")%string.
Qed.

(** The other renders set it. *)
Lemma updateUI_disables state d :
  keeps_flag state = false →
  disabled_flag (updateUI state d) = (λ _, true) <$> pushToggleBtn d.
Proof.
  unfold keeps_flag, updateUI, disabled_flag.
  destruct (pushToggleBtn d) as [btn|] eqn:Hb; [|by rewrite Hb].
  destruct (state =? "subscribed")%string; [done|].
  destruct (state =? "prompt")%string; [done|].
  by destruct (state =? "denied")%string.
Qed.

(** C10. [updateUI] assigns [btn.disabled] only outside the "subscribed"
    and "prompt" branches, and then sets it: a render of "subscribed" or
    "prompt" leaves the flag as it was, so after a "denied" or "unsupported"
    render has disabled the button, it is still disabled after any number of
    "subscribed" and "prompt" renders. *)
Theorem updateUI_disabled_frame (d : Document) (first : string)
    (later : list string) :
  keeps_flag first = false →
  forallb keeps_flag later = true →
  Forall (λ state, ∀ d', disabled_flag (updateUI state d') = disabled_flag d') later
  ∧ (∀ state d', disabled_flag d' = Some true →
                 disabled_flag (updateUI state d') = Some true)
  ∧ disabled_flag (updateUI first d) = (λ _, true) <$> pushToggleBtn d
  ∧ disabled_flag (renders later (updateUI first d)) = (λ _, true) <$> pushToggleBtn d.
Proof.
  intros Hfirst Hlater.
  assert (Hall : Forall (λ state, keeps_flag state = true) later).
  { apply Forall_forall. intros s Hs.
    eapply forallb_forall in Hlater; [exact Hlater|]. by apply list_elem_of_In. }
  split; [|split; [|split]].
  - eapply Forall_impl; [exact Hall|]. intros s Hs d'. by apply updateUI_keeps_flag.
  - intros state d'. apply updateUI_stays_disabled.
  - by apply updateUI_disables.
  - rewrite <- (updateUI_disables first d Hfirst). unfold renders.
    generalize (updateUI first d). clear Hlater.
    induction Hall as [|s later Hs _ IH]; intros d0; [done|]. simpl.
    by rewrite IH, updateUI_keeps_flag.
Qed.

Lemma updateUI_disabled_frame_witness :
  disabled_flag (renders ["prompt"; "subscribed"; "prompt"]
                   (updateUI "denied" sample_document))
  = Some true.
Proof.
  exact (proj2 (proj2 (proj2 (updateUI_disabled_frame sample_document "denied"
                                ["prompt"; "subscribed"; "prompt"] eq_refl eq_refl)))).
Defined.

End PushFacts.




(** ** The service worker *)
Section ServiceWorkerFacts.
Import ServiceWorker.

(** A text starting with [H] is no JSON value, whatever the fuel. *)
Lemma parse_value_Hello fuel :
  parse_value fuel (list_ascii_of_string "Hello") = None.
Proof. by destruct fuel. Qed.

Lemma js_or_string s d : js_or (JString s) (JString d) = JString (if (s =? "")%string then d else s).
Proof. unfold js_or. simpl. by destruct (s =? "")%string. Qed.

(** C7. A push event whose payload fails JSON parsing still shows a
    notification: the title is "FinLife", the body is the raw payload text,
    the target URL is "/". *)
Theorem on_push_fallback (payload : string) :
  JSON_parse payload = None →
  on_push (Some payload)
  = Done [ShowNotification (JString "FinLife")
            {| body := JString payload;
               icon := "/static/icons/icon-192.svg";
               badge := "/static/icons/icon-192.svg";
               data_url := JString "/" |}].
Proof.
  intros H. unfold on_push. rewrite H.
  change (get_prop _ "title") with (Some (JString "FinLife")).
  change (get_prop _ "body") with (Some (JString payload)).
  change (get_prop _ "url") with (Some (JString "/")).
  cbv iota beta. rewrite !js_or_string. cbn [String.eqb].
  by destruct (String.eqb_spec payload "") as [->|].
Qed.

Lemma on_push_fallback_witness :
  JSON_parse "Hello" = None
  ∧ on_push (Some "Hello")
    = Done [ShowNotification (JString "FinLife")
              {| body := JString "Hello";
                 icon := "/static/icons/icon-192.svg";
                 badge := "/static/icons/icon-192.svg";
                 data_url := JString "/" |}].
Proof. split; [reflexivity | apply (on_push_fallback "Hello"); reflexivity]. Defined.




Lemma matchAll_window_focusable all :
  Forall (λ c, has_focus c = true) (matchAll_window all).
Proof.
  unfold matchAll_window, has_focus. apply Forall_forall. intros c Hc.
  apply list_elem_of_In, List.filter_In in Hc as [_ Hc]. exact Hc.
Qed.

Lemma first_to_focus_found url before c after :
  Forall (λ x, url_matches url x = false) before →
  url_matches url c = true →
  has_focus c = true →
  first_to_focus url (before ++ c :: after) = Some c.
Proof.
  intros Hb Hc Hf. induction Hb as [|x before Hx _ IH]; simpl.
  - by rewrite Hc, Hf.
  - by rewrite Hx.
Qed.

Lemma first_to_focus_none url cs :
  Forall (λ x, url_matches url x = false) cs → first_to_focus url cs = None.
Proof. induction 1 as [|x cs Hx _ IH]; [done|]. simpl. by rewrite Hx. Qed.

(** C8. On a notification click, over the open window clients in order:
    when one of them matches the target URL, the first that does is focused
    and no window is opened; when none does, one window is opened at the
    target URL. The notification is closed first in both cases. *)
Theorem on_notificationclick_routes (data : option NotificationData)
    (all : list Client) :
  (∀ before c after,
     matchAll_window all = before ++ c :: after →
     Forall (λ x, url_matches (target_url data) x = false) before →
     url_matches (target_url data) c = true →
     on_notificationclick data all = [CloseNotification; Focus c])
  ∧ (Forall (λ x, url_matches (target_url data) x = false) (matchAll_window all) →
     on_notificationclick data all
     = [CloseNotification; OpenWindow (target_url data)]).
Proof.
  unfold on_notificationclick. split.
  - intros before c after Hw Hb Hc.
    pose proof (matchAll_window_focusable all) as Hf. rewrite Hw in Hf |- *.
    apply Forall_app in Hf as [_ Hf]. apply Forall_cons in Hf as [Hf _].
    by rewrite first_to_focus_found.
  - intros Hn. by rewrite first_to_focus_none.
Qed.

Lemma on_notificationclick_routes_witness :
  on_notificationclick (Some {| nd_url := Some "/tasks" |}) sample_clients
  = [CloseNotification;
     Focus {| client_id := 3; client_type := WindowClient;
              client_url := "https://finlife.example/tasks?today" |}].
Proof.
  apply (proj1 (on_notificationclick_routes
                  (Some {| nd_url := Some "/tasks" |}) sample_clients)
           [{| client_id := 2; client_type := WindowClient;
               client_url := "https://finlife.example/budget" |}]
           {| client_id := 3; client_type := WindowClient;
              client_url := "https://finlife.example/tasks?today" |}
           [{| client_id := 4; client_type := WindowClient;
               client_url := "https://finlife.example/tasks" |}]).
  - reflexivity.
  - repeat constructor.
  - reflexivity.
Defined.

End ServiceWorkerFacts.


(** ** The modal's other nodes and the listeners *)
Section ListenerFacts.
Import Rebuild Listeners.

(** The category filter writes the category row and the select, nothing
    else. *)
Lemma filterCategories_frame type s :
  set_qopCategory None (set_qopCategoryRow None (page (filterCategories type s)))
  = set_qopCategory None (set_qopCategoryRow None (page s)).
Proof.
  unfold filterCategories. destruct (qopCategory (page s)); [|done].
  by destruct (type =? "TRANSFER")%string.
Qed.

Lemma after_filter_erase_row type p :
  set_qopCategoryRow None (after_filter type p)
  = after_filter type (set_qopCategoryRow None p).
Proof.
  unfold after_filter.
  destruct p as [? ? ? ? ? ? ? ? ? ? ? ? ? ? ? ? ? [[] [] []] ?];
    by destruct (type =? "TRANSFER")%string.
Qed.

(** Apart from the category row and the select, [openModal] is its two
    phases applied to the page. *)
Lemma openModal_frame type s :
  set_qopCategory None (set_qopCategoryRow None (page (openModal type s)))
  = set_qopCategory None
      (set_qopCategoryRow None (after_filter type (before_filter type (page s)))).
Proof.
  unfold openModal. cbn [page with_page].
  rewrite !after_filter_erase_row, !after_filter_erase.
  rewrite (filterCategories_frame type (with_page (before_filter type) s)).
  done.
Qed.

Lemma phases_fields type p :
  let q := after_filter type (before_filter type p) in
  menu_hidden q = true
  ∧ btn_aria_expanded q = "false"
  ∧ qopType_value q = type
  ∧ qopTitle_textContent q = title_of type
  ∧ qopWallet_disabled q = (type =? "TRANSFER")%string
  ∧ qopFrom_disabled q = negb (type =? "TRANSFER")%string
  ∧ qopTo_disabled q = negb (type =? "TRANSFER")%string
  ∧ qopAmount_value q = ""
  ∧ qopDesc_value q = ""
  ∧ qopOccurredAt q = assign_if_present "" (qopOccurredAt p)
  ∧ backdrop_qop_open q = true
  ∧ activeElement q = FocusAmount
  ∧ hooks q = hooks p
  ∧ hint_calls q = rev (hints_for type (hooks p)) ++ hint_calls p.
Proof.
  unfold after_filter, before_filter, hints_for.
  destruct p as [? ? ? ? ? ? ? ? ? ? ? ? ? ? ? ? ? [[] [] []] ?];
    by destruct (type =? "TRANSFER")%string.
Qed.

(** Reading a node other than the category row and the select off the page
    [openModal] leaves. *)
Lemma openModal_field {A} (f : Page → A) type s :
  (∀ p, f (set_qopCategory None (set_qopCategoryRow None p)) = f p) →
  f (page (openModal type s)) = f (after_filter type (before_filter type (page s))).
Proof.
  intros Hf. rewrite <- (Hf (page (openModal type s))), openModal_frame.
  apply Hf.
Qed.

Lemma openModal_select_absent type s :
  qopCategory (page s) = None → qopCategory (page (openModal type s)) = None.
Proof.
  intros H. unfold openModal. cbn [page with_page].
  rewrite (proj1 (after_filter_fields type _)).
  unfold filterCategories. cbn [page with_page].
  rewrite (proj1 (before_filter_fields type (page s))), H. cbn [page with_page].
  by rewrite ?(proj1 (before_filter_fields type (page s))), ?H.
Qed.

(** X1. Whatever the type string and whatever the form held, [openModal]
    leaves the amount and the description empty, the category select on
    the empty value and the date input empty (the last two when the page
    has them). *)
Theorem openModal_resets_inputs (type : string) (s : State) :
  qopAmount_value (page (openModal type s)) = ""
  ∧ qopDesc_value (page (openModal type s)) = ""
  ∧ category_value (page (openModal type s)) = (λ _, "") <$> qopCategory (page s)
  ∧ qopOccurredAt (page (openModal type s)) = (λ _, "") <$> qopOccurredAt (page s).
Proof.
  destruct (phases_fields type (page s))
    as (_ & _ & _ & _ & _ & _ & _ & Ha & Hd & Ho & _).
  split; [by rewrite (openModal_field qopAmount_value)|].
  split; [by rewrite (openModal_field qopDesc_value)|].
  split.
  - unfold category_value. destruct (qopCategory (page s)) as [opts|] eqn:Hc.
    + rewrite (openModal_options type s opts Hc). cbn [fmap option_fmap option_map].
      f_equal. unfold rebuilt.
      destruct (type =? "TRANSFER")%string; apply value_set_value_empty.
    + by rewrite (openModal_select_absent type s Hc).
  - rewrite (openModal_field qopOccurredAt) by done. rewrite Ho.
    by destruct (qopOccurredAt (page s)).
Qed.

(** X2. For every type string, [openModal] enables the wallet selects of
    the rows it shows and disables those of the rows it hides: either the
    single wallet, or the from/to pair. *)
Theorem openModal_wallet_inputs (type : string) (s : State) :
  qopWallet_disabled (page (openModal type s))
  = negb (shown (walletRow_display (page (openModal type s))))
  ∧ qopFrom_disabled (page (openModal type s))
    = negb (shown (fromRow_display (page (openModal type s))))
  ∧ qopTo_disabled (page (openModal type s))
    = negb (shown (toRow_display (page (openModal type s))))
  ∧ qopFrom_disabled (page (openModal type s))
    = negb (qopWallet_disabled (page (openModal type s)))
  ∧ qopTo_disabled (page (openModal type s))
    = qopFrom_disabled (page (openModal type s)).
Proof.
  destruct (phases_fields type (page s))
    as (_ & _ & _ & _ & Hw & Hf & Ht & _).
  destruct (openModal_wallet_rows type s) as (-> & -> & ->).
  rewrite (openModal_field qopWallet_disabled), (openModal_field qopFrom_disabled),
    (openModal_field qopTo_disabled) by done.
  rewrite Hw, Hf, Ht. by destruct (type =? "TRANSFER")%string.
Qed.

(** Closes a goal from [H : x ∈ l] when [l] is a written-out list that
    does not hold [x]. *)
Ltac not_among H :=
  repeat (apply elem_of_cons in H as [H|H]; [discriminate|]);
  by apply elem_of_nil in H.

(** X3. [openModal] calls only hint hooks that are defined: for TRANSFER
    the from-hint and then the to-hint, never the single-wallet hint; for
    any other type the single-wallet hint alone. With no hook defined it
    calls none. *)
Theorem openModal_hint_calls (type : string) (s : State) :
  hint_calls (page (openModal type s))
  = rev (hints_for type (hooks (page s))) ++ hint_calls (page s)
  ∧ hooks (page (openModal type s)) = hooks (page s)
  ∧ (type = "TRANSFER" → UpdateQopWalletHint ∉ hints_for type (hooks (page s)))
  ∧ (type ≠ "TRANSFER" →
       (UpdateQopFromHint ∉ hints_for type (hooks (page s)))
       ∧ (UpdateQopToHint ∉ hints_for type (hooks (page s))))
  ∧ (hooks (page s) = {| has_updateQopFromHint := false;
                         has_updateQopToHint := false;
                         has_updateQopWalletHint := false |} →
       hints_for type (hooks (page s)) = []).
Proof.
  destruct (phases_fields type (page s))
    as (_ & _ & _ & _ & _ & _ & _ & _ & _ & _ & _ & _ & Hh & Hc).
  rewrite (openModal_field hint_calls), (openModal_field hooks) by done.
  split; [done|]. split; [done|]. unfold hints_for. split; [|split].
  - intros ->. cbn [String.eqb Ascii.eqb Bool.eqb].
    destruct (hooks (page s)) as [[] [] []]; cbn; intros H; not_among H.
  - intros Hne. apply String.eqb_neq in Hne. rewrite Hne.
    destruct (has_updateQopWalletHint (hooks (page s)));
      split; intros H; not_among H.
  - intros ->. by destruct (type =? "TRANSFER")%string.
Qed.

Lemma handle_catalog l s :
  allCategoryOptions (handle l s) = allCategoryOptions s.
Proof.
  destruct l as [|t|[]| | |[]|key]; cbn [handle negb]; try done.
  - apply openModal_catalog.
  - destruct (key =? "Escape")%string; [|done].
    by destruct (negb (backdrop_qop_open (page s))).
Qed.

Lemma handle_select l s :
  (∃ t, l = MenuItemClick t) ∨ qopCategory (page (handle l s)) = qopCategory (page s).
Proof.
  destruct l as [|t|[]| | |[]|key]; cbn [handle negb]; try (by right); [by left; eexists|].
  right. destruct (key =? "Escape")%string; [|done].
  by destruct (negb (backdrop_qop_open (page s))).
Qed.

Lemma handle_well_formed l s :
  well_formed s = true → well_formed (handle l s) = true.
Proof.
  intros H. destruct (handle_select l s) as [[t ->]|Hsel].
  - by apply openModal_well_formed.
  - unfold well_formed in *. by rewrite Hsel, handle_catalog.
Qed.

(** X4. Over any sequence of listener calls the retained catalog is never
    changed, and a select that starts with the one placeholder keeps
    doing so. *)
Theorem listeners_keep_catalog (ls : list Listener) (s : State) :
  well_formed s = true →
  allCategoryOptions (handle_all ls s) = allCategoryOptions s
  ∧ well_formed (handle_all ls s) = true.
Proof.
  unfold handle_all. revert s.
  induction ls as [|l ls IH]; intros s H; [done|]. cbn [foldl].
  destruct (IH (handle l s) (handle_well_formed l s H)) as [-> Hwf].
  by rewrite handle_catalog.
Qed.

Lemma listeners_keep_catalog_witness :
  allCategoryOptions
    (handle_all [BtnClick; MenuItemClick "EXPENSE"; DocumentKeydown "Escape";
                 BtnClick; MenuItemClick "TRANSFER"; CancelClick] sample_state)
  = allCategoryOptions sample_state
  ∧ well_formed
      (handle_all [BtnClick; MenuItemClick "EXPENSE"; DocumentKeydown "Escape";
                   BtnClick; MenuItemClick "TRANSFER"; CancelClick] sample_state)
    = true.
Proof. apply (listeners_keep_catalog _ sample_state). reflexivity. Defined.

Lemma handle_aria l s :
  aria_consistent (page s) = true → aria_consistent (page (handle l s)) = true.
Proof.
  intros H. destruct l as [|t|[]| | |[]|key]; cbn [handle negb]; try done.
  - unfold aria_consistent. cbn. by destruct (menu_hidden (page s)).
  - unfold aria_consistent.
    rewrite (openModal_field btn_aria_expanded), (openModal_field menu_hidden) by done.
    destruct (phases_fields t (page s)) as (-> & -> & _). done.
  - destruct (key =? "Escape")%string; [|done].
    by destruct (negb (backdrop_qop_open (page s))).
Qed.

(** X5. Every listener keeps [aria-expanded] in step with [menu.hidden]:
    once the attribute says "true" exactly when the menu is shown, it does
    so after any sequence of listener calls. *)
Theorem listeners_keep_aria (ls : list Listener) (s : State) :
  aria_consistent (page s) = true →
  aria_consistent (page (handle_all ls s)) = true.
Proof.
  unfold handle_all. revert s.
  induction ls as [|l ls IH]; intros s H; [done|]. cbn [foldl].
  by apply IH, handle_aria.
Qed.

Lemma listeners_keep_aria_witness :
  aria_consistent
    (page (handle_all [BtnClick; BtnClick; MenuItemClick "INCOME";
                       BackdropClick false; DocumentClick false] sample_state))
  = true.
Proof. apply (listeners_keep_aria _ sample_state). reflexivity. Defined.

(** X6. Escape closes the modal when it is open and the dropdown
    otherwise, never both at once; two Escapes in a row leave both closed,
    whatever was open. Any other key changes nothing. *)
Theorem escape_closes (s : State) :
  let once := handle (DocumentKeydown "Escape") s in
  let twice := handle (DocumentKeydown "Escape") once in
  backdrop_qop_open (page once) = false
  ∧ (backdrop_qop_open (page s) = true → menu_hidden (page once) = menu_hidden (page s))
  ∧ (backdrop_qop_open (page s) = false → menu_hidden (page once) = true)
  ∧ backdrop_qop_open (page twice) = false
  ∧ menu_hidden (page twice) = true
  ∧ (∀ key, key ≠ "Escape" → handle (DocumentKeydown key) s = s).
Proof.
  cbn [handle String.eqb Ascii.eqb Bool.eqb].
  destruct (backdrop_qop_open (page s)) eqn:Hopen; cbn; rewrite ?Hopen; cbn;
    repeat split; try done;
    intros key Hne; apply String.eqb_neq in Hne; by rewrite Hne.
Qed.

(** X7. With [aria-expanded] in step with the menu, two clicks on the
    button bring the page back to what it was. *)
Theorem button_click_twice (s : State) :
  aria_consistent (page s) = true →
  handle BtnClick (handle BtnClick s) = s.
Proof.
  destruct s as [p cats]. unfold aria_consistent. cbn [page handle with_page].
  intros H. apply String.eqb_eq in H. unfold with_page. cbn [page allCategoryOptions].
  f_equal. destruct p as [mh ? ? ? ? ? ? ? ? ? ? ? ? ? ? ? ? ? ?].
  cbn in *. subst. by destruct mh.
Qed.

Lemma button_click_twice_witness :
  handle BtnClick (handle BtnClick sample_state) = sample_state.
Proof. apply (button_click_twice sample_state). reflexivity. Defined.



Lemma length_removeChild opts :
  1 < length opts → length (Select.removeChild 1 opts) = length opts - 1.
Proof.
  intros H. unfold Select.removeChild. rewrite length_reset.
  destruct opts as [|a [|b r]]; simpl in *; lia.
Qed.

Lemma remove_extra_more_fuel fuel fuel' opts :
  length opts ≤ S fuel → fuel ≤ fuel' →
  remove_extra fuel' opts = remove_extra fuel opts.
Proof.
  revert fuel' opts. induction fuel as [|fuel IH]; intros fuel' opts Hlen Hle.
  - destruct fuel' as [|fuel']; [done|]. simpl. case_decide; [lia|done].
  - destruct fuel' as [|fuel']; [lia|]. simpl. case_decide as Hgt; [|done].
    apply IH; [|lia]. rewrite length_removeChild by done. lia.
Qed.

(** X9. The loop that empties the select stops by its own test within
    [options.length] rounds, whatever the select holds: what is left is the
    first option alone (nothing, for an empty select), and running it with
    more rounds allowed changes nothing. *)
Theorem remove_loop_terminates (fuel : nat) (opts : list OptionEl) :
  length opts ≤ fuel →
  remove_extra fuel opts = remove_extra (length opts) opts
  ∧ length (remove_extra fuel opts) = min 1 (length opts)
  ∧ opt_entry <$> remove_extra fuel opts = opt_entry <$> take 1 opts.
Proof.
  intros Hlen.
  assert (Hfuel : remove_extra fuel opts = remove_extra (length opts) opts)
    by (apply remove_extra_more_fuel; lia).
  assert (Hspec := remove_extra_spec (length opts) opts (Nat.le_succ_diag_r _)).
  rewrite Hfuel. split; [done|]. split.
  - rewrite <- (length_deselect_all (remove_extra _ _)), Hspec.
    rewrite length_deselect_all, length_take. lia.
  - rewrite <- (entries_deselect_all (remove_extra _ _)), Hspec.
    apply entries_deselect_all.
Qed.

Lemma remove_loop_terminates_witness :
  remove_extra 10 sample_options = remove_extra (length sample_options) sample_options
  ∧ length (remove_extra 10 sample_options) = min 1 (length sample_options)
  ∧ opt_entry <$> remove_extra 10 sample_options = opt_entry <$> take 1 sample_options.
Proof. apply (remove_loop_terminates 10 sample_options). simpl. lia. Defined.

End ListenerFacts.




(** ** Push registration: start-up and effects *)
Section PushStartFacts.
Import Push PushStart.

Lemma emits_only_ret {A} P (a : A) : emits_only P (mret a).
Proof. intros w. exists []. by rewrite app_nil_r. Qed.

Lemma emits_only_await {A} P (p : Settled A) : emits_only P (await p).
Proof. intros w. exists []. unfold await. destruct p; by rewrite app_nil_r. Qed.

Lemma emits_only_render P state : emits_only P (render state).
Proof. intros w. exists []. by rewrite app_nil_r. Qed.

Lemma emits_only_emit P e : P e = true → emits_only P (emit e).
Proof. intros H w. exists [e]. cbn. by rewrite H. Qed.

Lemma emits_only_throw {A} P e : emits_only P (λ w, (@Throw A e, w)).
Proof. intros w. exists []. by rewrite app_nil_r. Qed.

Lemma emits_only_bind {A B} P (m : Async A) (k : A → Async B) :
  emits_only P m → (∀ a, emits_only P (k a)) → emits_only P (m ≫= k).
Proof.
  intros Hm Hk w. rewrite bind_unfold. destruct (Hm w) as (evs & He & Hp).
  destruct (m w) as [[a|e|] w1]; cbn [snd] in *; try by exists evs.
  destruct (Hk a w1) as (evs' & He' & Hp').
  exists (evs ++ evs'). rewrite He', He, app_assoc. split; [done|].
  by rewrite forallb_app, Hp, Hp'.
Qed.

Lemma emits_only_try_catch {A} P (m : Async A) (h : string → Async A) :
  emits_only P m → (∀ e, emits_only P (h e)) → emits_only P (try_catch m h).
Proof.
  intros Hm Hh w. unfold try_catch. destruct (Hm w) as (evs & He & Hp).
  destruct (m w) as [[a|e|] w1]; cbn [snd] in *; try by exists evs.
  destruct (Hh e w1) as (evs' & He' & Hp').
  exists (evs ++ evs'). rewrite He', He, app_assoc. split; [done|].
  by rewrite forallb_app, Hp, Hp'.
Qed.

Lemma emits_only_weaken {A} (P Q : Event → bool) (m : Async A) :
  (∀ e, P e = true → Q e = true) → emits_only P m → emits_only Q m.
Proof.
  intros HPQ Hm w. destruct (Hm w) as (evs & He & Hp). exists evs.
  split; [done|]. apply forallb_forall. intros e Hin.
  eapply HPQ, forallb_forall; eauto.
Qed.

Lemma keeps_page_bind {A B} (m : Async A) (k : A → Async B) :
  keeps_page m → (∀ a, keeps_page (k a)) → keeps_page (m ≫= k).
Proof.
  intros Hm Hk w. rewrite bind_unfold. specialize (Hm w).
  destruct (m w) as [[a|e|] w1]; cbn [snd] in *; try done.
  by rewrite Hk.
Qed.

Lemma getRegistration_emits env : emits_only is_RegisterWorker (getRegistration env).
Proof.
  unfold getRegistration.
  destruct (negb (has_serviceWorker env) || negb (has_PushManager env));
    [apply emits_only_ret|].
  apply emits_only_bind; [apply emits_only_await|]. intros regs.
  apply emits_only_bind.
  - destruct (Nat.eqb regs 0); [|apply emits_only_ret].
    apply emits_only_bind; [by apply emits_only_emit|].
    intros _. apply emits_only_await.
  - intros _. apply emits_only_bind; [apply emits_only_await|].
    intros reg. apply emits_only_ret.
Qed.

Lemma getCurrentSubscription_emits env :
  emits_only is_RegisterWorker (getCurrentSubscription env).
Proof.
  unfold getCurrentSubscription.
  apply emits_only_bind; [apply getRegistration_emits|].
  intros [reg|]; [apply emits_only_await|apply emits_only_ret].
Qed.

Lemma getApplicationServerKey_emits P env :
  emits_only P (getApplicationServerKey env).
Proof.
  intros w. exists []. rewrite app_nil_r.
  by rewrite getApplicationServerKey_pure.
Qed.

Lemma subscribe_emits (env : Platform) :
  emits_only subscribe_event (subscribe env).
Proof.
  unfold subscribe.
  apply emits_only_bind;
    [eapply emits_only_weaken; [|apply getRegistration_emits]; by intros []|].
  intros [reg|]; [|by apply emits_only_emit].
  apply emits_only_bind; [apply getApplicationServerKey_emits|].
  intros [key|]; [|by apply emits_only_emit].
  apply emits_only_try_catch.
  - apply emits_only_bind; [by apply emits_only_emit|]. intros _.
    apply emits_only_bind; [apply emits_only_await|]. intros sub.
    apply emits_only_bind; [by apply emits_only_emit|]. intros _.
    apply emits_only_bind; [apply emits_only_await|]. intros resp.
    destruct (resp_ok resp); [apply emits_only_render|apply emits_only_ret].
  - intros e. destruct (Notification_permission env =? "denied")%string;
      [apply emits_only_render|].
    apply emits_only_bind; [by apply emits_only_emit|]. intros _.
    by apply emits_only_emit.
Qed.

Lemma unsubscribe_emits (env : Platform) :
  emits_only unsubscribe_event (unsubscribe env).
Proof.
  unfold unsubscribe.
  apply emits_only_bind;
    [eapply emits_only_weaken; [|apply getCurrentSubscription_emits]; by intros []|].
  intros [json|]; [|apply emits_only_render].
  apply emits_only_bind; [by apply emits_only_emit|]. intros _.
  apply emits_only_bind; [apply emits_only_await|]. intros _.
  apply emits_only_bind; [|intros _; apply emits_only_render].
  apply emits_only_try_catch; [|intros _; apply emits_only_ret].
  apply emits_only_bind; [by apply emits_only_emit|]. intros _.
  apply emits_only_bind; [apply emits_only_await|]. intros _.
  apply emits_only_ret.
Qed.

Lemma added_of_emits {A} P (m : Async A) w :
  emits_only P m →
  forallb P (drop (length (events w)) (events (snd (m w)))) = true.
Proof.
  intros Hm. destruct (Hm w) as (evs & -> & Hp). by rewrite drop_app_length.
Qed.

Lemma kept_of_emits {A} P (m : Async A) w :
  emits_only P m → take (length (events w)) (events (snd (m w))) = events w.
Proof.
  intros Hm. destruct (Hm w) as (evs & -> & _). by rewrite take_app_length.
Qed.

(** X10. Whatever the platform answers, [subscribe] keeps what was done
    before it, never revokes a subscription, and the only request it sends
    is the same-origin POST to [/api/push/subscribe]. *)
Theorem subscribe_effects (env : Platform) (w : World) :
  take (length (events w)) (events (snd (subscribe env w))) = events w
  ∧ forallb subscribe_event (added (subscribe env) w) = true
  ∧ existsb is_PushUnsubscribe (added (subscribe env) w) = false.
Proof.
  pose proof (added_of_emits _ _ w (subscribe_emits env)) as H.
  split; [by eapply kept_of_emits, subscribe_emits|]. split; [done|].
  unfold added. revert H. generalize (drop (length (events w))
    (events (snd (subscribe env w)))).
  intros l. induction l as [|e l IH]; [done|]. simpl.
  intros H. apply andb_prop in H as [He Hl]. rewrite IH by done.
  by destruct e.
Qed.

(** X11. Whatever the platform answers, [unsubscribe] keeps what was done
    before it, raises no alert and writes no log entry, never calls
    [pushManager.subscribe], and the only request it sends is the
    same-origin DELETE to [/api/push/unsubscribe]. *)
Theorem unsubscribe_effects (env : Platform) (w : World) :
  take (length (events w)) (events (snd (unsubscribe env w))) = events w
  ∧ forallb unsubscribe_event (added (unsubscribe env) w) = true
  ∧ existsb is_Alert (added (unsubscribe env) w) = false
  ∧ existsb is_ConsoleError (added (unsubscribe env) w) = false
  ∧ existsb is_PushSubscribe (added (unsubscribe env) w) = false.
Proof.
  pose proof (added_of_emits _ _ w (unsubscribe_emits env)) as H.
  split; [by eapply kept_of_emits, unsubscribe_emits|]. split; [done|].
  unfold added. revert H. generalize (drop (length (events w))
    (events (snd (unsubscribe env w)))).
  intros l. induction l as [|e l IH]; [done|]. simpl.
  intros H. apply andb_prop in H as [He Hl].
  destruct (IH Hl) as (-> & -> & ->). by destruct e.
Qed.

Lemma forallb_existsb_false {A} (P Q : A → bool) l :
  (∀ a, P a = true → Q a = false) → forallb P l = true → existsb Q l = false.
Proof.
  intros HPQ. induction l as [|a l IH]; [done|]. simpl.
  intros H. apply andb_prop in H as [Ha Hl]. by rewrite (HPQ a Ha), IH.
Qed.

(** X12. One call of [toggle] does at most one of the two platform
    operations: it never both subscribes and revokes. With a live
    subscription it does not subscribe; without one it does not revoke. *)
Theorem toggle_one_operation (env : Platform) (w : World) :
  existsb is_PushSubscribe (added (toggle env) w)
  && existsb is_PushUnsubscribe (added (toggle env) w) = false
  ∧ (∀ sub w1, getCurrentSubscription env w = (Return (Some sub), w1) →
       existsb is_PushSubscribe (added (toggle env) w) = false)
  ∧ (∀ w1, getCurrentSubscription env w = (Return None, w1) →
       existsb is_PushUnsubscribe (added (toggle env) w) = false).
Proof.
  assert (Hsub : emits_only subscribe_event
            (getCurrentSubscription env ≫= λ _, subscribe env)).
  { apply emits_only_bind; [|intros _; apply subscribe_emits].
    eapply emits_only_weaken; [|apply getCurrentSubscription_emits]. by intros []. }
  assert (Hunsub : emits_only unsubscribe_event
            (getCurrentSubscription env ≫= λ _, unsubscribe env)).
  { apply emits_only_bind; [|intros _; apply unsubscribe_emits].
    eapply emits_only_weaken; [|apply getCurrentSubscription_emits]. by intros []. }
  pose proof (added_of_emits _ _ w Hsub) as H1.
  pose proof (added_of_emits _ _ w Hunsub) as H2.
  pose proof (added_of_emits _ _ w (getCurrentSubscription_emits env)) as H0.
  assert (E1 : ∀ l, forallb unsubscribe_event l = true →
                     existsb is_PushSubscribe l = false)
    by (intros l; apply forallb_existsb_false; by intros []).
  assert (E2 : ∀ l, forallb subscribe_event l = true →
                     existsb is_PushUnsubscribe l = false)
    by (intros l; apply forallb_existsb_false; by intros []).
  assert (E3 : ∀ l, forallb is_RegisterWorker l = true →
                     existsb is_PushSubscribe l = false)
    by (intros l; apply forallb_existsb_false; by intros []).
  unfold added, toggle. rewrite bind_unfold in *.
  destruct (getCurrentSubscription env w) as [[[sub|]|e|] w1] eqn:Hl;
    cbn [snd] in *.
  - rewrite (E1 _ H2). split; [done|]. split; [done|]. by intros w1' [=].
  - rewrite (E2 _ H1). split; [apply andb_false_r|].
    split; [by intros sub w1' [=]|done].
  - rewrite (E3 _ H0). split; [done|]. split; [done|]. by intros w1' [=].
  - rewrite (E3 _ H0). split; [done|]. split; [done|]. by intros w1' [=].
Qed.

(** *** Decoding the key *)

Lemma list_ascii_append s1 s2 :
  list_ascii_of_string (s1 +:+ s2)
  = list_ascii_of_string s1 ++ list_ascii_of_string s2.
Proof. induction s1 as [|c s1 IH]; [done|]. simpl. by rewrite IH. Qed.

Lemma list_ascii_replace_all a b s :
  list_ascii_of_string (replace_all a b s)
  = (λ c, if Ascii.eqb c a then b else c) <$> list_ascii_of_string s.
Proof. induction s as [|c s IH]; [done|]. simpl. by rewrite IH. Qed.

Lemma list_ascii_padding n :
  list_ascii_of_string (repeat_string "=" n) = replicate n "="%char.
Proof.
  induction n as [|n IH]; [done|].
  change (repeat_string "=" (S n)) with (String "=" (repeat_string "=" n)).
  cbn [list_ascii_of_string replicate]. by rewrite IH.
Qed.

Lemma strip_whitespace_clean s :
  forallb (λ c, negb (is_ascii_whitespace c)) (list_ascii_of_string s) = true →
  strip_whitespace s = list_ascii_of_string s.
Proof.
  induction s as [|c s IH]; [done|]. simpl. intros H.
  apply andb_prop in H as [Hc Hs]. apply negb_true_iff in Hc. rewrite Hc.
  by rewrite IH.
Qed.

Lemma length_list_ascii s : length (list_ascii_of_string s) = String.length s.
Proof. induction s as [|c s IH]; [done|]. simpl. by rewrite IH. Qed.

(** The two replacements of the script, on one character. *)
Lemma base64url_to_sextet c :
  is_base64url c = true →
  is_Some (sextet (let c1 := if Ascii.eqb c "-" then "+"%char else c in
                   if Ascii.eqb c1 "_" then "/"%char else c1)).
Proof.
  destruct c as [[] [] [] [] [] [] [] []]; vm_compute; intros H;
    try discriminate; by eexists.
Qed.

Lemma sextet_plain c :
  is_Some (sextet c) → is_ascii_whitespace c = false ∧ c ≠ "="%char.
Proof.
  destruct c as [[] [] [] [] [] [] [] []]; vm_compute; intros [n H];
    try discriminate; by split.
Qed.

Lemma strip_padding_unfold l :
  strip_padding l
  = if (length l mod 4 =? 0)%nat then
      match reverse l with
      | c1 :: r1 =>
          if Ascii.eqb c1 "=" then
            match r1 with
            | c2 :: r2 => if Ascii.eqb c2 "=" then reverse r2 else reverse r1
            | [] => reverse r1
            end
          else l
      | [] => l
      end
    else l.
Proof.
  unfold strip_padding. destruct (length l mod 4 =? 0)%nat; [|done].
  destruct (reverse l) as [|c1 r1]; [done|].
  destruct c1 as [[] [] [] [] [] [] [] []]; try reflexivity.
  destruct r1 as [|c2 r2]; [done|].
  destruct c2 as [[] [] [] [] [] [] [] []]; reflexivity.
Qed.

Lemma strip_padding_spec (K : list ascii) p :
  Forall (λ c, c ≠ "="%char) K → K ≠ [] → p ≤ 2 →
  (length K + p) mod 4 = 0 →
  strip_padding (K ++ replicate p "="%char) = K.
Proof.
  intros HK Hne Hp Hlen. rewrite strip_padding_unfold.
  rewrite length_app, length_replicate, Hlen. cbn [Nat.eqb].
  rewrite reverse_app, reverse_replicate.
  destruct K as [|c0 K0 _] using rev_ind; [done|].
  apply Forall_app in HK as [_ HK]. apply Forall_cons in HK as [Hc _].
  apply Ascii.eqb_neq in Hc.
  rewrite reverse_snoc.
  destruct p as [|[|[|p]]]; [| | |lia]; cbn [replicate app].
  - by rewrite Hc, app_nil_r.
  - by rewrite Hc, reverse_cons, reverse_involutive.
  - by rewrite reverse_cons, reverse_involutive.
Qed.

Lemma sextets_spec (K : list ascii) :
  Forall (λ c, is_Some (sextet c)) K →
  ∃ ns, sextets K = Some ns ∧ length ns = length K.
Proof.
  induction 1 as [|c K [n Hn] _ (ns & Hns & Hlen)]; [by exists []|].
  exists (n :: ns). cbn [sextets length]. by rewrite Hn, Hns, Hlen.
Qed.

Lemma three_quarters m : 3 * (4 + m) / 4 = 3 + 3 * m / 4.
Proof.
  replace (3 * (4 + m)) with (3 * m + 3 * 4) by lia.
  rewrite Nat.div_add by done. lia.
Qed.

Lemma decode_groups_length fuel (ns : list N) :
  length ns ≤ 4 * fuel → length ns mod 4 ≠ 1 →
  length (decode_groups fuel ns) = 3 * length ns / 4.
Proof.
  revert ns. induction fuel as [|fuel IH]; intros ns Hfuel Hmod.
  - destruct ns; [done|]. cbn [length] in Hfuel. lia.
  - destruct ns as [|a [|b [|c [|d rest]]]]; try done.
    cbn [decode_groups length]. rewrite IH.
    + change (S (S (S (S (length rest))))) with (4 + length rest).
      by rewrite three_quarters.
    + cbn [length] in Hfuel. lia.
    + change (length (a :: b :: c :: d :: rest)) with (4 + length rest) in Hmod.
      rewrite <- Nat.Div0.add_mod_idemp_l in Hmod. exact Hmod.
Qed.

Lemma padding_bound n :
  n mod 4 ≠ 1 →
  (n + (4 - n mod 4) mod 4) mod 4 = 0 ∧ (4 - n mod 4) mod 4 ≤ 2.
Proof.
  intros H. rewrite Nat.Div0.add_mod. pose proof (Nat.mod_upper_bound n 4).
  destruct (n mod 4) as [|[|[|[|]]]]; cbn; lia.
Qed.

(** [atob] on a padded base64url text, in one statement: the text is the
    translated characters followed by the padding. *)
Lemma atob_base64url (key : string) :
  key ≠ ""%string →
  forallb is_base64url (list_ascii_of_string key) = true →
  String.length key mod 4 ≠ 1 →
  ∃ raw,
    atob (replace_all "_" "/" (replace_all "-" "+"
            (key +:+ repeat_string "=" ((4 - String.length key mod 4) mod 4))))
    = Some raw
    ∧ String.length raw = 3 * String.length key / 4.
Proof.
  intros Hne Hchars Hmod.
  set (p := (4 - String.length key mod 4) mod 4).
  set (tr := λ c : ascii,
         let c1 := if Ascii.eqb c "-" then "+"%char else c in
         if Ascii.eqb c1 "_" then "/"%char else c1).
  set (K := tr <$> list_ascii_of_string key).
  assert (HK : Forall (λ c, is_Some (sextet c)) K).
  { unfold K. apply Forall_fmap, Forall_forall. intros c Hc.
    apply base64url_to_sextet.
    rewrite forallb_forall in Hchars. apply Hchars.
    by apply list_elem_of_In. }
  assert (Hlist : list_ascii_of_string
            (replace_all "_" "/" (replace_all "-" "+"
               (key +:+ repeat_string "=" p)))
          = K ++ replicate p "="%char).
  { rewrite !list_ascii_replace_all, list_ascii_append, list_ascii_padding.
    rewrite <- list_fmap_compose, fmap_app, fmap_replicate. done. }
  assert (HlenK : length K = String.length key).
  { unfold K. by rewrite length_fmap, length_list_ascii. }
  destruct (padding_bound (String.length key) Hmod) as [Hpad Hp].
  fold p in Hpad, Hp.
  unfold atob. rewrite strip_whitespace_clean, Hlist.
  2:{ rewrite Hlist, forallb_app. apply andb_true_intro. split.
      - apply forallb_forall. intros c Hc. apply list_elem_of_In in Hc.
        rewrite Forall_forall in HK. apply HK, sextet_plain in Hc as [-> _]. done.
      - apply forallb_forall. intros c Hc. apply list_elem_of_In in Hc.
        apply elem_of_replicate in Hc as [-> _]. done. }
  rewrite strip_padding_spec; [| |  | done |].
  - rewrite HlenK. pose proof Hmod as Hmod'.
    apply Nat.eqb_neq in Hmod'. rewrite Hmod'.
    destruct (sextets_spec K HK) as (ns & -> & Hns).
    eexists. split; [done|].
    rewrite <- length_list_ascii, list_ascii_of_string_of_list_ascii.
    rewrite decode_groups_length;
      [by rewrite Hns, HlenK|lia|by rewrite Hns, HlenK].
  - eapply Forall_impl; [exact HK|]. intros c Hc. by apply sextet_plain.
  - unfold K. destruct key; [done|]. done.
  - by rewrite HlenK.
Qed.

(** X13. getApplicationServerKey, on a configured key that is URL-safe
    base64 (letters, digits, [-] and [_]) and whose length is not 1 modulo
    4: the call returns, without an exception and without touching the
    world, an array of [floor (3 * key.length / 4)] bytes, each below 256. *)
Theorem getApplicationServerKey_decodes (env : Platform) (key : string) (w : World) :
  VAPID_PUBLIC_KEY env = Some key →
  key ≠ ""%string →
  forallb is_base64url (list_ascii_of_string key) = true →
  String.length key mod 4 ≠ 1 →
  ∃ arr,
    getApplicationServerKey env w = (Return (Some arr), w)
    ∧ length arr = 3 * String.length key / 4
    ∧ Forall (λ b, (b < 256)%N) arr.
Proof.
  intros Hkey Hne Hchars Hmod.
  destruct (atob_base64url key Hne Hchars Hmod) as (raw & Hraw & Hlen).
  exists (char_codes raw). unfold getApplicationServerKey. rewrite Hkey.
  apply String.eqb_neq in Hne. rewrite Hne. cbv zeta. rewrite Hraw.
  split; [done|]. split.
  - rewrite <- Hlen. clear. induction raw as [|c raw IH]; [done|].
    cbn [char_codes length String.length]. by rewrite IH.
  - clear. induction raw as [|c raw IH]; [done|].
    cbn [char_codes]. constructor; [apply N_ascii_bounded|done].
Qed.

Lemma getApplicationServerKey_decodes_witness :
  let env := sample_platform 1 (Fulfilled tt) None (Some sample_key)
               (Fulfilled sample_subscription) "granted" (Fulfilled true)
               (Fulfilled {| resp_ok := true |}) in
  let w := {| document := sample_document; events := [] |} in
  ∃ arr,
    getApplicationServerKey env w = (Return (Some arr), w)
    ∧ length arr = 3 * String.length sample_key / 4
    ∧ Forall (λ b, (b < 256)%N) arr.
Proof.
  intros env w.
  apply (getApplicationServerKey_decodes env sample_key w); done.
Defined.

(** X14. getApplicationServerKey and subscribe, on a configured key that
    [atob] refuses: the key function throws, and [subscribe], which calls
    it outside its [try], rejects with the same exception; nothing is
    alerted, the push manager is not asked, nothing is fetched and the page
    is as before. *)
Theorem subscribe_malformed_key (env : Platform) (key : string) (w w' : World)
    (reg : ServiceWorkerRegistration) :
  VAPID_PUBLIC_KEY env = Some key →
  key ≠ ""%string →
  atob (replace_all "_" "/" (replace_all "-" "+"
          (key +:+ repeat_string "=" ((4 - String.length key mod 4) mod 4))))
  = None →
  getRegistration env w = (Return (Some reg), w') →
  getApplicationServerKey env w' = (Throw "InvalidCharacterError", w')
  ∧ subscribe env w = (Throw "InvalidCharacterError", w')
  ∧ document w' = document w
  ∧ (events w' = events w
     ∨ events w' = events w ++ [RegisterWorker "/service-worker.js"]).
Proof.
  intros Hkey Hne Hatob Hreg.
  assert (Hthrow : getApplicationServerKey env w'
                   = (Throw "InvalidCharacterError", w')).
  { unfold getApplicationServerKey. rewrite Hkey.
    apply String.eqb_neq in Hne. rewrite Hne. cbv zeta. by rewrite Hatob. }
  split; [done|]. split.
  - unfold subscribe. rewrite bind_unfold, Hreg. by rewrite bind_unfold, Hthrow.
  - pose proof (getRegistration_effects env w) as H. by rewrite Hreg in H.
Qed.

Lemma subscribe_malformed_key_witness :
  let env := sample_platform 1 (Fulfilled tt) None (Some "A")
               (Fulfilled sample_subscription) "granted" (Fulfilled true)
               (Fulfilled {| resp_ok := true |}) in
  let w := {| document := sample_document; events := [] |} in
  getApplicationServerKey env w = (Throw "InvalidCharacterError", w)
  ∧ subscribe env w = (Throw "InvalidCharacterError", w)
  ∧ document w = document w
  ∧ (events w = events w
     ∨ events w = events w ++ [RegisterWorker "/service-worker.js"]).
Proof.
  intros env w.
  apply (subscribe_malformed_key env "A" w w Registration); done.
Defined.

(** *** Start-up and rendering *)

(** X15. init never hangs, whatever the platform answers and even when
    the lookup never settles. Without platform support it renders
    "unsupported" and does nothing else. With support but no [Notification]
    global it rejects with a [ReferenceError], the page and the outside
    untouched: the permission is read before the [try]. With both it
    completes, renders exactly one of the four states into the page it
    found, and touches the outside at most by registering the worker; a
    denied permission gives "denied" with nothing done to the outside, and
    "subscribed" is rendered only when the lookup found a subscription
    before the timer. *)
Theorem init_renders (env : Platform) (has_Notification lookup_in_time : bool)
    (w : World) :
  fst (init env has_Notification lookup_in_time w) ≠ Hang
  ∧ (fst (init env has_Notification lookup_in_time w) = Return tt
     ↔ has_serviceWorker env && has_PushManager env = false
       ∨ has_Notification = true)
  ∧ (has_serviceWorker env && has_PushManager env = true →
     has_Notification = false →
     init env has_Notification lookup_in_time w = (Throw "ReferenceError", w))
  ∧ forallb is_RegisterWorker (added (init env has_Notification lookup_in_time) w)
    = true
  ∧ (fst (init env has_Notification lookup_in_time w) = Return tt →
     ∃ state,
       state ∈ ui_states
       ∧ document (snd (init env has_Notification lookup_in_time w))
         = updateUI state (document w)
       ∧ (has_serviceWorker env && has_PushManager env = false →
            state = "unsupported"%string
            ∧ events (snd (init env has_Notification lookup_in_time w)) = events w)
       ∧ (has_serviceWorker env && has_PushManager env = true →
          Notification_permission env = "denied"%string →
            state = "denied"%string
            ∧ events (snd (init env has_Notification lookup_in_time w)) = events w)
       ∧ (state = "subscribed"%string →
            lookup_in_time = true
            ∧ ∃ sub w1, getCurrentSubscription env w = (Return (Some sub), w1))).
Proof.
  unfold added, init.
  destruct (has_serviceWorker env), (has_PushManager env); cbn [negb orb andb].
  2-4: split; [done|]; split; [split; [by left|done]|]; split; [done|]; split;
    [by cbn [render snd events]; rewrite drop_all|];
    intros _; exists "unsupported"%string; unfold ui_states;
    split; [by apply list_elem_of_In; cbn; auto|];
    split; [done|]; split; [done|]; split; [done|]; done.
  destruct has_Notification; cbn [negb].
  2:{ split; [done|]. split; [split; [done|by intros [|]]|]. split; [done|].
      split; [by cbn [snd]; rewrite drop_all|]. done. }
  destruct (Notification_permission env =? "denied")%string eqn:Hperm.
  { split; [done|]. split; [split; [by right|done]|]. split; [done|].
    split; [by cbn [render snd events]; rewrite drop_all|].
    intros _. exists "denied"%string. unfold ui_states.
    split; [by apply list_elem_of_In; cbn; auto|].
    split; [done|]. split; [done|]. split; [done|]. done. }
  apply String.eqb_neq in Hperm. cbv beta.
  pose proof (getCurrentSubscription_effects env w) as [Hdoc _].
  pose proof (added_of_emits _ _ w (getCurrentSubscription_emits env)) as Hev.
  destruct (getCurrentSubscription env w) as [[[sub|]|e|] w1] eqn:Hl;
    cbn [snd] in Hdoc, Hev.
  all: destruct lookup_in_time.
  all: split; [done|]; split; [split; [by right|done]|]; split; [done|];
    split; [exact Hev|]; intros _; cbn [render snd document].
  1: exists "subscribed"%string.
  2-8: exists "prompt"%string.
  all: unfold ui_states; split; [by apply list_elem_of_In; cbn; auto|].
  all: split; [by rewrite Hdoc|]; split; [done|]; split; [done|].
  all: try done.
  intros _. split; [done|]. by exists sub, w1.
Qed.

(** X16. updateUI: without the button nothing is written, not even the
    status line; a node that is missing stays missing and one that is there
    stays there. The label, the class, the style and the status line depend
    on the last state only, and a second render of the same state changes
    nothing. *)
Theorem updateUI_last_state_wins (s1 s2 : string) (d : Document) :
  (pushToggleBtn d = None → updateUI s2 d = d)
  ∧ (is_Some (pushToggleBtn (updateUI s2 d)) ↔ is_Some (pushToggleBtn d))
  ∧ (is_Some (pushStatus (updateUI s2 d)) ↔ is_Some (pushStatus d))
  ∧ btn_textContent <$> pushToggleBtn (updateUI s2 (updateUI s1 d))
    = btn_textContent <$> pushToggleBtn (updateUI s2 d)
  ∧ btn_className <$> pushToggleBtn (updateUI s2 (updateUI s1 d))
    = btn_className <$> pushToggleBtn (updateUI s2 d)
  ∧ btn_cssText <$> pushToggleBtn (updateUI s2 (updateUI s1 d))
    = btn_cssText <$> pushToggleBtn (updateUI s2 d)
  ∧ pushStatus (updateUI s2 (updateUI s1 d)) = pushStatus (updateUI s2 d)
  ∧ updateUI s2 (updateUI s2 d) = updateUI s2 d.
Proof.
  unfold updateUI at 1 2 3 5 7 9 11 13.
  destruct d as [[btn|] [st|]]; cbn [pushToggleBtn pushStatus].
  3,4: by repeat split; intros.
  all: split; [done|].
  all: split; [by repeat (case_match; cbn [pushToggleBtn])|].
  all: split; [by repeat (case_match; cbn [pushStatus assign_if_present])|].
  all: unfold updateUI; cbn [pushToggleBtn pushStatus assign_if_present].
  all: (destruct (s1 =? "subscribed")%string;
         [|destruct (s1 =? "prompt")%string;
           [|destruct (s1 =? "denied")%string]]);
       cbn [pushToggleBtn pushStatus assign_if_present btn_disabled].
  all: (destruct (s2 =? "subscribed")%string;
         [|destruct (s2 =? "prompt")%string;
           [|destruct (s2 =? "denied")%string]]);
       cbn [pushToggleBtn pushStatus assign_if_present btn_disabled];
       by repeat split.
Qed.

End PushStartFacts.

(** ** [service-worker.js]: what the handlers always do *)
Section ServiceWorkerShape.
Import ServiceWorker.

(** A parsed value is never [undefined]. *)
Lemma parse_number_defined s v r : parse_number s = Some (v, r) → v ≠ JUndefined.
Proof.
  unfold parse_number. repeat case_match; try done; by intros [= <- _].
Qed.

Lemma parse_value_defined fuel s v r :
  parse_value fuel s = Some (v, r) → v ≠ JUndefined.
Proof.
  destruct fuel as [|fuel]; [done|]. cbn [parse_value].
  remember (parse_value fuel) as pv eqn:Hpv. clear Hpv.
  destruct (skip_ws s) as [|c rest]; [done|].
  destruct (code c =? 123)%N.
  { destruct (skip_ws rest) as [|c' rest']; [done|].
    destruct (code c' =? 125)%N; [by intros [= <- _]|].
    lazymatch goal with
    | |- context [?f (length rest) _ _] =>
        assert (Hm : ∀ n s0 acc, f n s0 acc = Some (v, r) → v ≠ JUndefined)
    end.
    { intros n. induction n as [|n IH]; intros s0 acc; [by simpl|].
      simpl. repeat case_match; try done; [apply IH|by intros [= <- _]]. }
    repeat case_match; try done; [apply Hm|by intros [= <- _]]. }
  destruct (code c =? 91)%N.
  { destruct (skip_ws rest) as [|c' rest']; [done|].
    destruct (code c' =? 93)%N; [by intros [= <- _]|].
    lazymatch goal with
    | |- context [?f (length rest) _ _] =>
        assert (Hm : ∀ n s0 acc, f n s0 acc = Some (v, r) → v ≠ JUndefined)
    end.
    { intros n. induction n as [|n IH]; intros s0 acc; [by simpl|].
      simpl. repeat case_match; try done; [apply IH|by intros [= <- _]]. }
    repeat case_match; try done; [apply Hm|by intros [= <- _]]. }
  destruct (code c =? 34)%N.
  { destruct (parse_chars rest []) as [[str rest']|]; [|done]. by intros [= <- _]. }
  destruct (code c =? 116)%N.
  { destruct (strip_prefix _ rest); [|done]. by intros [= <- _]. }
  destruct (code c =? 102)%N.
  { destruct (strip_prefix _ rest); [|done]. by intros [= <- _]. }
  destruct (code c =? 110)%N.
  { destruct (strip_prefix _ rest); [|done]. by intros [= <- _]. }
  destruct (_ || _); [apply parse_number_defined|done].
Qed.

Lemma JSON_parse_defined text v : JSON_parse text = Some v → v ≠ JUndefined.
Proof.
  unfold JSON_parse.
  destruct (parse_value _ _) as [[v' rest]|] eqn:Hp; [|done].
  destruct (skip_ws rest); [|done]. intros [= <-].
  by eapply parse_value_defined.
Qed.

Lemma js_or_truthy a b : truthy b = true → truthy (js_or a b) = true.
Proof. unfold js_or. by destruct (truthy a) eqn:Ha. Qed.

Lemma js_or_cases a b : js_or a b = b ∨ truthy (js_or a b) = true.
Proof. unfold js_or. destruct (truthy a) eqn:Ha; [by right|by left]. Qed.

(** A literal below the smallest double converts to zero and is falsy. *)
Lemma underflow_falsy :
  truthy (JNumber {| num_minus := false; num_int := ["1"%char]; num_frac := [];
                     num_exp := Some (true, ["4"; "0"; "0"]%char) |}) = false.
Proof. vm_compute. reflexivity. Qed.

(** X17. The push listener, for every event: without data it does nothing.
    With data it reads [title], [body] and [url] off the parsed payload, or
    off the fallback object when the payload does not parse, and shows
    exactly one notification: its title is the payload's when that is
    truthy and "FinLife" otherwise, its body the payload's when truthy and
    the empty string otherwise, its target URL the payload's when truthy
    and "/" otherwise; so title and target are always truthy. Icon and
    badge are the application icon. The one exception is a payload that is
    the JSON text [null]: reading [data.title] then raises a [TypeError]
    and nothing is shown. *)
Theorem on_push_shows_one (event_data : option string) :
  match on_push event_data with
  | Done [] => event_data = None
  | Done [ShowNotification title options] =>
      ∃ payload data t b u,
        event_data = Some payload
        ∧ (JSON_parse payload = Some data
           ∨ JSON_parse payload = None ∧ data = Notifications.fallback payload)
        ∧ get_prop data "title" = Some t
        ∧ get_prop data "body" = Some b
        ∧ get_prop data "url" = Some u
        ∧ title = (if truthy t then t else JString "FinLife")
        ∧ body options = (if truthy b then b else JString "")
        ∧ data_url options = (if truthy u then u else JString "/")
        ∧ truthy title = true
        ∧ truthy (data_url options) = true
        ∧ icon options = "/static/icons/icon-192.svg"%string
        ∧ badge options = "/static/icons/icon-192.svg"%string
  | Done _ => False
  | TypeError => ∃ payload, event_data = Some payload ∧ JSON_parse payload = Some JNull
  end.
Proof.
  destruct event_data as [payload|]; [|done]. unfold on_push.
  destruct (JSON_parse payload) as [v|] eqn:Hp.
  - pose proof (JSON_parse_defined _ _ Hp) as Hv.
    destruct (get_prop v "title") as [t|] eqn:Ht.
    2:{ destruct v; try done. by exists payload. }
    assert (Hb : ∃ b, get_prop v "body" = Some b) by (destruct v; try done; by eexists).
    assert (Hu : ∃ u, get_prop v "url" = Some u) by (destruct v; try done; by eexists).
    destruct Hb as [b Hb], Hu as [u Hu]. rewrite Hb, Hu.
    exists payload, v, t, b, u. cbn [body data_url icon badge].
    split; [done|]. split; [by left|]. do 6 (split; [done|]).
    split; [by apply js_or_truthy|]. split; [by apply js_or_truthy|]. done.
  - cbn [get_prop]. cbv iota beta.
    eexists payload, (Notifications.fallback payload), _, _, _.
    cbn [body data_url icon badge].
    split; [done|]. split; [by right|]. do 3 (split; [reflexivity|]).
    do 3 (split; [done|]).
    split; [by apply js_or_truthy|]. split; [by apply js_or_truthy|]. done.
Qed.






(** The value the push listener stores is the one the click listener
    takes. *)
Lemma target_stored u :
  truthy u = true → Notifications.target (JObject [("url", u)]) = u.
Proof. intros H. unfold Notifications.target. cbn. by rewrite H. Qed.

(** A truthy target can still convert to the empty text. *)
Lemma target_empty_text number_text :
  Notifications.target (JObject [("url", JArray [])]) = JArray []
  ∧ Notifications.to_string number_text (JArray []) = ""%string.
Proof. done. Qed.


End ServiceWorkerShape.

(** ** The operations scripts *)
Section ShellFacts.
Import Shell.

Lemma sh_bind_unfold {A B} (m : Sh A) (k : A → Sh B) t :
  (m ≫= k) t
  = match m t with
    | (Next a, t') => k a t'
    | (Exit n, t') => (Exit n, t')
    end.
Proof. done. Qed.

Lemma run_bind {B} sys c (k : unit → Sh B) t :
  (run sys c ≫= k) t
  = if Nat.eqb (status (entry sys t c)) 0 then k tt (t ++ [entry sys t c])
    else (Exit (status (entry sys t c)), t ++ [entry sys t c]).
Proof.
  rewrite sh_bind_unfold. unfold run. cbv zeta.
  by destruct (Nat.eqb (status (entry sys t c)) 0).
Qed.

Lemma capture_bind {B} sys c (k : string → Sh B) t :
  (capture sys c ≫= k) t
  = if Nat.eqb (status (entry sys t c)) 0
    then k (output (entry sys t c)) (t ++ [entry sys t c])
    else (Exit (status (entry sys t c)), t ++ [entry sys t c]).
Proof.
  rewrite sh_bind_unfold. unfold capture. cbv zeta.
  by destruct (Nat.eqb (status (entry sys t c)) 0).
Qed.



Lemma succeeded_app before t ext :
  succeeded before t → succeeded before (t ++ ext).
Proof.
  intros (e & He & Hp & Hs). exists e. split; [|done].
  apply elem_of_app. by left.
Qed.

Lemma succeeded_snoc before t e :
  before (cmd e) = true → status e = 0 → succeeded before (t ++ [e]).
Proof.
  intros Hp Hs. exists e. split; [|done].
  apply elem_of_app. right. apply list_elem_of_here.
Qed.

Lemma only_after_nil before after : only_after before after [].
Proof. intros [|? ?] ? ? H; discriminate. Qed.

Lemma only_after_snoc before after t e :
  only_after before after t →
  (after (cmd e) = true → succeeded before t) →
  only_after before after (t ++ [e]).
Proof.
  intros Ht He t1 e' t2 Heq Ha.
  destruct t2 as [|x t2 _] using rev_ind.
  - apply app_inj_tail in Heq as [-> ->]. by apply He.
  - rewrite app_comm_cons, app_assoc in Heq.
    apply app_inj_tail in Heq as [-> _]. by eapply Ht.
Qed.

Lemma keeps_ret before after {A} b z (a : A) :
  keeps before after b (mret a) b z.
Proof. intros t Ho Hb. by split. Qed.

Lemma keeps_exit before after {A} b b' z code :
  (code = 0 → z = true → b = true) →
  keeps before after (A := A) b (exit code) b' z.
Proof.
  intros Hz t Ho Hb. split; [done|]. cbn. destruct code; [|done].
  intros Hz'. by apply Hb, Hz.
Qed.

Lemma keeps_run before after b z sys c :
  (after c = true → b = true) →
  keeps before after b (run sys c) (b || before c) z.
Proof.
  intros Hc t Ho Hb. unfold run. cbv zeta.
  assert (Ho' : only_after before after (t ++ [entry sys t c])).
  { apply only_after_snoc; [done|]. intros Ha. by apply Hb, Hc. }
  destruct (Nat.eqb (status (entry sys t c)) 0) eqn:Hs; cbn [fst snd].
  - split; [done|]. intros [Hb'|Hb']%orb_prop.
    + by apply succeeded_app, Hb.
    + apply succeeded_snoc; [done|]. by apply Nat.eqb_eq.
  - split; [done|]. apply Nat.eqb_neq in Hs.
    by destruct (status (entry sys t c)).
Qed.

Lemma keeps_capture before after b z sys c :
  (after c = true → b = true) →
  keeps before after b (capture sys c) (b || before c) z.
Proof.
  intros Hc t Ho Hb. unfold capture. cbv zeta.
  assert (Ho' : only_after before after (t ++ [entry sys t c])).
  { apply only_after_snoc; [done|]. intros Ha. by apply Hb, Hc. }
  destruct (Nat.eqb (status (entry sys t c)) 0) eqn:Hs; cbn [fst snd].
  - split; [done|]. intros [Hb'|Hb']%orb_prop.
    + by apply succeeded_app, Hb.
    + apply succeeded_snoc; [done|]. by apply Nat.eqb_eq.
  - split; [done|]. apply Nat.eqb_neq in Hs.
    by destruct (status (entry sys t c)).
Qed.

Lemma keeps_run_or_true before after b z sys c :
  (after c = true → b = true) →
  keeps before after b (run_or_true sys c) b z.
Proof.
  intros Hc t Ho Hb. unfold run_or_true. cbn [fst snd]. split.
  - apply only_after_snoc; [done|]. intros Ha. by apply Hb, Hc.
  - intros Hb'. by apply succeeded_app, Hb.
Qed.

Lemma keeps_capture_or_true before after b z sys c :
  (after c = true → b = true) →
  keeps before after b (capture_or_true sys c) b z.
Proof.
  intros Hc t Ho Hb. unfold capture_or_true. cbn [fst snd]. split.
  - apply only_after_snoc; [done|]. intros Ha. by apply Hb, Hc.
  - intros Hb'. by apply succeeded_app, Hb.
Qed.

Lemma keeps_bind before after {A B} b b1 b2 z (m : Sh A) (k : A → Sh B) :
  keeps before after b m b1 z →
  (∀ a, keeps before after b1 (k a) b2 z) →
  keeps before after b (m ≫= k) b2 z.
Proof.
  intros Hm Hk t Ho Hb. rewrite sh_bind_unfold.
  destruct (Hm t Ho Hb) as [Ho1 H1].
  destruct (m t) as [[a|n] t1]; cbn [fst snd] in *; [|done].
  by apply Hk.
Qed.

Lemma keeps_if before after {A} b b' z (c : bool) (m1 m2 : Sh A) :
  keeps before after b m1 b' z →
  keeps before after b m2 b' z →
  keeps before after b (if c then m1 else m2) b' z.
Proof. by destruct c. Qed.

Lemma keeps_from before after {A} b0 b b' z (m : Sh A) :
  (b = true → b0 = true) →
  keeps before after b m b' z →
  keeps before after b0 m b' z.
Proof. intros Hb Hm t Ho Hb0. apply Hm; [done|]. intros ?. by apply Hb0, Hb. Qed.

Lemma keeps_wait_health before after b z sys rounds :
  (after (Curl HEALTH_URL) = true → b = true) →
  (after (Sleep 2) = true → b = true) →
  (z = true → b = true) →
  keeps before after b (wait_health sys rounds) b z.
Proof.
  intros Hc Hs Hz. induction rounds as [|i rounds IH]; [apply keeps_ret|].
  cbn [wait_health]. eapply keeps_bind; [by apply keeps_capture_or_true|].
  intros code. apply keeps_if; [by apply keeps_exit|].
  eapply keeps_bind; [by apply keeps_run|]. intros _.
  eapply keeps_from; [|exact IH]. intros ->. done.
Qed.

(** What [keeps] gives for a whole script. *)
Lemma keeps_script before after b' (body : Sh unit) :
  keeps before after false body b' true →
  only_after before after (snd (script body))
  ∧ (b' = true → fst (script body) = 0 → succeeded before (snd (script body))).
Proof.
  intros H. destruct (H [] (only_after_nil _ _)) as [Ho Hr]; [done|].
  unfold script. destruct (body []) as [[a|n] t]; cbn [fst snd] in *.
  - split; [done|]. intros Hb _. by apply Hr.
  - split; [done|]. intros _ ->. by apply Hr.
Qed.

Ltac keeps_steps :=
  repeat first
    [ apply keeps_ret
    | apply keeps_exit; by vm_compute
    | apply keeps_run; by vm_compute
    | apply keeps_capture; by vm_compute
    | apply keeps_run_or_true; by vm_compute
    | apply keeps_capture_or_true; by vm_compute
    | apply keeps_wait_health; by vm_compute
    | apply keeps_if
    | eapply keeps_bind; [|intros ?] ].

(** X19. deploy_prod.sh runs its steps in order and never goes on after a
    failure: the backup script is run only after the [cd] succeeded, the
    code is fetched only after the backup succeeded, pulled only after the
    fetch succeeded, the stack is rebuilt only after the pull succeeded, and
    the health endpoint is probed only after the rebuild succeeded. When
    the script exits with status 0, each of these steps has succeeded. *)
Theorem deploy_steps_in_order (sys : System) :
  Forall (λ '(c, d),
            only_after (is_cmd c) (is_cmd d) (snd (script (deploy sys)))
            ∧ (fst (script (deploy sys)) = 0 →
               succeeded (is_cmd c) (snd (script (deploy sys)))))
    deploy_order.
Proof.
  unfold deploy_order.
  repeat (apply Forall_cons; split; [|]); [..|by apply Forall_nil].
  all: cbv beta iota.
  all: match goal with
       | |- only_after ?p ?q _ ∧ _ =>
           assert (H : keeps p q false (deploy sys) true true)
             by (unfold deploy; keeps_steps)
       end.
  all: apply keeps_script in H as [Ho Hs]; split; [done|by apply Hs].
Qed.








Lemma succeeded_snoc_iff p t e :
  succeeded p (t ++ [e]) ↔ succeeded p t ∨ (p (cmd e) = true ∧ status e = 0).
Proof.
  split.
  - intros (x & [Hx|Hx]%elem_of_app & Hp & Hs); [left; by exists x|].
    apply list_elem_of_singleton in Hx as ->. by right.
  - intros [H|[Hp Hs]]; [by apply succeeded_app|by apply succeeded_snoc].
Qed.

Lemma decides_ret p {A} b (a : A) : decides p b (mret a) b.
Proof. intros t Hb. done. Qed.

Lemma decides_exit p {A} b' code :
  code ≠ 0 → decides p (A := A) false (exit code) b'.
Proof.
  intros Hc t Hb. cbn. destruct code; [done|]. intros H. by apply Hb in H.
Qed.

Lemma decides_run_other p sys c :
  p c = false → decides p false (run sys c) false.
Proof.
  intros Hc t Hb. unfold run. cbv zeta.
  assert (Hno : ¬ succeeded p (t ++ [entry sys t c])).
  { rewrite succeeded_snoc_iff. intros [H|[H _]]; [by apply Hb in H|].
    cbn [entry cmd] in H. congruence. }
  destruct (Nat.eqb (status (entry sys t c)) 0) eqn:Hs; cbn [fst snd].
  - split; [done|by intros [=]].
  - apply Nat.eqb_neq in Hs. by destruct (status (entry sys t c)).
Qed.

Lemma decides_capture_other p sys c :
  p c = false → decides p false (capture sys c) false.
Proof.
  intros Hc t Hb. unfold capture. cbv zeta.
  assert (Hno : ¬ succeeded p (t ++ [entry sys t c])).
  { rewrite succeeded_snoc_iff. intros [H|[H _]]; [by apply Hb in H|].
    cbn [entry cmd] in H. congruence. }
  destruct (Nat.eqb (status (entry sys t c)) 0) eqn:Hs; cbn [fst snd].
  - split; [done|by intros [=]].
  - apply Nat.eqb_neq in Hs. by destruct (status (entry sys t c)).
Qed.

Lemma decides_run p sys c :
  p c = true → decides p false (run sys c) true.
Proof.
  intros Hc t Hb. unfold run. cbv zeta.
  destruct (Nat.eqb (status (entry sys t c)) 0) eqn:Hs; cbn [fst snd].
  - split; [done|]. intros _. apply succeeded_snoc; [done|]. by apply Nat.eqb_eq.
  - apply Nat.eqb_neq in Hs.
    destruct (status (entry sys t c)) as [|n] eqn:Hst; [done|].
    rewrite succeeded_snoc_iff. intros [H|[_ H]]; [by apply Hb in H|].
    congruence.
Qed.

Lemma decides_run_or_true p sys c b :
  p c = false → decides p b (run_or_true sys c) b.
Proof.
  intros Hc t Hb. unfold run_or_true. cbn [fst snd].
  rewrite succeeded_snoc_iff, Hb. split; [|by left].
  intros [H|[H _]]; [done|]. cbn [entry cmd] in H. congruence.
Qed.

Lemma decides_bind p {A B} b b1 b2 (m : Sh A) (k : A → Sh B) :
  decides p b m b1 → (∀ a, decides p b1 (k a) b2) → decides p b (m ≫= k) b2.
Proof.
  intros Hm Hk t Hb. rewrite sh_bind_unfold. specialize (Hm t Hb).
  destruct (m t) as [[a|n] t1]; cbn [fst snd] in *; [|done].
  by apply Hk.
Qed.

Lemma decides_if p {A} b b' (c : bool) (m1 m2 : Sh A) :
  decides p b m1 b' → decides p b m2 b' → decides p b (if c then m1 else m2) b'.
Proof. by destruct c. Qed.

Lemma decides_script p (body : Sh unit) :
  decides p false body true →
  fst (script body) = 0 ↔ succeeded p (snd (script body)).
Proof.
  intros H. specialize (H []). unfold script.
  destruct (body []) as [[a|[|n]] t]; cbn [fst snd] in *.
  - split; [intros _|done]. apply H; [|done].
    split; [|done]. by intros (e & ?%elem_of_nil & _).
  - split; [intros _|done]. apply H.
    split; [|done]. by intros (e & ?%elem_of_nil & _).
  - split; [done|]. intros Hs. exfalso. revert Hs. apply H.
    split; [|done]. by intros (e & ?%elem_of_nil & _).
Qed.

Ltac decides_steps :=
  repeat first
    [ apply decides_exit; done
    | apply decides_run; by vm_compute
    | apply decides_run_other; by vm_compute
    | apply decides_capture_other; by vm_compute
    | apply decides_run_or_true; by vm_compute
    | apply decides_if
    | eapply decides_bind; [|intros ?] ].

Lemma runs_only_ret Q {A} (a : A) : runs_only Q (mret a).
Proof. by intros t Ht. Qed.

Lemma runs_only_exit Q {A} code : runs_only Q (A := A) (exit code).
Proof. by intros t Ht. Qed.

Lemma runs_only_run Q sys c : Q c → runs_only Q (run sys c).
Proof.
  intros Hc t Ht. unfold run. cbv zeta.
  destruct (Nat.eqb _ 0); cbn [snd]; apply Forall_app; by repeat constructor.
Qed.

Lemma runs_only_capture Q sys c : Q c → runs_only Q (capture sys c).
Proof.
  intros Hc t Ht. unfold capture. cbv zeta.
  destruct (Nat.eqb _ 0); cbn [snd]; apply Forall_app; by repeat constructor.
Qed.

Lemma runs_only_run_or_true Q sys c : Q c → runs_only Q (run_or_true sys c).
Proof.
  intros Hc t Ht. unfold run_or_true. cbn [snd].
  apply Forall_app; by repeat constructor.
Qed.

Lemma runs_only_bind Q {A B} (m : Sh A) (k : A → Sh B) :
  runs_only Q m → (∀ a, runs_only Q (k a)) → runs_only Q (m ≫= k).
Proof.
  intros Hm Hk t Ht. rewrite sh_bind_unfold. specialize (Hm t Ht).
  destruct (m t) as [[a|n] t1]; cbn [snd] in *; [|done]. by apply Hk.
Qed.

Lemma runs_only_if Q {A} (c : bool) (m1 m2 : Sh A) :
  runs_only Q m1 → runs_only Q m2 → runs_only Q (if c then m1 else m2).
Proof. by destruct c. Qed.


Ltac runs_only_steps :=
  repeat first
    [ apply runs_only_exit
    | apply runs_only_run; done
    | apply runs_only_capture; done
    | apply runs_only_run_or_true; done
    | apply runs_only_if
    | apply runs_only_bind; [|intros ?] ].



(** X23. backup_prod_db.sh. The dump is started only after the time stamp
    was taken and the backup directory made, and it is listed only after
    it succeeded; the file listed is the file written; the script exits
    with status 0 exactly when the listing succeeded. *)
Theorem backup_outcome (sys : System) :
  only_after is_date is_dump (snd (script (backup sys)))
  ∧ only_after (is_cmd (MkdirP BACKUP_DIR)) is_dump (snd (script (backup sys)))
  ∧ only_after is_dump is_ls (snd (script (backup sys)))
  ∧ (∃ out, Forall (λ e, (is_dump (cmd e) = true → cmd e = ComposePgDump out)
                         ∧ (is_ls (cmd e) = true → cmd e = Ls out))
              (snd (script (backup sys))))
  ∧ (fst (script (backup sys)) = 0
     ↔ succeeded is_ls (snd (script (backup sys)))).
Proof.
  split; [|split; [|split; [|split]]].
  - eapply (keeps_script _ _ true). unfold backup. keeps_steps.
  - eapply (keeps_script _ _ true). unfold backup. keeps_steps.
  - eapply (keeps_script _ _ true). unfold backup. keeps_steps.
  - unfold script, backup. rewrite run_bind.
    destruct (Nat.eqb _ 0) eqn:H1;
      [|exists ""%string; cbn [snd]; by repeat constructor].
    rewrite capture_bind.
    set (d := entry sys ([] ++ [entry sys [] (Cd PROJECT_DIR)]) (Date _)).
    destruct (Nat.eqb (status d) 0) eqn:H2;
      [|exists ""%string; cbn [snd]; by repeat constructor].
    cbv zeta. set (OUT := (BACKUP_DIR +:+ "/prod_" +:+ output d +:+ ".sql")%string).
    exists OUT.
    assert (Hq : runs_only (λ c, (is_dump c = true → c = ComposePgDump OUT)
                                 ∧ (is_ls c = true → c = Ls OUT))
              (run sys (MkdirP BACKUP_DIR) ≫= λ _, run sys (ComposePgDump OUT)
                 ≫= λ _, run sys (Ls OUT)))
      by runs_only_steps.
    specialize (Hq (([] ++ [entry sys [] (Cd PROJECT_DIR)]) ++ [d])).
    destruct ((run sys (MkdirP BACKUP_DIR) ≫= _) _) as [[[]|n] t];
      cbn [snd] in *; apply Hq; by repeat constructor.
  - apply decides_script. unfold backup. decides_steps.
Qed.

End ShellFacts.

(** ** First revision: the option nodes under the filter *)
Section ToggleShape.
Import Select Toggle.

Lemma fmap_select_first {A} (f : OptionEl → A) v l :
  (∀ b o, f (set_opt_selected b o) = f o) →
  f <$> select_first v l = f <$> l.
Proof.
  intros Hf. induction l as [|o l IH]; [done|]. cbn [select_first].
  destruct (opt_value o =? v)%string; rewrite !fmap_cons; [by rewrite Hf|].
  by rewrite IH.
Qed.

Lemma fmap_set_value {A} (f : OptionEl → A) v l :
  (∀ b o, f (set_opt_selected b o) = f o) →
  f <$> set_value v l = f <$> l.
Proof.
  intros Hf. unfold set_value, deselect_all.
  rewrite fmap_select_first by done. rewrite <- list_fmap_compose.
  apply list_fmap_ext. intros ? o _. apply Hf.
Qed.

Lemma retype_select_first type v l :
  retype type <$> select_first v l = select_first v (retype type <$> l).
Proof.
  induction l as [|o l IH]; [done|]. rewrite fmap_cons. cbn [select_first].
  assert (Hv : opt_value (retype type o) = opt_value o).
  { unfold retype. by destruct (opt_dataset_type o). }
  rewrite Hv. destruct (opt_value o =? v)%string; rewrite fmap_cons.
  - by rewrite retype_set_selected.
  - by rewrite IH.
Qed.

Lemma retype_set_value type v l :
  retype type <$> set_value v l = set_value v (retype type <$> l).
Proof.
  unfold set_value. by rewrite retype_select_first, retype_deselect_all.
Qed.

Lemma retype_idem type o : retype type (retype type o) = retype type o.
Proof.
  unfold retype. destruct (opt_dataset_type o) as [t|] eqn:Ht; cbn; by rewrite Ht.
Qed.

(** X24. First revision, openModal on a page with the category select: no
    option node is added, removed or renamed; values, labels and
    [data-type]s stay. For the type "TRANSFER" every node keeps its
    [style.display]; for any other type a node with a [data-type] is shown
    exactly when that equals the type, and a node without one keeps its
    [style.display]. Opening again with the same type gives the same
    nodes. *)
Theorem toggle_openModal_nodes (type : string) (p : Page) (opts : list OptionEl) :
  qopCategory p = Some opts →
  ∃ opts',
    qopCategory (openModal type p) = Some opts'
    ∧ opt_static <$> opts' = opt_static <$> opts
    ∧ opt_display <$> opts'
      = (if (type =? "TRANSFER")%string then opt_display else display_for type)
          <$> opts
    ∧ qopCategory (openModal type (openModal type p)) = Some opts'.
Proof.
  intros H. pose proof (toggle_openModal_options type p opts H) as Ho.
  eexists. split; [exact Ho|].
  pose proof (toggle_openModal_options type _ _ Ho) as Ho2.
  destruct (type =? "TRANSFER")%string.
  - split; [by apply fmap_set_value|]. split; [by apply fmap_set_value|].
    by rewrite Ho2, set_value_set_value.
  - split; [|split].
    + rewrite fmap_set_value by done. rewrite <- list_fmap_compose.
      apply list_fmap_ext. intros ? o _. cbn. unfold retype.
      by destruct (opt_dataset_type o).
    + rewrite fmap_set_value by done. rewrite <- list_fmap_compose.
      apply list_fmap_ext. intros ? o _. cbn. unfold retype, display_for.
      by destruct (opt_dataset_type o).
    + rewrite Ho2, retype_set_value, set_value_set_value. do 2 f_equal.
      rewrite <- list_fmap_compose. apply list_fmap_ext. intros ? o _.
      apply retype_idem.
Qed.

Lemma toggle_openModal_nodes_witness :
  ∃ opts',
    qopCategory (openModal "INCOME" sample_page) = Some opts'
    ∧ opt_static <$> opts' = opt_static <$> sample_options
    ∧ opt_display <$> opts' = display_for "INCOME" <$> sample_options
    ∧ qopCategory (openModal "INCOME" (openModal "INCOME" sample_page)) = Some opts'.
Proof. apply (toggle_openModal_nodes "INCOME" sample_page sample_options). reflexivity. Defined.

End ToggleShape.
